(** * AWS automated daily instance AMI snapshots: [handler.py]

    A shallow embedding of [handler.py] and the properties of its two
    passes (backing up tagged instances, deleting expired AMIs).

    Layout:
    - [Py]: the pieces of the Python standard library the handler calls
      ([str.startswith], [in] on strings, [datetime], [time.strptime]);
    - the data returned by the EC2 API and the handler's configuration;
    - the effect monad: a cloud account threaded through the calls, every
      API call and every printed line recorded in order;
    - [backup_tagged_instances_in_region], [delete_expired_amis],
      [lambda_handler];
    - the properties.

    Strings are sequences of ASCII characters. *)

From Stdlib Require Import ZArith Lia String Ascii List DecimalString.
From stdpp Require Import base option list strings gmap.

Open Scope Z_scope.

(* ===================================================================== *)
(** * Python values and exceptions *)
(* ===================================================================== *)

(** An exception as the handler observes it: [exc_info] is the text of
    [str(sys.exc_info())], [exc_str] the text of [str(e)]. *)
Record Exn := { exc_info : string; exc_str : string }.

Inductive Result (A : Type) : Type :=
| Ok (a : A)
| Raise (e : Exn).
Arguments Ok {A} a.
Arguments Raise {A} e.

Definition is_ok {A} (r : Result A) : bool :=
  match r with Ok _ => true | Raise _ => false end.

Module Py.

(** [needle in haystack] *)
Definition contains (needle haystack : string) : bool :=
  match String.index 0 needle haystack with Some _ => true | None => false end.

(** [s.startswith(p)] *)
Definition startswith (s p : string) : bool := String.prefix p s.

(** [sep.join(l)] *)
Definition join (sep : string) (l : list string) : string := String.concat sep l.

(** [str(n)] for an [int]. *)
Definition str_int (n : Z) : string := NilZero.string_of_int (Z.to_int n).

(** Truthiness of a string: only [''] is falsy. *)
Definition truthy (s : string) : bool := negb (String.eqb s "").

Definition digit_char (n : Z) : ascii := ascii_of_nat (48 + Z.to_nat n).

Definition is_digit (c : ascii) : bool :=
  (48 <=? Z.of_nat (nat_of_ascii c)) && (Z.of_nat (nat_of_ascii c) <=? 57).

Definition digit_val (c : ascii) : Z := Z.of_nat (nat_of_ascii c) - 48.

(** [c] is in the character class [[lo-hi]]. *)
Definition in_class (lo hi c : ascii) : bool :=
  (Z.of_nat (nat_of_ascii lo) <=? Z.of_nat (nat_of_ascii c))
  && (Z.of_nat (nat_of_ascii c) <=? Z.of_nat (nat_of_ascii hi)).

(** Zero-padded decimal fields of [strftime]. *)
Definition digits2 (n : Z) : string :=
  String (digit_char (n / 10)) (String (digit_char (n mod 10)) "").

Definition digits4 (n : Z) : string :=
  String (digit_char (n / 1000))
    (String (digit_char (n / 100 mod 10)) (digits2 (n mod 100))).

Definition digits6 (n : Z) : string :=
  digits2 (n / 10000) +:+ digits4 (n mod 10000).

Definition TypeError (msg : string) : Exn :=
  {| exc_info := "(<class 'TypeError'>, TypeError('" +:+ msg +:+ "'), <traceback object>)";
     exc_str := msg |}.

Definition ValueError (msg : string) : Exn :=
  {| exc_info := "(<class 'ValueError'>, ValueError('" +:+ msg +:+ "'), <traceback object>)";
     exc_str := msg |}.

Definition OverflowError (msg : string) : Exn :=
  {| exc_info := "(<class 'OverflowError'>, OverflowError('" +:+ msg +:+ "'), <traceback object>)";
     exc_str := msg |}.

Definition IndexError (msg : string) : Exn :=
  {| exc_info := "(<class 'IndexError'>, IndexError('" +:+ msg +:+ "'), <traceback object>)";
     exc_str := msg |}.

(** The exception of [d[key]] for a key that [d] does not hold. *)
Definition KeyError (key : string) : Exn :=
  {| exc_info := "(<class 'KeyError'>, KeyError('" +:+ key +:+ "'), <traceback object>)";
     exc_str := "'" +:+ key +:+ "'" |}.

(* ------------------------------------------------------------------- *)
(** ** [datetime]: the proleptic Gregorian calendar *)

Record date := { year : Z; month : Z; day : Z }.

Record datetime_t := {
  dt_date : date;
  hour : Z; minute : Z; second : Z; microsecond : Z }.

Definition MINYEAR : Z := 1.
Definition MAXYEAR : Z := 9999.
Definition MAXORDINAL : Z := 3652059.

Definition is_leap (y : Z) : bool :=
  (y mod 4 =? 0) && (negb (y mod 100 =? 0) || (y mod 400 =? 0)).

Definition days_before_year (y : Z) : Z :=
  let y' := y - 1 in y' * 365 + y' / 4 - y' / 100 + y' / 400.

Definition DAYS_IN_MONTH : list Z :=
  [-1; 31; 28; 31; 30; 31; 30; 31; 31; 30; 31; 30; 31].

Definition DAYS_BEFORE_MONTH : list Z :=
  [-1; 0; 31; 59; 90; 120; 151; 181; 212; 243; 273; 304; 334].

Definition days_in_month (y m : Z) : Z :=
  if (m =? 2) && is_leap y then 29 else nth (Z.to_nat m) DAYS_IN_MONTH 0.

Definition days_before_month (y m : Z) : Z :=
  nth (Z.to_nat m) DAYS_BEFORE_MONTH 0
  + (if (m >? 2) && is_leap y then 1 else 0).

(** The check made by the [date] constructor. *)
Definition valid_date (d : date) : bool :=
  (MINYEAR <=? year d) && (year d <=? MAXYEAR)
  && (1 <=? month d) && (month d <=? 12)
  && (1 <=? day d) && (day d <=? days_in_month (year d) (month d)).

Definition ymd2ord (d : date) : Z :=
  days_before_year (year d) + days_before_month (year d) (month d) + day d.

Definition DI400Y : Z := 146097.
Definition DI100Y : Z := 36524.
Definition DI4Y : Z := 1461.

Definition ord2ymd (ordinal : Z) : date :=
  let n := ordinal - 1 in
  let n400 := n / DI400Y in
  let n := n mod DI400Y in
  let y := n400 * 400 + 1 in
  let n100 := n / DI100Y in
  let n := n mod DI100Y in
  let n4 := n / DI4Y in
  let n := n mod DI4Y in
  let n1 := n / 365 in
  let n := n mod 365 in
  let y := y + n100 * 100 + n4 * 4 + n1 in
  if (n1 =? 4) || (n100 =? 4) then
    {| year := y - 1; month := 12; day := 31 |}
  else
    let leapyear := (n1 =? 3) && (negb (n4 =? 24) || (n100 =? 3)) in
    let m := Z.shiftr (n + 50) 5 in
    let preceding :=
      nth (Z.to_nat m) DAYS_BEFORE_MONTH 0
      + (if (m >? 2) && leapyear then 1 else 0) in
    if preceding >? n then
      let m' := m - 1 in
      let preceding' :=
        preceding
        - (nth (Z.to_nat m') DAYS_IN_MONTH 0
           + (if (m' =? 2) && leapyear then 1 else 0)) in
      {| year := y; month := m'; day := n - preceding' + 1 |}
    else
      {| year := y; month := m; day := n - preceding + 1 |}.

(** What [timedelta(days=...)] is given: the handler passes either the
    string of a tag value or the integer default. *)
Inductive days_arg :=
| DaysStr (s : string)
| DaysInt (n : Z).

(** [str(v)] as an f-string renders it. *)
Definition str_days (v : days_arg) : string :=
  match v with DaysStr s => s | DaysInt n => str_int n end.

(** [datetime.timedelta(days=v)]: the day count, or the exception. *)
Definition timedelta (v : days_arg) : Result Z :=
  match v with
  | DaysStr _ => Raise (TypeError "unsupported type for timedelta days component: str")
  | DaysInt n =>
      if (-999999999 <=? n) && (n <=? 999999999) then Ok n
      else Raise (OverflowError
                    ("days=" +:+ str_int n +:+ "; must have magnitude <= 999999999"))
  end.

(** [d + timedelta(days=n)] *)
Definition date_add (d : date) (n : Z) : Result date :=
  let o := ymd2ord d + n in
  if (0 <? o) && (o <=? MAXORDINAL) then Ok (ord2ymd o)
  else Raise (OverflowError "date value out of range").

(** [d.strftime('%m-%d-%Y')].  [%m] and [%d] are two digits; [%Y] is
    the year as the C library of the platform writes it, which on Linux
    is the plain decimal number: a year below 1000 is not padded to four
    digits. *)
Definition strftime_mdY (d : date) : string :=
  digits2 (month d) +:+ "-" +:+ digits2 (day d) +:+ "-" +:+ str_int (year d).

(** [dt.strftime('%Y-%m-%d-%H-%M-%S.%f')], the year as above. *)
Definition strftime_stamp (t : datetime_t) : string :=
  str_int (year (dt_date t)) +:+ "-" +:+ digits2 (month (dt_date t)) +:+ "-"
  +:+ digits2 (day (dt_date t)) +:+ "-" +:+ digits2 (hour t) +:+ "-"
  +:+ digits2 (minute t) +:+ "-" +:+ digits2 (second t) +:+ "."
  +:+ digits6 (microsecond t).

(** Calendar order on dates. *)
Definition date_ltb (a b : date) : bool :=
  (year a <? year b)
  || ((year a =? year b)
      && ((month a <? month b)
          || ((month a =? month b) && (day a <? day b)))).

(* ------------------------------------------------------------------- *)
(** ** [time.struct_time] and [time.strptime(s, '%m-%d-%Y')] *)

Record struct_time := {
  tm_year : Z; tm_mon : Z; tm_mday : Z;
  tm_hour : Z; tm_min : Z; tm_sec : Z;
  tm_wday : Z; tm_yday : Z; tm_isdst : Z }.

Definition struct_time_tuple (t : struct_time) : list Z :=
  [tm_year t; tm_mon t; tm_mday t; tm_hour t; tm_min t; tm_sec t;
   tm_wday t; tm_yday t; tm_isdst t].

(** [a < b] on tuples of integers. *)
Fixpoint tuple_ltb (a b : list Z) : bool :=
  match a, b with
  | x :: a', y :: b' => if x =? y then tuple_ltb a' b' else x <? y
  | [], _ :: _ => true
  | _, [] => false
  end.

(** [a < b] on [struct_time] values, which compare as tuples. *)
Definition struct_time_ltb (a b : struct_time) : bool :=
  tuple_ltb (struct_time_tuple a) (struct_time_tuple b).

(** What [strptime] returns for the calendar date [d]: no time of day,
    weekday with Monday as 0, day of the year, unknown DST. *)
Definition struct_time_of_date (d : date) : struct_time :=
  {| tm_year := year d; tm_mon := month d; tm_mday := day d;
     tm_hour := 0; tm_min := 0; tm_sec := 0;
     tm_wday := (ymd2ord d + 6) mod 7;
     tm_yday := ymd2ord d - ymd2ord {| year := year d; month := 1; day := 1 |} + 1;
     tm_isdst := -1 |}.

Definition date_of_struct_time (t : struct_time) : date :=
  {| year := tm_year t; month := tm_mon t; day := tm_mday t |}.

(** The regular expression [strptime] compiles the format to is
    [(?P<m>1[0-2]|0[1-9]|[1-9])-(?P<d>3[0-1]|[1-2]\d|0[1-9]|[1-9]| [1-9])-(?P<Y>\d\d\d\d)],
    matched at the start of the string.  Each piece takes the rest of
    the pattern as a continuation, so that a later failure backtracks
    into the next alternative, in the order of the alternation. *)
Definition first_match {R} (alts : list (option R)) : option R :=
  fold_right (fun a r => match a with Some x => Some x | None => r end) None alts.

Definition is_char (a c : ascii) : bool := Ascii.eqb a c.

Definition re1 {R} (p : ascii -> bool) (s : string)
    (k : string -> string -> option R) : option R :=
  match s with
  | String c r => if p c then k (String c "") r else None
  | _ => None
  end.

Definition re2 {R} (p1 p2 : ascii -> bool) (s : string)
    (k : string -> string -> option R) : option R :=
  match s with
  | String c1 (String c2 r) =>
      if p1 c1 && p2 c2 then k (String c1 (String c2 "")) r else None
  | _ => None
  end.

Definition re_lit {R} (a : ascii) (s : string) (k : string -> option R) : option R :=
  match s with
  | String c r => if is_char a c then k r else None
  | _ => None
  end.

Definition re_m {R} (s : string) (k : string -> string -> option R) : option R :=
  first_match
    [ re2 (is_char "1") (in_class "0" "2") s k;
      re2 (is_char "0") (in_class "1" "9") s k;
      re1 (in_class "1" "9") s k ].

Definition re_d {R} (s : string) (k : string -> string -> option R) : option R :=
  first_match
    [ re2 (is_char "3") (in_class "0" "1") s k;
      re2 (in_class "1" "2") is_digit s k;
      re2 (is_char "0") (in_class "1" "9") s k;
      re1 (in_class "1" "9") s k;
      re2 (is_char " ") (in_class "1" "9") s k ].

Definition re_Y {R} (s : string) (k : string -> string -> option R) : option R :=
  match s with
  | String c1 (String c2 (String c3 (String c4 r))) =>
      if is_digit c1 && is_digit c2 && is_digit c3 && is_digit c4
      then k (String c1 (String c2 (String c3 (String c4 "")))) r
      else None
  | _ => None
  end.

Definition re_mdY (s : string) : option (string * string * string * string) :=
  re_m s (fun m s1 =>
  re_lit "-" s1 (fun s2 =>
  re_d s2 (fun d s3 =>
  re_lit "-" s3 (fun s4 =>
  re_Y s4 (fun y s5 => Some (m, d, y, s5)))))).

(** [int(g)] for a matched group: decimal digits, after an optional
    blank that [int] strips. *)
Fixpoint int_group_acc (acc : Z) (g : string) : Z :=
  match g with
  | String c r =>
      if is_digit c then int_group_acc (acc * 10 + digit_val c) r
      else int_group_acc acc r
  | _ => acc
  end.

Definition int_group (g : string) : Z := int_group_acc 0 g.

Definition strptime_mdY (data_string : string) : Result struct_time :=
  match re_mdY data_string with
  | None =>
      Raise (ValueError ("time data '" +:+ data_string
                         +:+ "' does not match format '%m-%d-%Y'"))
  | Some (m, d, y, rest) =>
      if negb (String.eqb rest "") then
        Raise (ValueError ("unconverted data remains: " +:+ rest))
      else
        let dt := {| year := int_group y; month := int_group m; day := int_group d |} in
        if valid_date dt then Ok (struct_time_of_date dt)
        else if year dt =? 0 then Raise (ValueError "year 0 is out of range")
        else Raise (ValueError "day is out of range for month")
  end.

End Py.

(* ===================================================================== *)
(** * The EC2 data the handler reads *)
(* ===================================================================== *)

(** An entry of a resource's [Tags] list. *)
Record Tag := { Key : string; Value : string }.

(** An element of [Reservations[...]['Instances']]; [StateName] is
    [instance['State']['Name']]. *)
Record Instance := {
  InstanceId : string;
  StateName : string;
  Tags : list Tag }.

Record Reservation := { Instances : list Instance }.

(** The value of [i['Ebs']]: a dictionary that holds a [SnapshotId] once
    the snapshot of the volume exists. *)
Record EbsBlockDevice := { SnapshotId : option string }.

(** An element of [BlockDeviceMappings]: the key [Ebs] is present for an
    EBS volume, absent for an instance-store volume. *)
Record BlockDeviceMapping := { Ebs : option EbsBlockDevice }.

(** An element of [describe_images(...)['Images']]. *)
Record Image := {
  ImageId : string;
  ImageTags : list Tag;
  BlockDeviceMappings : list BlockDeviceMapping }.

(** The module-level settings.  [handler.py] initialises them to the
    values of [default_config] and overwrites them from the environment
    variables [LIMIT_TO_REGIONS], [DEFAULT_RETENTION_TIME] (through
    [int]), [KEY_TO_TAG_ON] and [DRY_RUN]. *)
Record Config := {
  aws_regions : list string;
  default_retention_time : Z;
  global_key_to_tag_on : string;
  dry_run : bool }.

Definition tags_to_find : list string := ["backup"; "Backup"].

Definition default_config : Config :=
  {| aws_regions :=
       ["us-east-1"; "us-east-2"; "us-west-1"; "us-west-2";
        "ap-east-1"; "ap-northeast-1"; "ap-northeast-2"; "ap-northeast-3";
        "ap-south-1"; "ap-southeast-1"; "ap-southeast-2"; "ca-central-1";
        "eu-central-1"; "eu-west-1"; "eu-west-2"; "eu-west-3"];
     default_retention_time := 7;
     global_key_to_tag_on := "AWSAutomatedDailySnapshots";
     dry_run := false |}.

(* ===================================================================== *)
(** * Effects *)
(* ===================================================================== *)

(** A call on a boto3 EC2 client, with the arguments the handler passes. *)
Inductive ApiCall :=
| DescribeInstances (tag_keys : list string)
| CreateImage (instance_id name description : string) (no_reboot dry : bool)
| CreateTags (resources : list string) (tags : list Tag)
| DescribeImages (tag_keys owners : list string)
| DeregisterImage (image_id : string)
| DeleteSnapshot (snapshot_id : string).

(** The calls that change the account. *)
Definition mutating (c : ApiCall) : bool :=
  match c with
  | DescribeInstances _ | DescribeImages _ _ => false
  | CreateImage _ _ _ _ _ | CreateTags _ _ | DeregisterImage _ | DeleteSnapshot _ => true
  end.

(** What a run leaves behind, in order: API calls (the region of the
    client, the call, the exception if it failed), lines printed to the
    standard output, tracebacks printed by [traceback.print_exception]. *)
Inductive Effect :=
| Api (region : string) (call : ApiCall) (failure : option Exn)
| Print (line : string)
| PrintException (e : Exn).

Definition api_call (ev : Effect) : option ApiCall :=
  match ev with Api _ c _ => Some c | _ => None end.

(** The API calls of a trace, in order. *)
Definition api_calls (t : list Effect) : list ApiCall := omap api_call t.

(** The lines of a trace, in order. *)
Definition printed (t : list Effect) : list string :=
  omap (fun ev => match ev with Print s => Some s | _ => None end) t.

(** The EC2 service and the clock, over a state [W] of the world outside
    the process.  The first argument of a call is the region of the
    client ([boto3.client('ec2', region_name=...)]). *)
Record Cloud (W : Type) := {
  describe_instances : string -> list string -> W -> Result (list Reservation) * W;
  create_image : string -> string -> string -> string -> W -> Result string * W;
  create_tags : string -> list string -> list Tag -> W -> Result unit * W;
  describe_images : string -> list string -> list string -> W -> Result (list Image) * W;
  deregister_image : string -> string -> W -> Result unit * W;
  delete_snapshot : string -> string -> W -> Result unit * W;
  now : W -> Py.datetime_t }.
Arguments describe_instances {W}.
Arguments create_image {W}.
Arguments create_tags {W}.
Arguments describe_images {W}.
Arguments deregister_image {W}.
Arguments delete_snapshot {W}.
Arguments now {W}.

(** A computation: from a world to a result or an exception, the world
    after, and the effects in between. *)
Definition M (W A : Type) : Type := W -> Result A * W * list Effect.

Definition ret {W A} (a : A) : M W A := fun w => (Ok a, w, []).

Definition bind {W A B} (m : M W A) (f : A -> M W B) : M W B :=
  fun w =>
    match m w with
    | (Ok a, w1, t1) => let '(r, w2, t2) := f a w1 in (r, w2, t1 ++ t2)
    | (Raise e, w1, t1) => (Raise e, w1, t1)
    end.

#[global] Instance M_ret {W} : MRet (M W) := @ret W.
#[global] Instance M_bind {W} : MBind (M W) := fun A B f m => bind m f.

(** [raise] *)
Definition raise {W A} (e : Exn) : M W A := fun w => (Raise e, w, []).

(** [try: m  except: h] *)
Definition try_except {W A} (m : M W A) (h : Exn -> M W A) : M W A :=
  fun w =>
    match m w with
    | (Ok a, w1, t1) => (Ok a, w1, t1)
    | (Raise e, w1, t1) => let '(r, w2, t2) := h e w1 in (r, w2, t1 ++ t2)
    end.

(** A value computed by library code that may raise. *)
Definition lift {W A} (r : Result A) : M W A := fun w => (r, w, []).

Definition print {W} (line : string) : M W unit := fun w => (Ok tt, w, [Print line]).

(** [traceback.print_exception] applied to the exception just caught. *)
Definition print_exception {W} (e : Exn) : M W unit :=
  fun w => (Ok tt, w, [PrintException e]).

Definition failure_of {A} (r : Result A) : option Exn :=
  match r with Ok _ => None | Raise e => Some e end.

(** One API call: the service answers and moves on, the call is recorded. *)
Definition call_api {W A} (region : string) (c : ApiCall)
    (f : W -> Result A * W) : M W A :=
  fun w => let '(r, w1) := f w in (r, w1, [Api region c (failure_of r)]).

(** [for x in xs: body] *)
Fixpoint for_each {W A} (xs : list A) (body : A -> M W unit) : M W unit :=
  match xs with
  | [] => ret tt
  | x :: xs' => bind (body x) (fun _ => for_each xs' body)
  end.

(** A loop that builds a list by [append]. *)
Fixpoint for_append {W A B} (xs : list A) (acc : list B)
    (body : A -> M W B) : M W (list B) :=
  match xs with
  | [] => ret acc
  | x :: xs' => bind (body x) (fun b => for_append xs' (acc ++ [b]) body)
  end.

(* ===================================================================== *)
(** * The handler *)
(* ===================================================================== *)

(** [dict_tags], filled by [dict_tags[tag['Key']] = tag.get('Value')] over
    the tags in order: a later entry of a key replaces an earlier one. *)
Definition dict_tags (tags : list Tag) : gmap string string :=
  foldl (fun d tag => <[Key tag := Value tag]> d) ∅ tags.

(** [dict_tags.get('Name') if dict_tags.get('Name') else instance['InstanceId']] *)
Definition instance_name (instance : Instance) : string :=
  match dict_tags (Tags instance) !! "Name" with
  | Some name => if Py.truthy name then name else InstanceId instance
  | None => InstanceId instance
  end.

(** The [Name] and [Description] passed to [create_image]; [t] is
    [datetime.datetime.now()]. *)
Definition image_name (instance : Instance) (t : Py.datetime_t) : string :=
  instance_name instance +:+ "-backup-" +:+ Py.strftime_stamp t.

Definition image_description (instance : Instance) : string :=
  "Automatic Backup of " +:+ instance_name instance +:+ " from " +:+ InstanceId instance.

(** The three tags appended to [instance['Tags']]. *)
Definition appended_tags (key_to_tag_on : string) (instance : Instance)
    (delete_fmt : string) : list Tag :=
  [ {| Key := "DeleteAfter"; Value := delete_fmt |};
    {| Key := "OriginalInstanceID"; Value := InstanceId instance |};
    {| Key := key_to_tag_on; Value := "true" |} ].

(** [[i['Ebs']['SnapshotId'] for i in mappings if 'Ebs' in i]]: the list
    is built before the loop over it starts, and an [Ebs] entry without
    [SnapshotId] raises [KeyError] while it is built. *)
Fixpoint snapshot_ids (mappings : list BlockDeviceMapping) : Result (list string) :=
  match mappings with
  | [] => Ok []
  | i :: others =>
      match Ebs i with
      | None => snapshot_ids others
      | Some ebs =>
          match SnapshotId ebs with
          | None => Raise (Py.KeyError "SnapshotId")
          | Some snapshot =>
              match snapshot_ids others with
              | Ok ids => Ok (snapshot :: ids)
              | Raise e => Raise e
              end
          end
      end
  end.

Definition snapshots (ami : Image) : Result (list string) :=
  snapshot_ids (BlockDeviceMappings ami).

(** [[t.get('Value') for t in ami['Tags'] if t['Key'] == 'DeleteAfter']] *)
Definition delete_after_values (ami : Image) : list string :=
  map Value (filter (fun t => Key t = "DeleteAfter") (ImageTags ami)).

Section Handler.

Context {W : Type} (cloud : Cloud W) (cfg : Config).

(** [datetime.datetime.now()] *)
Definition datetime_now : M W Py.datetime_t := fun w => (Ok (now cloud w), w, []).

(** [datetime.date.today()] *)
Definition date_today : M W Py.date := fun w => (Ok (Py.dt_date (now cloud w)), w, []).

(** [dict_tags.get('Retention') if dict_tags.get('Retention') else default_retention_time] *)
Definition retention_days (instance : Instance) : Py.days_arg :=
  match dict_tags (Tags instance) !! "Retention" with
  | Some r => if Py.truthy r then Py.DaysStr r else Py.DaysInt (default_retention_time cfg)
  | None => Py.DaysInt (default_retention_time cfg)
  end.

(** The loop over [instance['Tags']] that fills [finaltags]. *)
Definition finaltags (tags : list Tag) : M W (list Tag) :=
  for_append tags [] (fun item =>
    if Py.startswith (Key item) "aws:" then
      print ("Modifying internal aws tag so it doesn't fail: " +:+ Key item);;
      mret {| Key := "internal-" +:+ Key item; Value := Value item |}
    else mret item).

(** The body of [for instance in instances:]. *)
Definition backup_instance (ec2 : string) (instance : Instance) : M W unit :=
  print "Instance: {instance['InstanceId']}";;
  print ("Instance name: " +:+ instance_name instance);;
  print ("Retention period: " +:+ Py.str_days (retention_days instance) +:+ " days");;
  if dry_run cfg then
    print "DRY_RUN";;
    print ("InstanceId : " +:+ InstanceId instance);;
    t ← datetime_now;
    print ("Name       : " +:+ image_name instance t)
  else
    try_except
      (t ← datetime_now;
       image ← call_api ec2
                 (CreateImage (InstanceId instance) (image_name instance t)
                    (image_description instance) true false)
                 (create_image cloud ec2 (InstanceId instance) (image_name instance t)
                    (image_description instance));
       print ("AMI: " +:+ image);;
       today ← date_today;
       days ← lift (Py.timedelta (retention_days instance));
       expiry ← lift (Py.date_add today days);
       let delete_fmt := Py.strftime_mdY expiry in
       tags ← finaltags (Tags instance
                         ++ appended_tags (global_key_to_tag_on cfg) instance delete_fmt);
       call_api ec2 (CreateTags [image] tags) (create_tags cloud ec2 [image] tags))
      (fun e =>
         print "Failure trying to create image or tag image.  See/report exception below";;
         print_exception e).

(** The instances kept from the reservations: all but the terminated. *)
Definition instances_of (reservations : list Reservation) : list Instance :=
  flat_map
    (fun reservation =>
       filter (fun instance => StateName instance ≠ "terminated") (Instances reservation))
    reservations.

Definition backup_tagged_instances_in_region (ec2 : string) : M W unit :=
  print ("Scanning for instances with tags (" +:+ Py.join "," tags_to_find +:+ ")");;
  found ← try_except
    (reservations ← call_api ec2 (DescribeInstances tags_to_find)
                      (describe_instances cloud ec2 tags_to_find);
     mret (Some reservations))
    (fun e =>
       if Py.contains "OptInRequired" (exc_info e) then
         print "Region not activated for this account, skipping...";; mret None
       else raise e);
  match found with
  | None => mret tt
  | Some reservations =>
      let instances := instances_of reservations in
      if (Z.of_nat (length instances) =? 0) then mret tt
      else
        print ("Found " +:+ Py.str_int (Z.of_nat (length instances))
               +:+ " instances to backup...");;
        for_each instances (backup_instance ec2)
  end.

(** The body of [for ami in amis_to_consider:]. *)
Definition consider_ami (ec2 : string) (today_date : Py.struct_time)
    (ami : Image) : M W unit :=
  print ("  Found AMI to consider: " +:+ ImageId ami);;
  found ← try_except
    (match delete_after_values ami with
     | v :: _ => mret (Some v)
     | [] => raise (Py.IndexError "list index out of range")
     end)
    (fun _ =>
       print "Unable to find when to delete this image after, skipping...";; mret None);
  match found with
  | None => mret tt
  | Some delete_after =>
      print ("Delete After: " +:+ delete_after);;
      delete_date ← lift (Py.strptime_mdY delete_after);
      if Py.struct_time_ltb today_date delete_date then
        print "This item is too new, skipping..."
      else if dry_run cfg then
        print ("DRY_RUN, would have deleted ami : " +:+ ImageId ami);;
        ids ← lift (snapshots ami);
        for_each ids (fun snapshot =>
          print ("DRY_RUN, would have deleted volume snapshot " +:+ snapshot))
      else
        print ("DELETING AMI : " +:+ ImageId ami);;
        try_except
          (call_api ec2 (DeregisterImage (ImageId ami))
             (deregister_image cloud ec2 (ImageId ami)))
          (fun e => print ("Unable to delete AMI: " +:+ exc_str e));;
        ids ← lift (snapshots ami);
        for_each ids (fun snapshot =>
          print ("DELETING AMI " +:+ ImageId ami +:+ " SNAPSHOT : " +:+ snapshot);;
          try_except
            (call_api ec2 (DeleteSnapshot snapshot) (delete_snapshot cloud ec2 snapshot))
            (fun e => print ("Unable to delete snapshot: " +:+ exc_str e)))
  end.

Definition delete_expired_amis (ec2 : string) : M W unit :=
  found ← try_except
    (print ("Scanning for AMIs with tags (" +:+ global_key_to_tag_on cfg +:+ ")");;
     images ← call_api ec2 (DescribeImages [global_key_to_tag_on cfg] ["self"])
                (describe_images cloud ec2 [global_key_to_tag_on cfg] ["self"]);
     mret (Some images))
    (fun e =>
       if Py.contains "OptInRequired" (exc_info e) then
         print "  Region not activated for this account, skipping...";; mret None
       else raise e);
  match found with
  | None => mret tt
  | Some amis_to_consider =>
      t ← datetime_now;
      today_date ← lift (Py.strptime_mdY (Py.strftime_mdY (Py.dt_date t)));
      if (Z.of_nat (length amis_to_consider) =? 0) then mret tt
      else
        print ("Found " +:+ Py.str_int (Z.of_nat (length amis_to_consider))
               +:+ " amis to consider...");;
        for_each amis_to_consider (consider_ami ec2 today_date)
  end.

Definition lambda_handler : M W unit :=
  for_each (aws_regions cfg) (fun aws_region =>
    let ec2 := aws_region in
    print ("Scanning region: " +:+ aws_region);;
    backup_tagged_instances_in_region ec2;;
    delete_expired_amis ec2).

End Handler.

(* ===================================================================== *)
(** * Reading a run *)
(* ===================================================================== *)

Definition result {W A} (x : Result A * W * list Effect) : Result A := x.1.1.
Definition world_after {W A} (x : Result A * W * list Effect) : W := x.1.2.
Definition trace {W A} (x : Result A * W * list Effect) : list Effect := x.2.

(** Every effect of every run of [m] satisfies [P]. *)
Definition always {W A} (P : Effect -> Prop) (m : M W A) : Prop :=
  forall w, Forall P (trace (m w)).

(** A failed API call ends the computation with its exception. *)
Definition fails_fast {W A} (m : M W A) : Prop :=
  forall w region c e,
    In (Api region c (Some e)) (trace (m w)) -> result (m w) = Raise e.

(** How the handler reports the failure of a mutating call. *)
Definition report (c : ApiCall) (e : Exn) : Effect :=
  match c with
  | DeregisterImage _ => Print ("Unable to delete AMI: " +:+ exc_str e)
  | DeleteSnapshot _ => Print ("Unable to delete snapshot: " +:+ exc_str e)
  | _ => PrintException e
  end.

(** Every failed mutating call of the trace is reported in the trace. *)
Definition reported (t : list Effect) : Prop :=
  forall region c e,
    mutating c = true -> In (Api region c (Some e)) t -> In (report c e) t.

(** No effect of the trace is a mutating call. *)
Definition read_only (ev : Effect) : Prop :=
  match ev with
  | Api _ c _ => mutating c = false
  | _ => True
  end.

(** The calls of the two passes. *)
Definition backup_call (c : ApiCall) : bool :=
  match c with
  | DescribeInstances _ | CreateImage _ _ _ _ _ | CreateTags _ _ => true
  | _ => false
  end.

Definition reaper_call (c : ApiCall) : bool :=
  match c with
  | DescribeImages _ _ | DeregisterImage _ | DeleteSnapshot _ => true
  | _ => false
  end.

(** An effect of the pass [phase] on the client of [region]. *)
Definition of_pass (phase : ApiCall -> bool) (region : string) (ev : Effect) : Prop :=
  match ev with
  | Api r c _ => r = region /\ phase c = true
  | _ => True
  end.

(** What is left of [s] after the prefix [p], when [s] starts with [p]. *)
Fixpoint after_prefix (p s : string) : option string :=
  match p with
  | EmptyString => Some s
  | String a p' =>
      match s with
      | String b s' => if Ascii.eqb a b then after_prefix p' s' else None
      | EmptyString => None
      end
  end.

(** The names in the lines "Instance name: ..." of a trace: each
    iteration of the backup loop prints one such line. *)
Definition instance_names_printed (t : list Effect) : list string :=
  omap (fun ev => match ev with
                  | Print line => after_prefix "Instance name: " line
                  | _ => None
                  end) t.

(** The run of the handler over [regions] from the world [w], told by the
    runs of the two passes.  Over no region it returns at once.  Otherwise
    it prints the line announcing the first region and runs its backup
    pass from [w], which ends the run if it raises; then its reaper pass
    from the world the backup pass left, which ends the run if it raises;
    then the other regions from the world the reaper pass left. *)
Inductive region_by_region {W} (cloud : Cloud W) (cfg : Config)
  : list string -> W -> Result unit * W * list Effect -> Prop :=
| rr_done w : region_by_region cloud cfg [] w (Ok tt, w, [])
| rr_backup_raises region regions w e :
    let backup := backup_tagged_instances_in_region cloud cfg region w in
    result backup = Raise e ->
    region_by_region cloud cfg (region :: regions) w
      (Raise e, world_after backup,
       Print ("Scanning region: " +:+ region) :: trace backup)
| rr_reaper_raises region regions w e :
    let backup := backup_tagged_instances_in_region cloud cfg region w in
    let reaper := delete_expired_amis cloud cfg region (world_after backup) in
    result backup = Ok tt ->
    result reaper = Raise e ->
    region_by_region cloud cfg (region :: regions) w
      (Raise e, world_after reaper,
       Print ("Scanning region: " +:+ region) :: trace backup ++ trace reaper)
| rr_next region regions w others :
    let backup := backup_tagged_instances_in_region cloud cfg region w in
    let reaper := delete_expired_amis cloud cfg region (world_after backup) in
    result backup = Ok tt ->
    result reaper = Ok tt ->
    region_by_region cloud cfg regions (world_after reaper) others ->
    region_by_region cloud cfg (region :: regions) w
      (result others, world_after others,
       Print ("Scanning region: " +:+ region)
       :: trace backup ++ trace reaper ++ trace others).

(** The renaming applied to each entry while [finaltags] is filled. *)
Definition sanitize_tag (item : Tag) : Tag :=
  if Py.startswith (Key item) "aws:"
  then {| Key := "internal-" +:+ Key item; Value := Value item |}
  else item.

(** The lines printed while [finaltags] is filled. *)
Definition finaltags_trace (tags : list Tag) : list Effect :=
  flat_map (fun item =>
              if Py.startswith (Key item) "aws:"
              then [Print ("Modifying internal aws tag so it doesn't fail: " +:+ Key item)]
              else []) tags.

(** The instance ids of the [create_image] calls of a trace. *)
Definition created_from (t : list Effect) : list string :=
  omap (fun ev => match ev with
                  | Api _ (CreateImage i _ _ _ _) _ => Some i
                  | _ => None
                  end) t.

(** The expiry date an image carries, when its first [DeleteAfter] value
    decodes. *)
Definition expiry_of (ami : Image) : option Py.date :=
  match delete_after_values ami with
  | v :: _ =>
      match Py.strptime_mdY v with
      | Ok st => Some (Py.date_of_struct_time st)
      | Raise _ => None
      end
  | [] => None
  end.

(** The snapshots of an image, none when the list cannot be built. *)
Definition snapshots_found (ami : Image) : list string :=
  match snapshots ami with Ok ids => ids | Raise _ => [] end.

(** The reaper's rule in the words of the specification: nothing for an
    image without expiry date or whose expiry date is after [today],
    otherwise the image and then each of its snapshots. *)
Definition reap_calls (today : Py.date) (ami : Image) : list ApiCall :=
  match expiry_of ami with
  | Some expiry =>
      if Py.date_ltb today expiry then []
      else DeregisterImage (ImageId ami) :: map DeleteSnapshot (snapshots_found ami)
  | None => []
  end.

(** An image the reaper can decide on: no [DeleteAfter] tag, or a first
    [DeleteAfter] value that decodes. *)
Definition decidable_expiry (ami : Image) : Prop :=
  delete_after_values ami = [] \/ is_Some (expiry_of ami).

(** An image whose own data raises nothing in the reaper: its expiry can
    be decided on, and every [Ebs] entry of its block device mappings
    holds a [SnapshotId]. *)
Definition readable (ami : Image) : Prop :=
  decidable_expiry ami /\ is_ok (snapshots ami) = true.

(** A clock whose date the reaper can read back: [strptime] takes the
    year only as four digits, so the date that [strftime] wrote is
    refused before the year 1000. *)
Definition clock_readable (t : Py.datetime_t) : bool :=
  Py.valid_date (Py.dt_date t) && (1000 <=? Py.year (Py.dt_date t)).

(* ===================================================================== *)
(** * The runs of the loop bodies *)
(* ===================================================================== *)

Section Outcomes.

Context {W : Type} (cloud : Cloud W) (cfg : Config).

(** The lines that open an iteration of the backup loop. *)
Definition backup_header (instance : Instance) : list Effect :=
  [ Print "Instance: {instance['InstanceId']}";
    Print ("Instance name: " +:+ instance_name instance);
    Print ("Retention period: " +:+ Py.str_days (retention_days cfg instance)
           +:+ " days") ].

(** What the [except:] clause of the backup loop prints. *)
Definition backup_failure (e : Exn) : list Effect :=
  [ Print "Failure trying to create image or tag image.  See/report exception below";
    PrintException e ].

Definition create_image_call (instance : Instance) (w : W) : ApiCall :=
  CreateImage (InstanceId instance) (image_name instance (now cloud w))
    (image_description instance) true false.

(** The tags passed to [create_tags] for an expiry date. *)
Definition image_tags (instance : Instance) (expiry : Py.date) : list Tag :=
  map sanitize_tag
    (Tags instance
     ++ appended_tags (global_key_to_tag_on cfg) instance (Py.strftime_mdY expiry)).

(** The five ways an iteration of the backup loop runs when [dry_run]
    is off, from the world [w]: [create_image] fails; the retention is
    refused by [timedelta]; the expiry date overflows; the image is
    created and tagged; [create_tags] fails. *)
Inductive live_backup (ec2 : string) (instance : Instance) (w : W)
  : Result unit * W * list Effect -> Prop :=
| lb_create_failed e w1 :
    create_image cloud ec2 (InstanceId instance) (image_name instance (now cloud w))
      (image_description instance) w = (Raise e, w1) ->
    live_backup ec2 instance w
      (Ok tt, w1,
       backup_header instance
       ++ Api ec2 (create_image_call instance w) (Some e) :: backup_failure e)
| lb_retention_refused image w1 e :
    create_image cloud ec2 (InstanceId instance) (image_name instance (now cloud w))
      (image_description instance) w = (Ok image, w1) ->
    Py.timedelta (retention_days cfg instance) = Raise e ->
    live_backup ec2 instance w
      (Ok tt, w1,
       backup_header instance
       ++ Api ec2 (create_image_call instance w) None
          :: Print ("AMI: " +:+ image) :: backup_failure e)
| lb_date_overflow image w1 days e :
    create_image cloud ec2 (InstanceId instance) (image_name instance (now cloud w))
      (image_description instance) w = (Ok image, w1) ->
    Py.timedelta (retention_days cfg instance) = Ok days ->
    Py.date_add (Py.dt_date (now cloud w1)) days = Raise e ->
    live_backup ec2 instance w
      (Ok tt, w1,
       backup_header instance
       ++ Api ec2 (create_image_call instance w) None
          :: Print ("AMI: " +:+ image) :: backup_failure e)
| lb_tagged image w1 days expiry w2 :
    create_image cloud ec2 (InstanceId instance) (image_name instance (now cloud w))
      (image_description instance) w = (Ok image, w1) ->
    Py.timedelta (retention_days cfg instance) = Ok days ->
    Py.date_add (Py.dt_date (now cloud w1)) days = Ok expiry ->
    create_tags cloud ec2 [image] (image_tags instance expiry) w1 = (Ok tt, w2) ->
    live_backup ec2 instance w
      (Ok tt, w2,
       backup_header instance
       ++ Api ec2 (create_image_call instance w) None
          :: Print ("AMI: " +:+ image)
          :: finaltags_trace
               (Tags instance
                ++ appended_tags (global_key_to_tag_on cfg) instance
                     (Py.strftime_mdY expiry))
          ++ [Api ec2 (CreateTags [image] (image_tags instance expiry)) None])
| lb_tagging_failed image w1 days expiry e w2 :
    create_image cloud ec2 (InstanceId instance) (image_name instance (now cloud w))
      (image_description instance) w = (Ok image, w1) ->
    Py.timedelta (retention_days cfg instance) = Ok days ->
    Py.date_add (Py.dt_date (now cloud w1)) days = Ok expiry ->
    create_tags cloud ec2 [image] (image_tags instance expiry) w1 = (Raise e, w2) ->
    live_backup ec2 instance w
      (Ok tt, w2,
       backup_header instance
       ++ Api ec2 (create_image_call instance w) None
          :: Print ("AMI: " +:+ image)
          :: finaltags_trace
               (Tags instance
                ++ appended_tags (global_key_to_tag_on cfg) instance
                     (Py.strftime_mdY expiry))
          ++ Api ec2 (CreateTags [image] (image_tags instance expiry)) (Some e)
             :: backup_failure e).

End Outcomes.

(* ===================================================================== *)
(** * A small account to run the handler on *)
(* ===================================================================== *)

(** An in-memory EC2 account: instances and images per region, a counter
    for fresh image ids, a clock, and the calls that are made to fail.
    [create_image] registers an untagged image backed by one snapshot,
    [create_tags] sets tags on it, [describe_images] lists the images of
    the region that carry one of the tag keys, [deregister_image] removes
    an image. *)
Module Account.

Record t := {
  clock : Py.datetime_t;
  reservations : list (string * Reservation);
  images : list (string * Image);
  counter : Z;
  faults : string -> ApiCall -> option Exn }.

Definition has_tag_key (keys : list string) (tags : list Tag) : bool :=
  existsb (fun tag => existsb (String.eqb (Key tag)) keys) tags.

Definition in_region {A} (region : string) (l : list (string * A)) : list A :=
  map snd (filter (fun x => x.1 = region) l).

Definition guarded {A} (a : t) (region : string) (c : ApiCall)
    (answer : Result A * t) : Result A * t :=
  match faults a region c with
  | Some e => (Raise e, a)
  | None => answer
  end.

Definition describe_instances (region : string) (keys : list string) (a : t)
    : Result (list Reservation) * t :=
  guarded a region (DescribeInstances keys)
    (Ok (map (fun rv =>
                {| Instances :=
                     filter (fun i => has_tag_key keys (Tags i) = true) (Instances rv) |})
             (in_region region (reservations a))), a).

Definition create_image (region instance_id name description : string) (a : t)
    : Result string * t :=
  guarded a region (CreateImage instance_id name description true false)
    (let n := Py.str_int (counter a) in
     let image :=
       {| ImageId := "ami-" +:+ n; ImageTags := [];
          BlockDeviceMappings :=
            [ {| Ebs := Some {| SnapshotId := Some ("snap-" +:+ n) |} |} ] |} in
     (Ok (ImageId image),
      {| clock := clock a; reservations := reservations a;
         images := images a ++ [(region, image)];
         counter := counter a + 1; faults := faults a |})).

Definition set_tags (tags : list Tag) (image : Image) : Image :=
  {| ImageId := ImageId image;
     ImageTags :=
       filter (fun old => negb (existsb (fun new => String.eqb (Key new) (Key old)) tags)
                          = true)
              (ImageTags image) ++ tags;
     BlockDeviceMappings := BlockDeviceMappings image |}.

Definition create_tags (region : string) (resources : list string)
    (tags : list Tag) (a : t) : Result unit * t :=
  guarded a region (CreateTags resources tags)
    (Ok tt,
     {| clock := clock a; reservations := reservations a;
        images :=
          map (fun x =>
                 if String.eqb x.1 region && existsb (String.eqb (ImageId x.2)) resources
                 then (x.1, set_tags tags x.2) else x)
              (images a);
        counter := counter a; faults := faults a |}).

Definition describe_images (region : string) (keys owners : list string) (a : t)
    : Result (list Image) * t :=
  guarded a region (DescribeImages keys owners)
    (Ok (filter (fun image => has_tag_key keys (ImageTags image) = true)
           (in_region region (images a))), a).

Definition deregister_image (region image_id : string) (a : t) : Result unit * t :=
  guarded a region (DeregisterImage image_id)
    (Ok tt,
     {| clock := clock a; reservations := reservations a;
        images :=
          filter (fun x => negb (String.eqb x.1 region && String.eqb (ImageId x.2) image_id)
                           = true)
                 (images a);
        counter := counter a; faults := faults a |}).

Definition delete_snapshot (region snapshot_id : string) (a : t) : Result unit * t :=
  guarded a region (DeleteSnapshot snapshot_id) (Ok tt, a).

Definition cloud : Cloud t :=
  Build_Cloud t describe_instances create_image create_tags
    describe_images deregister_image delete_snapshot clock.

Definition no_faults : string -> ApiCall -> option Exn := fun _ _ => None.

(** Midnight, 1 January 2024. *)
Definition new_year_2024 : Py.datetime_t :=
  {| Py.dt_date := {| Py.year := 2024; Py.month := 1; Py.day := 1 |};
     Py.hour := 0; Py.minute := 0; Py.second := 0; Py.microsecond := 0 |}.

(** The error of a region that is not enabled for the account. *)
Definition opt_in_required : Exn :=
  {| exc_info := "(<class 'botocore.exceptions.ClientError'>, ClientError('An error occurred (OptInRequired) when calling the operation: You are not subscribed to this service.'), <traceback object>)";
     exc_str := "An error occurred (OptInRequired) when calling the operation: You are not subscribed to this service." |}.

Definition request_limit_exceeded : Exn :=
  {| exc_info := "(<class 'botocore.exceptions.ClientError'>, ClientError('An error occurred (RequestLimitExceeded) when calling the operation: Request limit exceeded.'), <traceback object>)";
     exc_str := "An error occurred (RequestLimitExceeded) when calling the operation: Request limit exceeded." |}.

(** The instance of the scenario of the specification. *)
Definition web1 : Instance :=
  {| InstanceId := "i-abc"; StateName := "running";
     Tags := [ {| Key := "backup"; Value := "" |};
               {| Key := "Name"; Value := "web1" |};
               {| Key := "Retention"; Value := "3" |} ] |}.

(** An instance with a marker tag only. *)
Definition plain : Instance :=
  {| InstanceId := "i-def"; StateName := "running";
     Tags := [ {| Key := "Backup"; Value := "yes" |} ] |}.

(** An instance launched by an autoscaling group, with empty [Name] and
    [Retention] tags and an earlier [DeleteAfter] tag. *)
Definition scaled : Instance :=
  {| InstanceId := "i-123"; StateName := "running";
     Tags := [ {| Key := "backup"; Value := "" |};
               {| Key := "aws:autoscaling:groupName"; Value := "web-asg" |};
               {| Key := "Name"; Value := "" |};
               {| Key := "Retention"; Value := "" |};
               {| Key := "DeleteAfter"; Value := "12-31-2023" |} ] |}.

Definition account (instances : list Instance) (amis : list Image) : t :=
  {| clock := new_year_2024;
     reservations := [("us-east-1", {| Instances := instances |})];
     images := map (pair "us-east-1") amis;
     counter := 0;
     faults := no_faults |}.

Definition one_region (retention : Z) (dry : bool) : Config :=
  {| aws_regions := ["us-east-1"];
     default_retention_time := retention;
     global_key_to_tag_on := "AWSAutomatedDailySnapshots";
     dry_run := dry |}.

Definition managed (image_id : string) (tags : list Tag) (snaps : list string) : Image :=
  {| ImageId := image_id;
     ImageTags := {| Key := "AWSAutomatedDailySnapshots"; Value := "true" |} :: tags;
     BlockDeviceMappings :=
       map (fun s => {| Ebs := Some {| SnapshotId := Some s |} |}) snaps |}.

(** An image that is still being created: the snapshot of its volume has
    no id yet. *)
Definition pending (image_id : string) (tags : list Tag) : Image :=
  {| ImageId := image_id;
     ImageTags := {| Key := "AWSAutomatedDailySnapshots"; Value := "true" |} :: tags;
     BlockDeviceMappings :=
       [ {| Ebs := Some {| SnapshotId := Some "snap-1" |} |};
         {| Ebs := Some {| SnapshotId := None |} |} ] |}.

End Account.

(* ===================================================================== *)
(** * The calendar, piecewise *)
(* ===================================================================== *)

(** The ends of [Py.ord2ymd] and [Py.ymd2ord] that depend only on
    whether the year is a leap year: the month and day of the [n]-th day
    of a year (counted from 0), the days of a month, the days before it. *)
Module Cal.

Definition month_day (leap : bool) (n : Z) : Z * Z :=
  let m := Z.shiftr (n + 50) 5 in
  let preceding :=
    nth (Z.to_nat m) Py.DAYS_BEFORE_MONTH 0 + (if (m >? 2) && leap then 1 else 0) in
  if preceding >? n then
    let m' := m - 1 in
    let preceding' :=
      preceding
      - (nth (Z.to_nat m') Py.DAYS_IN_MONTH 0 + (if (m' =? 2) && leap then 1 else 0)) in
    (m', n - preceding' + 1)
  else (m, n - preceding + 1).

Definition days_in (leap : bool) (m : Z) : Z :=
  if (m =? 2) && leap then 29 else nth (Z.to_nat m) Py.DAYS_IN_MONTH 0.

Definition days_before (leap : bool) (m : Z) : Z :=
  nth (Z.to_nat m) Py.DAYS_BEFORE_MONTH 0 + (if (m >? 2) && leap then 1 else 0).

(** The check of [month_day] on the [n]-th day of a year. *)
Definition month_day_ok (leap : bool) (n : nat) : bool :=
  let '(m, d) := month_day leap (Z.of_nat n) in
  (1 <=? m) && (m <=? 12) && (1 <=? d) && (d <=? days_in leap m)
  && (days_before leap m + d =? Z.of_nat n + 1).

(** The check that the days before a month and the days of the month
    lead to the next month, and to the end of the year. *)
Definition month_step_ok (leap : bool) (m : nat) : bool :=
  let m := Z.of_nat m + 1 in
  (1 <=? days_in leap m)
  && (if m =? 12 then days_before leap m + days_in leap m =? 365 + (if leap then 1 else 0)
      else days_before leap m + days_in leap m =? days_before leap (m + 1)).

End Cal.

(** A time stamp [datetime.datetime.now()] can return, from the year
    1000 on (where [strftime] writes the year with four digits): a valid
    date and a time of day to the microsecond. *)
Definition timestamp_in_range (t : Py.datetime_t) : Prop :=
  Py.valid_date (Py.dt_date t) = true
  /\ 1000 <= Py.year (Py.dt_date t)
  /\ 0 <= Py.hour t <= 23 /\ 0 <= Py.minute t <= 59 /\ 0 <= Py.second t <= 59
  /\ 0 <= Py.microsecond t <= 999999.

(** The settings with another list of regions. *)
Definition with_regions (cfg : Config) (regions : list string) : Config :=
  {| aws_regions := regions;
     default_retention_time := default_retention_time cfg;
     global_key_to_tag_on := global_key_to_tag_on cfg;
     dry_run := dry_run cfg |}.

(* ===================================================================== *)
(** * The settings, from the environment *)
(* ===================================================================== *)

(** The statements of [handler.py] that run when the module is loaded:
    each setting keeps its built-in value unless its environment variable
    is present and not empty. *)
Module Settings.

(** [s.split(sep)] for a separator of one character. *)
Fixpoint split (sep : ascii) (s : string) : list string :=
  match s with
  | String c r =>
      if Ascii.eqb c sep then "" :: split sep r
      else match split sep r with
           | first :: others => String c first :: others
           | [] => [String c ""]
           end
  | _ => [""]
  end.

(** [os.environ]. *)
Abbreviation environ_t := (gmap string string).

(** The value of a variable when ['NAME' in os.environ and
    len(os.getenv('NAME'))] holds. *)
Definition given (environ : environ_t) (name : string) : option string :=
  match environ !! name with
  | Some value => if Z.of_nat (String.length value) =? 0 then None else Some value
  | None => None
  end.

Section Load.

(** [int] applied to a string: the number, or the [ValueError]. *)
Variable int : string -> Result Z.

(** The settings after the module is loaded, or the exception that
    stopped the loading. *)
Definition load (environ : environ_t) : Result Config :=
  let regions :=
    match given environ "LIMIT_TO_REGIONS" with
    | Some value => split "," value
    | None => aws_regions default_config
    end in
  match
    match given environ "DEFAULT_RETENTION_TIME" with
    | Some value => int value
    | None => Ok (default_retention_time default_config)
    end
  with
  | Raise e => Raise e
  | Ok retention =>
      Ok {| aws_regions := regions;
            default_retention_time := retention;
            global_key_to_tag_on :=
              match given environ "KEY_TO_TAG_ON" with
              | Some value => value
              | None => global_key_to_tag_on default_config
              end;
            dry_run :=
              match environ !! "DRY_RUN" with
              | Some value => String.eqb value "true" || String.eqb value "True"
              | None => false
              end |}
  end.

End Load.

(** An [int] for the examples: it refuses every string. *)
Definition int_refusing (s : string) : Result Z :=
  Raise (Py.ValueError ("invalid literal for int() with base 10: '" +:+ s +:+ "'")).

End Settings.

(* ===================================================================== *)
(** * Runs of the monad *)
(* ===================================================================== *)

Section Runs.

Context {W : Type}.

Lemma run_bind {A B} (m : M W A) (f : A -> M W B) w :
  (m ≫= f) w =
  match m w with
  | (Ok a, w1, t1) => let '(r, w2, t2) := f a w1 in (r, w2, t1 ++ t2)
  | (Raise e, w1, t1) => (Raise e, w1, t1)
  end.
Proof. reflexivity. Qed.

Lemma run_bind_ok {A B} (m : M W A) (f : A -> M W B) w a w1 t1 :
  m w = (Ok a, w1, t1) ->
  (m ≫= f) w = (result (f a w1), world_after (f a w1), t1 ++ trace (f a w1)).
Proof.
  intros H. rewrite run_bind, H. destruct (f a w1) as [[r w2] t2]. reflexivity.
Qed.

Lemma run_bind_raise {A B} (m : M W A) (f : A -> M W B) w e w1 t1 :
  m w = (Raise e, w1, t1) -> (m ≫= f) w = (Raise e, w1, t1).
Proof. intros H. rewrite run_bind, H. reflexivity. Qed.

Lemma result_of_run {A} (r : Result A) (w : W) t : result (r, w, t) = r.
Proof. reflexivity. Qed.

Lemma trace_of_run {A} (r : Result A) (w : W) t : trace (r, w, t) = t.
Proof. reflexivity. Qed.

Lemma run_eta {A} (x : Result A * W * list Effect) :
  x = (result x, world_after x, trace x).
Proof. destruct x as [[r w] t]. reflexivity. Qed.

(** ** Properties that hold of every effect *)

Variable P : Effect -> Prop.

Lemma always_ret {A} (a : A) : always P (mret a : M W A).
Proof. intros w. constructor. Qed.

Lemma always_raise {A} e : always P (raise e : M W A).
Proof. intros w. constructor. Qed.

Lemma always_lift {A} (r : Result A) : always P (lift r : M W A).
Proof. intros w. constructor. Qed.

Lemma always_print line : P (Print line) -> always P (print line : M W unit).
Proof. intros H w. repeat constructor. exact H. Qed.

Lemma always_print_exception e :
  P (PrintException e) -> always P (print_exception e : M W unit).
Proof. intros H w. repeat constructor. exact H. Qed.

Lemma always_call_api {A} region c (f : W -> Result A * W) :
  (forall failure, P (Api region c failure)) -> always P (call_api region c f).
Proof.
  intros H w. unfold call_api. destruct (f w) as [r w1]. repeat constructor. apply H.
Qed.

Lemma always_bind {A B} (m : M W A) (f : A -> M W B) :
  always P m -> (forall a, always P (f a)) -> always P (m ≫= f).
Proof.
  intros Hm Hf w. rewrite run_bind. specialize (Hm w).
  destruct (m w) as [[[a | e] w1] t1]; [| exact Hm].
  specialize (Hf a w1). destruct (f a w1) as [[r w2] t2].
  apply Forall_app. split; assumption.
Qed.

Lemma always_try_except {A} (m : M W A) (h : Exn -> M W A) :
  always P m -> (forall e, always P (h e)) -> always P (try_except m h).
Proof.
  intros Hm Hh w. unfold try_except. specialize (Hm w).
  destruct (m w) as [[[a | e] w1] t1]; [exact Hm |].
  specialize (Hh e w1). destruct (h e w1) as [[r w2] t2].
  apply Forall_app. split; assumption.
Qed.

Lemma always_for_each {A} (xs : list A) (body : A -> M W unit) :
  (forall x, In x xs -> always P (body x)) -> always P (for_each xs body).
Proof.
  induction xs as [| x xs IH]; intros H.
  - apply (always_ret tt).
  - apply (always_bind (body x) (fun _ => for_each xs body)).
    + apply H. left. reflexivity.
    + intros _. apply IH. intros y Hy. apply H. right. exact Hy.
Qed.

Lemma always_for_append {A B} (xs : list A) (acc : list B) (body : A -> M W B) :
  (forall x, always P (body x)) -> always P (for_append xs acc body).
Proof.
  intros H. revert acc. induction xs as [| x xs IH]; intros acc.
  - apply (always_ret acc).
  - apply (always_bind (body x) (fun b => for_append xs (acc ++ [b]) body)).
    + apply H.
    + intros b. apply IH.
Qed.

End Runs.

(* ===================================================================== *)
(** * The backup pass, one instance *)
(* ===================================================================== *)

Lemma finaltags_trace_prints tags ev :
  In ev (finaltags_trace tags) -> exists line, ev = Print line.
Proof.
  unfold finaltags_trace. rewrite in_flat_map. intros (item & _ & H).
  destruct (Py.startswith (Key item) "aws:"); simpl in H; [| tauto].
  destruct H as [<- | []]. eexists. reflexivity.
Qed.

(** Case analysis on the membership of an effect in a trace. *)
Ltac in_cases H :=
  repeat match type of H with
    | In _ (_ ++ _) => apply in_app_iff in H; destruct H as [H | H]
    | In _ (_ :: _) => destruct H as [H | H]
    | In _ [] => destruct H
    | _ \/ _ => destruct H as [H | H]
    | False => destruct H
    | In _ (backup_header _ _) => unfold backup_header in H
    | In _ (backup_failure _) => unfold backup_failure in H
    | In _ (finaltags_trace _) =>
        let line := fresh "line" in
        apply finaltags_trace_prints in H; destruct H as [line H]; symmetry in H
    | _ = Api _ (create_image_call _ _ _) _ => unfold create_image_call in H
    | Api _ (create_image_call _ _ _) _ = _ => unfold create_image_call in H
    end.

Section BackupInstance.

Context {W : Type} (cloud : Cloud W) (cfg : Config).

Lemma finaltags_run_acc (tags acc : list Tag) (w : W) :
  for_append tags acc (fun item =>
    if Py.startswith (Key item) "aws:" then
      print ("Modifying internal aws tag so it doesn't fail: " +:+ Key item);;
      mret {| Key := "internal-" +:+ Key item; Value := Value item |}
    else mret item) w
  = (Ok (acc ++ map sanitize_tag tags), w, finaltags_trace tags).
Proof.
  revert acc. induction tags as [| item tags IH]; intros acc; simpl.
  - rewrite app_nil_r. reflexivity.
  - unfold bind at 1, sanitize_tag at 1.
    destruct (Py.startswith (Key item) "aws:"); simpl;
      rewrite IH, <- app_assoc; reflexivity.
Qed.

Lemma finaltags_run (tags : list Tag) (w : W) :
  finaltags tags w = (Ok (map sanitize_tag tags), w, finaltags_trace tags).
Proof. unfold finaltags. apply finaltags_run_acc. Qed.

(** With [dry_run] off, an iteration runs in one of the five ways. *)
Lemma backup_instance_live ec2 instance w :
  dry_run cfg = false ->
  live_backup cloud cfg ec2 instance w (backup_instance cloud cfg ec2 instance w).
Proof.
  intros Hdry. unfold backup_instance. rewrite Hdry.
  unfold try_except, mbind, M_bind, bind, print, print_exception, call_api, lift,
    datetime_now, date_today, mret, M_ret, ret.
  destruct (create_image _ _ _ _ _ _) as [[image | e] w1] eqn:Hcreate; simpl.
  2: { apply lb_create_failed. exact Hcreate. }
  destruct (Py.timedelta _) as [days | e] eqn:Hdays; simpl.
  2: { eapply lb_retention_refused; eassumption. }
  destruct (Py.date_add _ _) as [expiry | e] eqn:Hexpiry; simpl.
  2: { eapply lb_date_overflow; eassumption. }
  rewrite finaltags_run.
  destruct (create_tags _ _ _ _ _) as [[[] | e] w2] eqn:Htags; simpl.
  - eapply lb_tagged; eassumption.
  - rewrite <- app_assoc. eapply lb_tagging_failed; eassumption.
Qed.

(** With [dry_run] on, an iteration only prints. *)
Lemma backup_instance_dry ec2 instance w :
  dry_run cfg = true ->
  backup_instance cloud cfg ec2 instance w
  = (Ok tt, w,
     backup_header cfg instance
     ++ [ Print "DRY_RUN";
          Print ("InstanceId : " +:+ InstanceId instance);
          Print ("Name       : " +:+ image_name instance (now cloud w)) ]).
Proof. intros Hdry. unfold backup_instance. rewrite Hdry. reflexivity. Qed.


Lemma omap_finaltags_trace {B} (h : Effect -> option B) tags :
  (forall line, h (Print line) = None) -> omap h (finaltags_trace tags) = [].
Proof.
  intros Hh. unfold finaltags_trace. induction tags as [| item tags IH]; [reflexivity |].
  simpl. rewrite omap_app, IH, app_nil_r.
  destruct (Py.startswith (Key item) "aws:"); simpl; [rewrite Hh |]; reflexivity.
Qed.

(** An iteration never raises. *)
Lemma backup_instance_ok ec2 instance w :
  result (backup_instance cloud cfg ec2 instance w) = Ok tt.
Proof.
  destruct (dry_run cfg) eqn:Hdry.
  - rewrite backup_instance_dry by exact Hdry. reflexivity.
  - destruct (backup_instance_live ec2 instance w Hdry); reflexivity.
Qed.

(** With [dry_run] off, an iteration calls [create_image] once, for its
    instance. *)
Lemma backup_instance_created_from ec2 instance w :
  dry_run cfg = false ->
  created_from (trace (backup_instance cloud cfg ec2 instance w)) = [InstanceId instance].
Proof.
  intros Hdry. unfold created_from.
  destruct (backup_instance_live ec2 instance w Hdry); simpl;
    rewrite ?omap_app, ?omap_finaltags_trace by reflexivity; reflexivity.
Qed.

(** Every failed call of an iteration is reported by the traceback. *)
Lemma backup_instance_reported ec2 instance w :
  reported (trace (backup_instance cloud cfg ec2 instance w)).
Proof.
  intros region c e Hmut Hin.
  destruct (dry_run cfg) eqn:Hdry.
  - rewrite backup_instance_dry in Hin by exact Hdry. simpl in Hin.
    in_cases Hin; discriminate Hin.
  - destruct (backup_instance_live ec2 instance w Hdry); simpl in *;
      in_cases Hin; try discriminate Hin;
      injection Hin as <- <- <-; simpl; rewrite ?in_app_iff; simpl; tauto.
Qed.

(** The tag list of any [create_tags] call of an iteration: the tags of
    the instance followed by the three appended tags, each renamed if
    reserved, for an expiry date that is the day of the call plus the
    retention. *)
Lemma backup_instance_create_tags ec2 instance w region resources tags failure :
  In (Api region (CreateTags resources tags) failure)
     (trace (backup_instance cloud cfg ec2 instance w)) ->
  exists image w1 days expiry,
    create_image cloud ec2 (InstanceId instance) (image_name instance (now cloud w))
      (image_description instance) w = (Ok image, w1)
    /\ Py.timedelta (retention_days cfg instance) = Ok days
    /\ Py.date_add (Py.dt_date (now cloud w1)) days = Ok expiry
    /\ resources = [image]
    /\ tags = image_tags cfg instance expiry.
Proof.
  intros Hin.
  destruct (dry_run cfg) eqn:Hdry.
  - rewrite backup_instance_dry in Hin by exact Hdry. simpl in Hin.
    in_cases Hin; discriminate Hin.
  - destruct (backup_instance_live ec2 instance w Hdry); simpl in *;
      in_cases Hin; try discriminate Hin;
      injection Hin as <- <- <- <-; eauto 10.
Qed.

End BackupInstance.

(* ===================================================================== *)
(** * Loops *)
(* ===================================================================== *)

Section Loops.

Context {W A : Type}.

Lemma reported_app t1 t2 : reported t1 -> reported t2 -> reported (t1 ++ t2).
Proof.
  intros H1 H2 region c e Hmut Hin. rewrite in_app_iff in *.
  destruct Hin as [Hin | Hin]; [left; eapply H1 | right; eapply H2]; eassumption.
Qed.

Lemma reported_prints t : (forall ev, In ev t -> exists line, ev = Print line) -> reported t.
Proof. intros H region c e _ Hin. apply H in Hin. destruct Hin as [line Hin]. discriminate. Qed.

(** A loop whose body never raises runs every iteration. *)
Lemma for_each_ok (xs : list A) (body : A -> M W unit) :
  (forall x w, In x xs -> result (body x w) = Ok tt) ->
  forall w, result (for_each xs body w) = Ok tt.
Proof.
  induction xs as [| x xs IH]; intros Hbody w; [reflexivity |].
  simpl. unfold bind.
  pose proof (Hbody x w (or_introl eq_refl)) as Hx.
  destruct (body x w) as [[r w1] t1]. unfold result in Hx. simpl in Hx. subst r.
  pose proof (IH (fun y w' Hy => Hbody y w' (or_intror Hy)) w1) as Hxs.
  destruct (for_each xs body w1) as [[r w2] t2]. exact Hxs.
Qed.

(** What such a loop leaves in a projection of the trace, when each
    iteration leaves the same whatever the world it starts from. *)
Lemma for_each_omap {B} (h : Effect -> option B) (f : A -> list B)
    (xs : list A) (body : A -> M W unit) :
  (forall x w, In x xs -> result (body x w) = Ok tt) ->
  (forall x w, In x xs -> omap h (trace (body x w)) = f x) ->
  forall w, omap h (trace (for_each xs body w)) = flat_map f xs.
Proof.
  induction xs as [| x xs IH]; intros Hok Hbody w; [reflexivity |].
  simpl. unfold bind.
  pose proof (Hok x w (or_introl eq_refl)) as Hx.
  pose proof (Hbody x w (or_introl eq_refl)) as Hfx.
  destruct (body x w) as [[r w1] t1]. unfold result in Hx. simpl in Hx, Hfx. subst r.
  pose proof (IH (fun y w' Hy => Hok y w' (or_intror Hy))
                (fun y w' Hy => Hbody y w' (or_intror Hy)) w1) as Hxs.
  destruct (for_each xs body w1) as [[r w2] t2]. simpl in *.
  rewrite omap_app, Hfx, Hxs. reflexivity.
Qed.

Lemma for_each_reported (xs : list A) (body : A -> M W unit) :
  (forall x w, In x xs -> reported (trace (body x w))) ->
  forall w, reported (trace (for_each xs body w)).
Proof.
  induction xs as [| x xs IH]; intros Hbody w.
  - intros region c e _ [].
  - simpl. unfold bind.
    pose proof (Hbody x w (or_introl eq_refl)) as Hx.
    destruct (body x w) as [[[[] | e] w1] t1]; [| exact Hx].
    pose proof (IH (fun y w' Hy => Hbody y w' (or_intror Hy)) w1) as Hxs.
    destruct (for_each xs body w1) as [[r w2] t2]. simpl in *.
    apply reported_app; assumption.
Qed.

End Loops.

(* ===================================================================== *)
(** * The backup pass *)
(* ===================================================================== *)

Section BackupPass.

Context {W : Type} (cloud : Cloud W) (cfg : Config).

(** A property of the prints and of the calls of the pass holds of all
    its effects; the mutating calls matter only when [dry_run] is off. *)
Lemma always_backup_instance (P : Effect -> Prop) ec2 instance :
  (forall line, P (Print line)) ->
  (forall e, P (PrintException e)) ->
  (dry_run cfg = false ->
   forall c failure, backup_call c = true -> mutating c = true -> P (Api ec2 c failure)) ->
  always P (backup_instance cloud cfg ec2 instance).
Proof.
  intros Hprint Hexn Hcall w.
  destruct (dry_run cfg) eqn:Hdry.
  - rewrite backup_instance_dry by exact Hdry. simpl. repeat constructor; apply Hprint.
  - specialize (Hcall eq_refl). apply List.Forall_forall. intros ev Hin.
    destruct (backup_instance_live cloud cfg ec2 instance w Hdry); simpl in Hin;
      in_cases Hin; subst ev; auto.
Qed.

Lemma always_backup_pass (P : Effect -> Prop) ec2 :
  (forall line, P (Print line)) ->
  (forall e, P (PrintException e)) ->
  (forall failure, P (Api ec2 (DescribeInstances tags_to_find) failure)) ->
  (dry_run cfg = false ->
   forall c failure, backup_call c = true -> mutating c = true -> P (Api ec2 c failure)) ->
  always P (backup_tagged_instances_in_region cloud cfg ec2).
Proof.
  intros Hprint Hexn Hdescribe Hcall. unfold backup_tagged_instances_in_region.
  apply always_bind; [apply always_print, Hprint | intros _].
  apply always_bind.
  - apply always_try_except.
    + apply always_bind; [apply always_call_api, Hdescribe | intros rs; apply always_ret].
    + intros e. destruct (Py.contains _ _); [| apply always_raise].
      apply always_bind; [apply always_print, Hprint | intros _; apply always_ret].
  - intros [rs |]; [| apply always_ret].
    destruct (_ =? _); [apply always_ret |].
    apply always_bind; [apply always_print, Hprint | intros _].
    apply always_for_each. intros i _. apply always_backup_instance; assumption.
Qed.

(** The pass when the listing succeeds. *)
Lemma backup_pass_listed ec2 w rs w1 :
  describe_instances cloud ec2 tags_to_find w = (Ok rs, w1) ->
  backup_tagged_instances_in_region cloud cfg ec2 w
  = let t0 := [ Print ("Scanning for instances with tags ("
                       +:+ Py.join "," tags_to_find +:+ ")");
                Api ec2 (DescribeInstances tags_to_find) None ] in
    if Z.of_nat (length (instances_of rs)) =? 0 then (Ok tt, w1, t0)
    else
      let run := for_each (instances_of rs) (backup_instance cloud cfg ec2) w1 in
      (result run, world_after run,
       t0 ++ Print ("Found " +:+ Py.str_int (Z.of_nat (length (instances_of rs)))
                    +:+ " instances to backup...") :: trace run).
Proof.
  intros Hlist. unfold backup_tagged_instances_in_region.
  unfold try_except, mbind, M_bind, bind, print, call_api, mret, M_ret, ret.
  rewrite Hlist. simpl.
  destruct (_ =? _); [reflexivity |].
  destruct (for_each _ _ _) as [[r w2] t2]. reflexivity.
Qed.

(** The pass when the listing fails. *)
Lemma backup_pass_unlisted ec2 w e w1 :
  describe_instances cloud ec2 tags_to_find w = (Raise e, w1) ->
  backup_tagged_instances_in_region cloud cfg ec2 w
  = let t0 := [ Print ("Scanning for instances with tags ("
                       +:+ Py.join "," tags_to_find +:+ ")");
                Api ec2 (DescribeInstances tags_to_find) (Some e) ] in
    if Py.contains "OptInRequired" (exc_info e)
    then (Ok tt, w1, t0 ++ [Print "Region not activated for this account, skipping..."])
    else (Raise e, w1, t0).
Proof.
  intros Hlist. unfold backup_tagged_instances_in_region.
  unfold try_except, mbind, M_bind, bind, print, call_api, raise, mret, M_ret, ret.
  rewrite Hlist. simpl.
  destruct (Py.contains _ _); reflexivity.
Qed.

End BackupPass.

(* ===================================================================== *)
(** * Dates: formatting, parsing, comparing *)
(* ===================================================================== *)

Module PyFacts.
Import Py.

(** [struct_time] values made from dates compare as the dates do. *)
Lemma struct_time_ltb_dates (a b : date) :
  struct_time_ltb (struct_time_of_date a) (struct_time_of_date b) = date_ltb a b.
Proof.
  destruct a as [ya ma da], b as [yb mb db].
  unfold struct_time_ltb, struct_time_tuple, struct_time_of_date, date_ltb.
  cbn [year month day tm_year tm_mon tm_mday tm_hour tm_min tm_sec tm_wday tm_yday
       tm_isdst tuple_ltb].
  destruct (Z.eqb_spec ya yb) as [-> | Hy];
    [rewrite (Z.ltb_irrefl yb) | cbn [andb]; now rewrite orb_false_r].
  destruct (Z.eqb_spec ma mb) as [-> | Hm];
    [rewrite (Z.ltb_irrefl mb) | cbn [andb orb]; now rewrite orb_false_r].
  destruct (Z.eqb_spec da db) as [-> | Hd]; [| reflexivity].
  rewrite (Z.ltb_irrefl db), !Z.eqb_refl. reflexivity.
Qed.

(** What [strptime] returns is made from a valid date. *)
Lemma strptime_mdY_inv s st :
  strptime_mdY s = Ok st ->
  valid_date (date_of_struct_time st) = true
  /\ st = struct_time_of_date (date_of_struct_time st).
Proof.
  unfold strptime_mdY.
  destruct (re_mdY s) as [[[[m d] y] rest] |]; [| discriminate].
  destruct (negb _); [discriminate |].
  destruct (valid_date _) eqn:Hvalid; [| destruct (_ =? _); discriminate].
  intros [= <-]. split; [exact Hvalid | reflexivity].
Qed.

(** Case analysis on a number between two bounds, by counting up. *)
Ltac count_up n :=
  let k := fresh "k" in
  let Hk := fresh "Hk" in
  remember (Z.to_nat n) as k eqn:Hk;
  replace n with (Z.of_nat k) in * by lia;
  clear Hk.

Lemma is_digit_digit_char q : 0 <= q <= 9 -> is_digit (digit_char q) = true.
Proof.
  intros H. count_up q.
  do 10 (destruct k as [| k]; [reflexivity |]). exfalso. lia.
Qed.

Lemma digit_val_digit_char q : 0 <= q <= 9 -> digit_val (digit_char q) = q.
Proof.
  intros H. count_up q.
  do 10 (destruct k as [| k]; [reflexivity |]). exfalso. lia.
Qed.

Lemma int_group_acc_digit acc q rest :
  0 <= q <= 9 ->
  int_group_acc acc (String (digit_char q) rest) = int_group_acc (acc * 10 + q) rest.
Proof.
  intros H. cbn [int_group_acc].
  rewrite is_digit_digit_char, digit_val_digit_char by exact H. reflexivity.
Qed.

(** The digits of a number below 10000. *)
Lemma digits_bounds n :
  0 <= n <= 9999 ->
  0 <= n / 1000 <= 9 /\ 0 <= n / 100 mod 10 <= 9
  /\ 0 <= n mod 100 / 10 <= 9 /\ 0 <= (n mod 100) mod 10 <= 9
  /\ ((n / 1000 * 10 + n / 100 mod 10) * 10 + n mod 100 / 10) * 10 + (n mod 100) mod 10 = n.
Proof.
  intros H.
  pose proof (Z.div_mod n 1000). pose proof (Z.mod_pos_bound n 1000).
  pose proof (Z.div_mod n 100). pose proof (Z.mod_pos_bound n 100).
  pose proof (Z.div_mod (n / 100) 10). pose proof (Z.mod_pos_bound (n / 100) 10).
  pose proof (Z.div_mod (n mod 100) 10). pose proof (Z.mod_pos_bound (n mod 100) 10).
  pose proof (Z.div_div n 100 10).
  replace (100 * 10) with 1000 in * by reflexivity.
  lia.
Qed.

Lemma int_group_digits2 n : 0 <= n <= 99 -> int_group (digits2 n) = n.
Proof.
  intros H. unfold int_group, digits2.
  pose proof (Z.div_mod n 10). pose proof (Z.mod_pos_bound n 10).
  rewrite !int_group_acc_digit by lia. cbn [int_group_acc]. lia.
Qed.

Lemma int_group_digits4 n : 0 <= n <= 9999 -> int_group (digits4 n) = n.
Proof.
  intros H. unfold int_group, digits4, digits2.
  destruct (digits_bounds n H) as (H1 & H2 & H3 & H4 & Hn).
  rewrite !int_group_acc_digit by assumption. cbn [int_group_acc].
  rewrite <- Hn at 5. reflexivity.
Qed.

(** The month group matches the two digits [strftime] writes. *)
Lemma re_m_digits2 {R} m rest (k : string -> string -> option R) r :
  1 <= m <= 12 ->
  k (digits2 m) rest = Some r ->
  re_m (digits2 m +:+ rest) k = Some r.
Proof.
  intros Hm Hk. count_up m.
  do 13 (destruct k0 as [| k0];
         [first [exfalso; lia | cbv in Hk |- *; rewrite Hk; reflexivity] |]).
  exfalso. lia.
Qed.

(** The day group matches the two digits [strftime] writes. *)
Lemma re_d_digits2 {R} d rest (k : string -> string -> option R) r :
  1 <= d <= 31 ->
  k (digits2 d) rest = Some r ->
  re_d (digits2 d +:+ rest) k = Some r.
Proof.
  intros Hd Hk. count_up d.
  do 32 (destruct k0 as [| k0];
         [first [exfalso; lia | cbv in Hk |- *; rewrite Hk; reflexivity] |]).
  exfalso. lia.
Qed.

Lemma append_cons c s t : String c s +:+ t = String c (s +:+ t).
Proof. reflexivity. Qed.

Lemma append_empty t : "" +:+ t = t.
Proof. reflexivity. Qed.

(** The year group takes four digits. *)
Lemma re_Y_digits4 {R} y rest (k : string -> string -> option R) :
  0 <= y <= 9999 ->
  re_Y (digits4 y +:+ rest) k = k (digits4 y) rest.
Proof.
  intros Hy. unfold re_Y, digits4, digits2. rewrite !append_cons, append_empty.
  destruct (digits_bounds y Hy) as (H1 & H2 & H3 & H4 & _).
  rewrite !is_digit_digit_char by assumption. reflexivity.
Qed.

Lemma re_lit_match {R} a rest (k : string -> option R) :
  re_lit a (String a rest) k = k rest.
Proof. unfold re_lit, is_char. rewrite Ascii.eqb_refl. reflexivity. Qed.

Lemma days_in_month_bound y m : days_in_month y m <= 31.
Proof.
  unfold days_in_month. destruct (_ && _); [lia |].
  destruct (Z.to_nat m) as [| n]; [cbn; lia |].
  do 12 (destruct n as [| n]; [cbn; lia |]).
  cbn. destruct n; lia.
Qed.

Lemma valid_date_bounds d :
  valid_date d = true ->
  1 <= year d <= 9999 /\ 1 <= month d <= 12
  /\ 1 <= day d <= days_in_month (year d) (month d).
Proof. unfold valid_date, MINYEAR, MAXYEAR. rewrite !andb_true_iff, !Z.leb_le. tauto. Qed.

(** From 1000 on the year that [strftime] writes has four digits. *)
Lemma str_int_digits4 y : 1000 <= y <= 9999 -> str_int y = digits4 y.
Proof.
  intros Hy.
  assert (Hall : forallb (fun k => String.eqb (str_int (Z.of_nat k + 1000))
                                     (digits4 (Z.of_nat k + 1000)))
                   (seq 0 (Z.to_nat 9000)) = true) by (vm_compute; reflexivity).
  rewrite List.forallb_forall in Hall.
  specialize (Hall (Z.to_nat (y - 1000))).
  replace (Z.of_nat (Z.to_nat (y - 1000)) + 1000) with y in Hall by lia.
  apply String.eqb_eq. apply Hall. apply List.in_seq. lia.
Qed.

(** Parsing what [strftime] wrote gives the date back, from the year 1000
    on. *)
Lemma strptime_strftime_mdY d :
  valid_date d = true ->
  1000 <= year d ->
  strptime_mdY (strftime_mdY d) = Ok (struct_time_of_date d).
Proof.
  intros Hvalid Hlate. pose proof (valid_date_bounds d Hvalid) as (Hy & Hm & Hd).
  pose proof (days_in_month_bound (year d) (month d)) as Hdim.
  assert (Hmatch : re_mdY (strftime_mdY d)
                   = Some (digits2 (month d), digits2 (day d), digits4 (year d), "")).
  { unfold re_mdY, strftime_mdY. rewrite str_int_digits4 by lia.
    apply re_m_digits2; [exact Hm |].
    rewrite append_cons, append_empty, re_lit_match.
    apply re_d_digits2; [lia |].
    rewrite append_cons, append_empty, re_lit_match.
    replace (digits4 (year d)) with (digits4 (year d) +:+ "") at 1
      by (unfold digits4, digits2; reflexivity).
    rewrite re_Y_digits4 by lia. reflexivity. }
  unfold strptime_mdY. rewrite Hmatch.
  change (negb (String.eqb "" "")) with false. cbv iota.
  rewrite !int_group_digits2, int_group_digits4 by lia.
  destruct d as [y m dd]. cbn [year month day] in *. rewrite Hvalid. reflexivity.
Qed.

(** On what [strftime] wrote, the month and the day match as written,
    and what follows the second dash is left to the year. *)
Lemma re_mdY_strftime m d ys :
  1 <= m <= 12 ->
  1 <= d <= 31 ->
  re_mdY (digits2 m +:+ "-" +:+ digits2 d +:+ "-" +:+ ys)
  = re_Y ys (fun y s5 => Some (digits2 m, digits2 d, y, s5)).
Proof.
  intros Hm Hd. count_up m. rename k into km. count_up d.
  do 13 (destruct km as [| km];
         [first
            [ exfalso; lia
            | do 32 (destruct k as [| k];
                     [first [ exfalso; lia
                            | cbv -[re_Y]; destruct (re_Y ys _) as [x |]; reflexivity ] |]);
              exfalso; lia ] |]).
  exfalso. lia.
Qed.

(** A year of fewer than four characters is refused. *)
Lemma re_Y_short {R} ys (k : string -> string -> option R) :
  (String.length ys < 4)%nat -> re_Y ys k = None.
Proof.
  intros Hlen. unfold re_Y.
  destruct ys as [| c1 [| c2 [| c3 [| c4 r]]]]; try reflexivity.
  cbn [String.length] in Hlen. lia.
Qed.

(** Before the year 1000, [strftime] writes fewer than four digits. *)
Lemma str_int_short y : 1 <= y < 1000 -> (String.length (str_int y) < 4)%nat.
Proof.
  intros Hy.
  assert (Hall : forallb (fun k => (String.length (str_int (Z.of_nat k + 1)) <? 4)%nat)
                   (seq 0 (Z.to_nat 999)) = true) by (vm_compute; reflexivity).
  rewrite List.forallb_forall in Hall.
  specialize (Hall (Z.to_nat (y - 1))).
  replace (Z.of_nat (Z.to_nat (y - 1)) + 1) with y in Hall by lia.
  apply Nat.ltb_lt. apply Hall. apply List.in_seq. lia.
Qed.

(** What [strftime] wrote for a date before the year 1000 is refused by
    [strptime]. *)
Lemma strptime_strftime_mdY_short d :
  valid_date d = true ->
  year d < 1000 ->
  strptime_mdY (strftime_mdY d)
  = Raise (ValueError ("time data '" +:+ strftime_mdY d
                       +:+ "' does not match format '%m-%d-%Y'")).
Proof.
  intros Hvalid Hearly. pose proof (valid_date_bounds d Hvalid) as (Hy & Hm & Hd).
  pose proof (days_in_month_bound (year d) (month d)) as Hdim.
  unfold strptime_mdY.
  replace (re_mdY (strftime_mdY d)) with (@None (string * string * string * string));
    [reflexivity |].
  unfold strftime_mdY. rewrite re_mdY_strftime by lia.
  symmetry. apply re_Y_short. apply str_int_short. lia.
Qed.

End PyFacts.

(* ===================================================================== *)
(** * The reaper pass *)
(* ===================================================================== *)

Section ReaperPass.

Context {W : Type} (cloud : Cloud W) (cfg : Config).

Lemma for_each_print {A} (xs : list A) (f : A -> string) (w : W) :
  for_each xs (fun x => print (f x)) w = (Ok tt, w, map (fun x => Print (f x)) xs).
Proof.
  induction xs as [| x xs IH]; [reflexivity |].
  simpl. unfold bind. simpl. rewrite IH. reflexivity.
Qed.

(** Deleting one snapshot: the call, and a line if it failed. *)
Lemma delete_one_snapshot ec2 image_id snapshot w :
  (print ("DELETING AMI " +:+ image_id +:+ " SNAPSHOT : " +:+ snapshot);;
   try_except
     (call_api ec2 (DeleteSnapshot snapshot) (delete_snapshot cloud ec2 snapshot))
     (fun e => print ("Unable to delete snapshot: " +:+ exc_str e))) w
  = let answer := delete_snapshot cloud ec2 snapshot w in
    (Ok tt, answer.2,
     Print ("DELETING AMI " +:+ image_id +:+ " SNAPSHOT : " +:+ snapshot)
     :: Api ec2 (DeleteSnapshot snapshot) (failure_of answer.1)
     :: match answer.1 with
        | Ok _ => []
        | Raise e => [Print ("Unable to delete snapshot: " +:+ exc_str e)]
        end).
Proof.
  unfold try_except, mbind, M_bind, bind, print, call_api.
  destruct (delete_snapshot cloud ec2 snapshot w) as [[[] | e] w1]; reflexivity.
Qed.

(** An image without [DeleteAfter] tag is passed over. *)
Lemma consider_ami_no_tag ec2 today_date ami w :
  delete_after_values ami = [] ->
  consider_ami cloud cfg ec2 today_date ami w
  = (Ok tt, w,
     [ Print ("  Found AMI to consider: " +:+ ImageId ami);
       Print "Unable to find when to delete this image after, skipping..." ]).
Proof. intros Hnone. unfold consider_ami. rewrite Hnone. reflexivity. Qed.

(** A [DeleteAfter] value that [strptime] refuses: its exception leaves
    the loop. *)
Lemma consider_ami_undecodable ec2 today_date ami w v rest e :
  delete_after_values ami = v :: rest ->
  Py.strptime_mdY v = Raise e ->
  consider_ami cloud cfg ec2 today_date ami w
  = (Raise e, w,
     [ Print ("  Found AMI to consider: " +:+ ImageId ami);
       Print ("Delete After: " +:+ v) ]).
Proof.
  intros Hv He. unfold consider_ami. rewrite Hv.
  unfold try_except, mbind, M_bind, bind, print, lift, mret, M_ret, ret.
  rewrite He. reflexivity.
Qed.

Lemma consider_ami_too_new ec2 today_date ami w v rest delete_date :
  delete_after_values ami = v :: rest ->
  Py.strptime_mdY v = Ok delete_date ->
  Py.struct_time_ltb today_date delete_date = true ->
  consider_ami cloud cfg ec2 today_date ami w
  = (Ok tt, w,
     [ Print ("  Found AMI to consider: " +:+ ImageId ami);
       Print ("Delete After: " +:+ v);
       Print "This item is too new, skipping..." ]).
Proof.
  intros Hv Hd Hlt. unfold consider_ami. rewrite Hv.
  unfold try_except, mbind, M_bind, bind, print, lift, mret, M_ret, ret.
  rewrite Hd. simpl. rewrite Hlt. reflexivity.
Qed.

Lemma consider_ami_dry ec2 today_date ami w v rest delete_date :
  delete_after_values ami = v :: rest ->
  Py.strptime_mdY v = Ok delete_date ->
  Py.struct_time_ltb today_date delete_date = false ->
  dry_run cfg = true ->
  consider_ami cloud cfg ec2 today_date ami w
  = (match snapshots ami with Ok _ => Ok tt | Raise e => Raise e end, w,
     Print ("  Found AMI to consider: " +:+ ImageId ami)
     :: Print ("Delete After: " +:+ v)
     :: Print ("DRY_RUN, would have deleted ami : " +:+ ImageId ami)
     :: map (fun snapshot =>
               Print ("DRY_RUN, would have deleted volume snapshot " +:+ snapshot))
            (snapshots_found ami)).
Proof.
  intros Hv Hd Hlt Hdry. unfold consider_ami, snapshots_found. rewrite Hv, Hdry.
  unfold try_except, mbind, M_bind, bind, print, lift, mret, M_ret, ret.
  rewrite Hd. simpl. rewrite Hlt.
  destruct (snapshots ami) as [ids | e]; [| reflexivity].
  pose proof (for_each_print ids
                (fun s => "DRY_RUN, would have deleted volume snapshot " +:+ s) w) as Hloop.
  unfold print in Hloop. rewrite Hloop. reflexivity.
Qed.

(** The image is due and [dry_run] is off: the image is deregistered,
    then the list of its snapshots is built, and the loop over it runs,
    wherever the world is then. *)
Lemma consider_ami_live ec2 today_date ami w v rest delete_date :
  delete_after_values ami = v :: rest ->
  Py.strptime_mdY v = Ok delete_date ->
  Py.struct_time_ltb today_date delete_date = false ->
  dry_run cfg = false ->
  consider_ami cloud cfg ec2 today_date ami w
  = let answer := deregister_image cloud ec2 (ImageId ami) w in
    let loop :=
      match snapshots ami with
      | Raise e => (Raise e, answer.2, [])
      | Ok ids =>
          for_each ids (fun snapshot =>
            print ("DELETING AMI " +:+ ImageId ami +:+ " SNAPSHOT : " +:+ snapshot);;
            try_except
              (call_api ec2 (DeleteSnapshot snapshot) (delete_snapshot cloud ec2 snapshot))
              (fun e => print ("Unable to delete snapshot: " +:+ exc_str e)))
            answer.2
      end in
    (result loop, world_after loop,
     Print ("  Found AMI to consider: " +:+ ImageId ami)
     :: Print ("Delete After: " +:+ v)
     :: Print ("DELETING AMI : " +:+ ImageId ami)
     :: Api ec2 (DeregisterImage (ImageId ami)) (failure_of answer.1)
     :: match answer.1 with
        | Ok _ => []
        | Raise e => [Print ("Unable to delete AMI: " +:+ exc_str e)]
        end ++ trace loop).
Proof.
  intros Hv Hd Hlt Hdry. unfold consider_ami. rewrite Hv, Hdry.
  unfold try_except, mbind, M_bind, bind, print, lift, call_api, mret, M_ret, ret.
  rewrite Hd. cbv beta iota. rewrite Hlt.
  destruct (snapshots ami) as [ids | ke].
  - destruct (deregister_image cloud ec2 (ImageId ami) w) as [[[] | e] w1]; cbv beta iota;
      match goal with |- context [for_each ?xs ?body ?w'] =>
        destruct (for_each xs body w') as [[r w2] t2] eqn:Hloop end;
      cbv zeta; unfold try_except, mbind, M_bind, bind, print, call_api;
      cbn [fst snd]; rewrite Hloop; reflexivity.
  - destruct (deregister_image cloud ec2 (ImageId ami) w) as [[[] | e] w1]; reflexivity.
Qed.

End ReaperPass.


(* ===================================================================== *)
(** * The reaper pass, image by image *)
(* ===================================================================== *)

Section ReaperDecisions.

Context {W : Type} (cloud : Cloud W) (cfg : Config).

(** The loop over the snapshots of an image never raises, calls
    [delete_snapshot] for each snapshot in order and reports each failure. *)
Lemma delete_snapshots_loop ec2 image_id (snaps : list string) (w : W) :
  let loop :=
    for_each snaps (fun snapshot =>
      print ("DELETING AMI " +:+ image_id +:+ " SNAPSHOT : " +:+ snapshot);;
      try_except
        (call_api ec2 (DeleteSnapshot snapshot) (delete_snapshot cloud ec2 snapshot))
        (fun e => print ("Unable to delete snapshot: " +:+ exc_str e))) w in
  result loop = Ok tt
  /\ api_calls (trace loop) = map DeleteSnapshot snaps
  /\ reported (trace loop)
  /\ Forall (of_pass reaper_call ec2) (trace loop).
Proof.
  cbv zeta. repeat split.
  - apply for_each_ok. intros s w' _. rewrite delete_one_snapshot. reflexivity.
  - unfold api_calls.
    rewrite (for_each_omap api_call (fun s => [DeleteSnapshot s])).
    + induction snaps as [| s snaps' IH]; [reflexivity | simpl; rewrite IH; reflexivity].
    + intros s w' _. rewrite delete_one_snapshot. reflexivity.
    + intros s w' _. rewrite delete_one_snapshot. cbv zeta.
      destruct (delete_snapshot cloud ec2 s w') as [[[] | e] w1]; reflexivity.
  - apply for_each_reported. intros s w' _. rewrite delete_one_snapshot. cbv zeta.
    destruct (delete_snapshot cloud ec2 s w') as [[[] | e] w1];
      intros region c e' Hmut Hin; simpl in Hin; in_cases Hin; try discriminate Hin.
    injection Hin as <- <- <-. simpl. tauto.
  - apply always_for_each. intros s _.
    apply always_bind; [apply always_print; exact I | intros _].
    apply always_try_except; [| intros e; apply always_print; exact I].
    apply always_call_api. intros failure. split; reflexivity.
Qed.

(** What follows [deregister_image] with [dry_run] off: the exception of
    the snapshot list when it cannot be built, otherwise the loop. *)
Lemma after_deregister ec2 ami (w : W) :
  let loop :=
    match snapshots ami with
    | Raise e => (Raise e, w, [])
    | Ok ids =>
        for_each ids (fun snapshot =>
          print ("DELETING AMI " +:+ ImageId ami +:+ " SNAPSHOT : " +:+ snapshot);;
          try_except
            (call_api ec2 (DeleteSnapshot snapshot) (delete_snapshot cloud ec2 snapshot))
            (fun e => print ("Unable to delete snapshot: " +:+ exc_str e))) w
    end in
  result loop = match snapshots ami with Ok _ => Ok tt | Raise e => Raise e end
  /\ api_calls (trace loop) = map DeleteSnapshot (snapshots_found ami)
  /\ reported (trace loop).
Proof.
  cbv zeta. unfold snapshots_found. destruct (snapshots ami) as [ids | e].
  - destruct (delete_snapshots_loop ec2 (ImageId ami) ids w) as (Hok & Hcalls & Hrep & _).
    repeat split; assumption.
  - repeat split. intros region c e' _ [].
Qed.

(** The decision taken on an image whose expiry can be decided, with
    [dry_run] off: the calls of [reap_calls], every failure reported, and
    no exception but that of a snapshot list that cannot be built, met
    when the image is due. *)
Lemma consider_ami_decided ec2 today ami w :
  dry_run cfg = false ->
  decidable_expiry ami ->
  let run := consider_ami cloud cfg ec2 (Py.struct_time_of_date today) ami w in
  api_calls (trace run) = reap_calls today ami
  /\ reported (trace run)
  /\ (is_ok (snapshots ami) = true -> result run = Ok tt)
  /\ (forall e, result run = Raise e -> snapshots ami = Raise e).
Proof.
  intros Hdry Hdec. cbv zeta. unfold reap_calls, expiry_of.
  destruct (delete_after_values ami) as [| v rest] eqn:Hv.
  - rewrite consider_ami_no_tag by exact Hv. repeat split; try discriminate.
    apply reported_prints. intros ev Hin. simpl in Hin. in_cases Hin; subst ev; eauto.
  - destruct Hdec as [Hnone | Hsome]; [congruence |].
    unfold expiry_of in Hsome. rewrite Hv in Hsome.
    destruct (Py.strptime_mdY v) as [st | e] eqn:Hst; [| destruct Hsome; discriminate].
    destruct (PyFacts.strptime_mdY_inv v st Hst) as [_ Hshape].
    pose proof (PyFacts.struct_time_ltb_dates today (Py.date_of_struct_time st)) as Hcmp.
    rewrite <- Hshape in Hcmp.
    destruct (Py.date_ltb today (Py.date_of_struct_time st)) eqn:Hlt.
    + rewrite (consider_ami_too_new cloud cfg ec2 _ ami w v rest st Hv Hst Hcmp).
      repeat split; try discriminate.
      apply reported_prints. intros ev Hin. simpl in Hin. in_cases Hin; subst ev; eauto.
    + rewrite (consider_ami_live cloud cfg ec2 _ ami w v rest st Hv Hst Hcmp Hdry).
      cbv zeta.
      destruct (after_deregister ec2 ami (deregister_image cloud ec2 (ImageId ami) w).2)
        as (Hres & Hcalls & Hrep).
      cbv zeta in Hres, Hcalls, Hrep.
      rewrite result_of_run, trace_of_run.
      repeat apply conj.
      * unfold api_calls in *. simpl.
        rewrite omap_app, Hcalls.
        destruct (deregister_image cloud ec2 (ImageId ami) w).1; reflexivity.
      * intros region c e Hmut Hin.
        destruct Hin as [Hin | [Hin | [Hin | [Hin | Hin]]]]; try discriminate Hin.
        -- injection Hin as <- <- Hfail. simpl.
           destruct (deregister_image cloud ec2 (ImageId ami) w).1 as [[] | e'];
             [discriminate Hfail |].
           injection Hfail as <-. simpl. tauto.
        -- apply in_app_iff in Hin. destruct Hin as [Hin | Hin].
           ++ destruct (deregister_image cloud ec2 (ImageId ami) w).1 as [[] | e'];
                simpl in Hin; in_cases Hin; discriminate Hin.
           ++ do 4 right. apply in_app_iff. right. eapply Hrep; eassumption.
      * intros Hids. rewrite Hres. destruct (snapshots ami); [reflexivity | discriminate Hids].
      * intros e He. rewrite Hres in He. destruct (snapshots ami); congruence.
Qed.

(** A property of the prints and of the calls of the pass holds of all
    the effects of a decision. *)
Lemma always_consider_ami (P : Effect -> Prop) ec2 today_date ami :
  (forall line, P (Print line)) ->
  (dry_run cfg = false ->
   forall c failure, reaper_call c = true -> mutating c = true -> P (Api ec2 c failure)) ->
  always P (consider_ami cloud cfg ec2 today_date ami).
Proof.
  intros Hprint Hcall. unfold consider_ami.
  apply always_bind; [apply always_print, Hprint | intros _].
  apply always_bind.
  - apply always_try_except.
    + destruct (delete_after_values ami); [apply always_raise | apply always_ret].
    + intros _. apply always_bind; [apply always_print, Hprint | intros _; apply always_ret].
  - intros [v |]; [| apply always_ret].
    apply always_bind; [apply always_print, Hprint | intros _].
    apply always_bind; [apply always_lift | intros delete_date].
    destruct (Py.struct_time_ltb _ _); [apply always_print, Hprint |].
    destruct (dry_run cfg) eqn:Hdry.
    + apply always_bind; [apply always_print, Hprint | intros _].
      apply always_bind; [apply always_lift | intros ids].
      apply always_for_each. intros s _. apply always_print, Hprint.
    + specialize (Hcall eq_refl).
      apply always_bind; [apply always_print, Hprint | intros _].
      apply always_bind.
      * apply always_try_except; [| intros e; apply always_print, Hprint].
        apply always_call_api. intros failure. apply Hcall; reflexivity.
      * intros _. apply always_bind; [apply always_lift | intros ids].
        apply always_for_each. intros s _.
        apply always_bind; [apply always_print, Hprint | intros _].
        apply always_try_except; [| intros e; apply always_print, Hprint].
        apply always_call_api. intros failure. apply Hcall; reflexivity.
Qed.

Lemma always_reaper_pass (P : Effect -> Prop) ec2 :
  (forall line, P (Print line)) ->
  (forall failure,
     P (Api ec2 (DescribeImages [global_key_to_tag_on cfg] ["self"]) failure)) ->
  (dry_run cfg = false ->
   forall c failure, reaper_call c = true -> mutating c = true -> P (Api ec2 c failure)) ->
  always P (delete_expired_amis cloud cfg ec2).
Proof.
  intros Hprint Hdescribe Hcall. unfold delete_expired_amis.
  apply always_bind.
  - apply always_try_except.
    + apply always_bind; [apply always_print, Hprint | intros _].
      apply always_bind; [apply always_call_api, Hdescribe | intros amis; apply always_ret].
    + intros e. destruct (Py.contains _ _); [| apply always_raise].
      apply always_bind; [apply always_print, Hprint | intros _; apply always_ret].
  - intros [amis |]; [| apply always_ret].
    apply always_bind; [intros w; constructor | intros t].
    apply always_bind; [apply always_lift | intros today_date].
    destruct (_ =? _); [apply always_ret |].
    apply always_bind; [apply always_print, Hprint | intros _].
    apply always_for_each. intros ami _. apply always_consider_ami; assumption.
Qed.

(** The pass when the listing succeeds on a day the clock can tell. *)
Lemma reaper_pass_listed ec2 w amis w1 :
  describe_images cloud ec2 [global_key_to_tag_on cfg] ["self"] w = (Ok amis, w1) ->
  clock_readable (now cloud w1) = true ->
  delete_expired_amis cloud cfg ec2 w
  = let t0 := [ Print ("Scanning for AMIs with tags (" +:+ global_key_to_tag_on cfg +:+ ")");
                Api ec2 (DescribeImages [global_key_to_tag_on cfg] ["self"]) None ] in
    if Z.of_nat (length amis) =? 0 then (Ok tt, w1, t0)
    else
      let run :=
        for_each amis
          (consider_ami cloud cfg ec2 (Py.struct_time_of_date (Py.dt_date (now cloud w1))))
          w1 in
      (result run, world_after run,
       t0 ++ Print ("Found " +:+ Py.str_int (Z.of_nat (length amis)) +:+ " amis to consider...")
             :: trace run).
Proof.
  intros Hlist Hclock. unfold delete_expired_amis.
  unfold try_except, mbind, M_bind, bind, print, call_api, lift, datetime_now,
    mret, M_ret, ret.
  rewrite Hlist. cbv beta iota.
  unfold clock_readable in Hclock. apply andb_true_iff in Hclock.
  destruct Hclock as [Hvalid Hyear]. apply Z.leb_le in Hyear.
  rewrite (PyFacts.strptime_strftime_mdY _ Hvalid Hyear). cbv beta iota.
  destruct (_ =? _); [reflexivity |].
  destruct (for_each _ _ _) as [[r w2] t2]. reflexivity.
Qed.

(** The pass when the listing fails. *)
Lemma reaper_pass_unlisted ec2 w e w1 :
  describe_images cloud ec2 [global_key_to_tag_on cfg] ["self"] w = (Raise e, w1) ->
  delete_expired_amis cloud cfg ec2 w
  = let t0 := [ Print ("Scanning for AMIs with tags (" +:+ global_key_to_tag_on cfg +:+ ")");
                Api ec2 (DescribeImages [global_key_to_tag_on cfg] ["self"]) (Some e) ] in
    if Py.contains "OptInRequired" (exc_info e)
    then (Ok tt, w1, t0 ++ [Print "  Region not activated for this account, skipping..."])
    else (Raise e, w1, t0).
Proof.
  intros Hlist. unfold delete_expired_amis.
  unfold try_except, mbind, M_bind, bind, print, call_api, raise, mret, M_ret, ret.
  rewrite Hlist. cbv beta iota.
  destruct (Py.contains _ _); reflexivity.
Qed.

End ReaperDecisions.


(* ===================================================================== *)
(** * The whole run *)
(* ===================================================================== *)

Section WholeRun.

Context {W : Type} (cloud : Cloud W) (cfg : Config).

(** The handler on a non-empty list of regions: the first region, then
    the others from the world the first one leaves, unless an exception
    stopped it. *)
Lemma for_each_region_cons region regions w :
  for_each (region :: regions)
    (fun aws_region =>
       print ("Scanning region: " +:+ aws_region);;
       backup_tagged_instances_in_region cloud cfg aws_region;;
       delete_expired_amis cloud cfg aws_region) w
  = let backup := backup_tagged_instances_in_region cloud cfg region w in
    match result backup with
    | Raise e =>
        (Raise e, world_after backup,
         Print ("Scanning region: " +:+ region) :: trace backup)
    | Ok _ =>
        let reaper := delete_expired_amis cloud cfg region (world_after backup) in
        match result reaper with
        | Raise e =>
            (Raise e, world_after reaper,
             Print ("Scanning region: " +:+ region) :: trace backup ++ trace reaper)
        | Ok _ =>
            let others :=
              for_each regions
                (fun aws_region =>
                   print ("Scanning region: " +:+ aws_region);;
                   backup_tagged_instances_in_region cloud cfg aws_region;;
                   delete_expired_amis cloud cfg aws_region)
                (world_after reaper) in
            (result others, world_after others,
             Print ("Scanning region: " +:+ region)
             :: trace backup ++ trace reaper ++ trace others)
        end
    end.
Proof.
  cbn [for_each]. unfold mbind, M_bind. unfold bind at 1 2 3. unfold print at 1.
  cbv zeta.
  destruct (backup_tagged_instances_in_region cloud cfg region w) as [[[[] | e] w1] t1];
    [| reflexivity].
  unfold result, world_after, trace. cbn [fst snd].
  destruct (delete_expired_amis cloud cfg region w1) as [[[[] | e] w2] t2];
    [| reflexivity].
  cbn [fst snd].
  match goal with |- context [for_each regions ?body w2] =>
    destruct (for_each regions body w2) as [[r w3] t3] end.
  cbn [fst snd app]. rewrite <- app_assoc. reflexivity.
Qed.

(** The effects of each pass are those of its region and of its kind. *)
Lemma backup_pass_of_pass ec2 w :
  Forall (of_pass backup_call ec2)
    (trace (backup_tagged_instances_in_region cloud cfg ec2 w)).
Proof.
  apply always_backup_pass; try (intros; exact I).
  - intros failure. split; reflexivity.
  - intros _ c failure Hc _. split; [reflexivity | exact Hc].
Qed.

Lemma reaper_pass_of_pass ec2 w :
  Forall (of_pass reaper_call ec2) (trace (delete_expired_amis cloud cfg ec2 w)).
Proof.
  apply always_reaper_pass; try (intros; exact I).
  - intros failure. split; reflexivity.
  - intros _ c failure Hc _. split; [reflexivity | exact Hc].
Qed.

Lemma region_by_region_for_each regions w :
  region_by_region cloud cfg regions w
    (for_each regions
       (fun aws_region =>
          print ("Scanning region: " +:+ aws_region);;
          backup_tagged_instances_in_region cloud cfg aws_region;;
          delete_expired_amis cloud cfg aws_region) w).
Proof.
  revert w. induction regions as [| region regions IH]; intros w.
  - apply rr_done.
  - rewrite for_each_region_cons. cbv zeta.
    destruct (result (backup_tagged_instances_in_region cloud cfg region w))
      as [[] | e] eqn:Hb.
    + destruct (result (delete_expired_amis cloud cfg region
                          (world_after (backup_tagged_instances_in_region cloud cfg region w))))
        as [[] | e] eqn:Hd.
      * apply (rr_next cloud cfg region regions w _ Hb Hd). apply IH.
      * apply (rr_reaper_raises cloud cfg region regions w e Hb Hd).
    + apply (rr_backup_raises cloud cfg region regions w e Hb).
Qed.

(** A property of the prints and of the calls holds of all the effects of
    a run; the mutating calls matter only when [dry_run] is off. *)
Lemma always_lambda_handler (P : Effect -> Prop) :
  (forall line, P (Print line)) ->
  (forall e, P (PrintException e)) ->
  (forall region c failure, mutating c = false -> P (Api region c failure)) ->
  (dry_run cfg = false -> forall region c failure, P (Api region c failure)) ->
  always P (lambda_handler cloud cfg).
Proof.
  intros Hprint Hexn Hread Hcall. unfold lambda_handler.
  apply always_for_each. intros region _.
  apply always_bind; [apply always_print, Hprint | intros _].
  apply always_bind; [| intros _].
  - apply always_backup_pass; auto.
  - apply always_reaper_pass; auto.
Qed.

End WholeRun.


(* ===================================================================== *)
(** * Whole passes with [dry_run] off *)
(* ===================================================================== *)

Section LivePasses.

Context {W : Type} (cloud : Cloud W) (cfg : Config).

Lemma omap_skip {B} (h : Effect -> option B) ev t :
  h ev = None -> omap h (ev :: t) = omap h t.
Proof. intros H. change (omap h (ev :: t)) with (from_option (fun y => y :: omap h t) (omap h t) (h ev)). rewrite H. reflexivity. Qed.

Lemma omap_keep {B} (h : Effect -> option B) ev y t :
  h ev = Some y -> omap h (ev :: t) = y :: omap h t.
Proof. intros H. change (omap h (ev :: t)) with (from_option (fun y => y :: omap h t) (omap h t) (h ev)). rewrite H. reflexivity. Qed.

(** The backup pass, once the listing succeeded: no exception leaves it,
    [create_image] is called for every instance kept, in order, and every
    failed call is reported. *)
Lemma backup_pass_attempts_all ec2 w rs w1 :
  dry_run cfg = false ->
  describe_instances cloud ec2 tags_to_find w = (Ok rs, w1) ->
  let run := backup_tagged_instances_in_region cloud cfg ec2 w in
  result run = Ok tt
  /\ created_from (trace run) = map InstanceId (instances_of rs)
  /\ reported (trace run).
Proof.
  intros Hdry Hlist. cbv zeta. rewrite (backup_pass_listed cloud cfg ec2 w rs w1 Hlist).
  cbv zeta. destruct (_ =? _) eqn:Hlen.
  - apply Z.eqb_eq in Hlen. destruct (instances_of rs); [| discriminate Hlen].
    repeat split. intros region c e Hmut Hin. simpl in Hin. in_cases Hin; discriminate Hin.
  - set (loop := for_each (instances_of rs) (backup_instance cloud cfg ec2) w1).
    rewrite result_of_run, trace_of_run. repeat split.
    + apply for_each_ok. intros i w' _. apply backup_instance_ok.
    + unfold created_from. cbn [app]. rewrite !omap_skip by reflexivity. subst loop.
      rewrite (for_each_omap _ (fun i => [InstanceId i])).
      * clear. induction (instances_of rs) as [| i l IH];
          [reflexivity | cbn [flat_map map app]; rewrite IH; reflexivity].
      * intros i w' _. apply backup_instance_ok.
      * intros i w' _. apply (backup_instance_created_from cloud cfg ec2 i w' Hdry).
    + apply (reported_app [_; _; _]).
      * intros region c e Hmut Hin. simpl in Hin. in_cases Hin; discriminate Hin.
      * apply for_each_reported. intros i w' _. apply backup_instance_reported.
Qed.

(** A loop stops at the first iteration that raises: what it leaves is
    what the iterations before left, then what that iteration left. *)
Lemma for_each_stops {A B} (h : Effect -> option B) (f : A -> list B)
    (pre : list A) (x : A) (post : list A) (body : A -> M W unit) e fx :
  (forall y w, In y pre -> result (body y w) = Ok tt) ->
  (forall y w, In y pre -> omap h (trace (body y w)) = f y) ->
  (forall w, result (body x w) = Raise e) ->
  (forall w, omap h (trace (body x w)) = fx) ->
  forall w,
    result (for_each (pre ++ x :: post) body w) = Raise e
    /\ omap h (trace (for_each (pre ++ x :: post) body w)) = flat_map f pre ++ fx.
Proof.
  intros Hok Hpre Hx Hfx.
  induction pre as [| y pre IH]; intros w; cbn [app for_each flat_map]; unfold bind.
  - specialize (Hx w). specialize (Hfx w).
    destruct (body x w) as [[r w1] t1]. unfold result, trace in *. cbn [fst snd] in *.
    subst r. split; [reflexivity | exact Hfx].
  - pose proof (Hok y w (or_introl eq_refl)) as Hy.
    pose proof (Hpre y w (or_introl eq_refl)) as Hfy.
    destruct (body y w) as [[r w1] t1]. unfold result, trace in Hy, Hfy.
    cbn [fst snd] in Hy, Hfy. subst r.
    destruct (IH (fun z w' Hz => Hok z w' (or_intror Hz))
                 (fun z w' Hz => Hpre z w' (or_intror Hz)) w1) as [Hr Ht].
    destruct (for_each (pre ++ x :: post) body w1) as [[r w2] t2].
    unfold result, trace in *. cbn [fst snd] in *.
    split; [exact Hr |]. rewrite omap_app, Hfy, Ht, app_assoc. reflexivity.
Qed.

(** The reaper pass, once the listing succeeded and when the data of no
    image listed raises: no exception leaves it, its calls are those of
    [reap_calls] for each image in order, whatever their outcomes, and
    every failed call is reported. *)
Lemma reaper_pass_calls ec2 w amis w1 :
  dry_run cfg = false ->
  describe_images cloud ec2 [global_key_to_tag_on cfg] ["self"] w = (Ok amis, w1) ->
  clock_readable (now cloud w1) = true ->
  Forall readable amis ->
  let run := delete_expired_amis cloud cfg ec2 w in
  result run = Ok tt
  /\ api_calls (trace run)
     = DescribeImages [global_key_to_tag_on cfg] ["self"]
       :: flat_map (reap_calls (Py.dt_date (now cloud w1))) amis
  /\ reported (trace run).
Proof.
  intros Hdry Hlist Hclock Hdec. cbv zeta.
  rewrite (reaper_pass_listed cloud cfg ec2 w amis w1 Hlist Hclock).
  cbv zeta. destruct (_ =? _) eqn:Hlen.
  - apply Z.eqb_eq in Hlen. destruct amis; [| discriminate Hlen].
    repeat split. intros region c e Hmut Hin. simpl in Hin. in_cases Hin; discriminate Hin.
  - rewrite List.Forall_forall in Hdec.
    set (loop := for_each amis _ w1).
    rewrite result_of_run, trace_of_run. repeat split.
    + apply for_each_ok. intros ami w' Hin.
      apply (consider_ami_decided cloud cfg ec2 _ ami w' Hdry (proj1 (Hdec ami Hin))).
      exact (proj2 (Hdec ami Hin)).
    + unfold api_calls. cbn [app]. rewrite omap_skip by reflexivity.
      rewrite (omap_keep _ _ (DescribeImages [global_key_to_tag_on cfg] ["self"]))
        by reflexivity.
      rewrite omap_skip by reflexivity. f_equal. subst loop.
      apply for_each_omap.
      * intros ami w' Hin.
        apply (consider_ami_decided cloud cfg ec2 _ ami w' Hdry (proj1 (Hdec ami Hin))).
        exact (proj2 (Hdec ami Hin)).
      * intros ami w' Hin.
        apply (consider_ami_decided cloud cfg ec2 _ ami w' Hdry (proj1 (Hdec ami Hin))).
    + apply (reported_app [_; _; _]).
      * intros region c e Hmut Hin. simpl in Hin. in_cases Hin; discriminate Hin.
      * apply for_each_reported. intros ami w' Hin.
        apply (consider_ami_decided cloud cfg ec2 _ ami w' Hdry (proj1 (Hdec ami Hin))).
Qed.

(** The reaper pass that meets, after images whose data raises nothing,
    an image on which the loop body raises: the pass ends with that
    exception, after the calls for the images before and those the body
    made for that image; the images after it get no call. *)
Lemma reaper_pass_stops ec2 w pre ami post w1 e calls :
  dry_run cfg = false ->
  describe_images cloud ec2 [global_key_to_tag_on cfg] ["self"] w
  = (Ok (pre ++ ami :: post), w1) ->
  clock_readable (now cloud w1) = true ->
  Forall readable pre ->
  (forall w',
     let run := consider_ami cloud cfg ec2
                  (Py.struct_time_of_date (Py.dt_date (now cloud w1))) ami w' in
     result run = Raise e /\ api_calls (trace run) = calls) ->
  let run := delete_expired_amis cloud cfg ec2 w in
  result run = Raise e
  /\ api_calls (trace run)
     = DescribeImages [global_key_to_tag_on cfg] ["self"]
       :: flat_map (reap_calls (Py.dt_date (now cloud w1))) pre ++ calls.
Proof.
  intros Hdry Hlist Hclock Hpre Hami. cbv zeta.
  rewrite (reaper_pass_listed cloud cfg ec2 w _ w1 Hlist Hclock). cbv zeta.
  destruct (_ =? _) eqn:Hlen.
  - apply Z.eqb_eq in Hlen. rewrite length_app in Hlen. cbn [length] in Hlen. lia.
  - rewrite List.Forall_forall in Hpre.
    rewrite result_of_run, trace_of_run.
    destruct (for_each_stops api_call (reap_calls (Py.dt_date (now cloud w1)))
                pre ami post
                (consider_ami cloud cfg ec2
                   (Py.struct_time_of_date (Py.dt_date (now cloud w1)))) e calls)
      with (w := w1) as [Hr Ht].
    + intros y w' Hy.
      apply (consider_ami_decided cloud cfg ec2 _ y w' Hdry (proj1 (Hpre y Hy))).
      exact (proj2 (Hpre y Hy)).
    + intros y w' Hy.
      apply (consider_ami_decided cloud cfg ec2 _ y w' Hdry (proj1 (Hpre y Hy))).
    + intros w'. apply (Hami w').
    + intros w'. apply (Hami w').
    + split; [exact Hr |].
      unfold api_calls in *. cbn [app]. rewrite omap_skip by reflexivity.
      rewrite (omap_keep _ _ (DescribeImages [global_key_to_tag_on cfg] ["self"]))
        by reflexivity.
      rewrite omap_skip by reflexivity. f_equal. exact Ht.
Qed.

End LivePasses.


(* ===================================================================== *)
(** * What the backup pass prints for each instance *)
(* ===================================================================== *)

Section NamesPrinted.

Context {W : Type} (cloud : Cloud W) (cfg : Config).

Lemma instance_names_app t1 t2 :
  instance_names_printed (t1 ++ t2)
  = instance_names_printed t1 ++ instance_names_printed t2.
Proof. apply omap_app. Qed.

Lemma instance_names_finaltags_trace tags :
  instance_names_printed (finaltags_trace tags) = [].
Proof.
  unfold instance_names_printed, finaltags_trace.
  induction tags as [| item tags IH]; [reflexivity |].
  cbn [flat_map]. rewrite omap_app, IH, app_nil_r.
  destruct (Py.startswith (Key item) "aws:"); reflexivity.
Qed.

Lemma instance_names_backup_header instance :
  instance_names_printed (backup_header cfg instance) = [instance_name instance].
Proof. reflexivity. Qed.

(** An iteration prints the name of its instance, once. *)
Lemma backup_instance_named ec2 instance w :
  instance_names_printed (trace (backup_instance cloud cfg ec2 instance w))
  = [instance_name instance].
Proof.
  destruct (dry_run cfg) eqn:Hdry.
  - rewrite backup_instance_dry by exact Hdry. rewrite trace_of_run.
    rewrite instance_names_app, instance_names_backup_header. reflexivity.
  - destruct (backup_instance_live cloud cfg ec2 instance w Hdry);
      rewrite trace_of_run, instance_names_app, instance_names_backup_header;
      unfold backup_failure;
      repeat first
        [ rewrite instance_names_finaltags_trace
        | rewrite instance_names_app
        | match goal with
          | |- context [instance_names_printed (?ev :: ?t)] =>
              change (instance_names_printed (ev :: t))
                with (instance_names_printed ([ev] ++ t));
              rewrite (instance_names_app [ev] t);
              change (instance_names_printed [ev]) with (@nil string)
          end ];
      reflexivity.
Qed.

(** The backup pass, once the listing succeeded: no exception leaves it,
    and it has gone through every instance kept, in order. *)
Lemma backup_pass_names ec2 w rs w1 :
  describe_instances cloud ec2 tags_to_find w = (Ok rs, w1) ->
  let run := backup_tagged_instances_in_region cloud cfg ec2 w in
  result run = Ok tt
  /\ instance_names_printed (trace run) = map instance_name (instances_of rs).
Proof.
  intros Hlist. cbv zeta. rewrite (backup_pass_listed cloud cfg ec2 w rs w1 Hlist).
  cbv zeta. destruct (_ =? _) eqn:Hlen.
  - apply Z.eqb_eq in Hlen. destruct (instances_of rs); [| discriminate Hlen].
    split; reflexivity.
  - set (loop := for_each (instances_of rs) (backup_instance cloud cfg ec2) w1).
    rewrite result_of_run, trace_of_run. split.
    + apply for_each_ok. intros i w' _. apply backup_instance_ok.
    + rewrite (instance_names_app [_; _] (_ :: _)).
      change (instance_names_printed
                [Print ("Scanning for instances with tags (" +:+ Py.join "," tags_to_find
                        +:+ ")");
                 Api ec2 (DescribeInstances tags_to_find) None]) with (@nil string).
      cbn [app].
      match goal with
      | |- instance_names_printed (?ev :: ?t) = _ =>
          change (instance_names_printed (ev :: t))
            with (instance_names_printed ([ev] ++ t));
          rewrite (instance_names_app [ev] t);
          change (instance_names_printed [ev]) with (@nil string)
      end.
      cbn [app]. subst loop. unfold instance_names_printed.
      rewrite (for_each_omap _ (fun i => [instance_name i])).
      * clear. induction (instances_of rs) as [| i l IH];
          [reflexivity | cbn [flat_map map app]; rewrite IH; reflexivity].
      * intros i w' _. apply backup_instance_ok.
      * intros i w' _. apply backup_instance_named.
Qed.

End NamesPrinted.

(* ===================================================================== *)
(** * The reaper's decisions *)
(* ===================================================================== *)

Section ReaperRule.

Context {W : Type} (cloud : Cloud W) (cfg : Config).

(** The list of snapshots cannot be built as soon as one [Ebs] entry has
    no [SnapshotId]. *)
Lemma snapshot_ids_missing (mappings : list BlockDeviceMapping) :
  In {| Ebs := Some {| SnapshotId := None |} |} mappings ->
  snapshot_ids mappings = Raise (Py.KeyError "SnapshotId").
Proof.
  induction mappings as [| i others IH]; intros Hin; [destruct Hin |].
  cbn [snapshot_ids].
  destruct i as [[[[snapshot |]] |]].
  - cbn [Ebs SnapshotId]. destruct Hin as [Hin | Hin]; [discriminate Hin |].
    rewrite (IH Hin). reflexivity.
  - reflexivity.
  - cbn [Ebs]. destruct Hin as [Hin | Hin]; [discriminate Hin |]. exact (IH Hin).
Qed.

(** The decision on an image whose expiry date decodes, with [dry_run]
    off. *)
Lemma consider_ami_dated ec2 today ami w expiry :
  dry_run cfg = false ->
  expiry_of ami = Some expiry ->
  let run := consider_ami cloud cfg ec2 (Py.struct_time_of_date today) ami w in
  (Py.date_ltb today expiry = true ->
   api_calls (trace run) = [] /\ result run = Ok tt /\ world_after run = w)
  /\ (Py.date_ltb today expiry = false ->
      api_calls (trace run)
      = DeregisterImage (ImageId ami) :: map DeleteSnapshot (snapshots_found ami)
      /\ result run = match snapshots ami with Ok _ => Ok tt | Raise e => Raise e end).
Proof.
  intros Hdry Hexp. cbv zeta. unfold expiry_of in Hexp.
  destruct (delete_after_values ami) as [| v rest] eqn:Hv; [discriminate Hexp |].
  destruct (Py.strptime_mdY v) as [st | e] eqn:Hst; [| discriminate Hexp].
  injection Hexp as <-.
  destruct (PyFacts.strptime_mdY_inv v st Hst) as [_ Hshape].
  pose proof (PyFacts.struct_time_ltb_dates today (Py.date_of_struct_time st)) as Hcmp.
  rewrite <- Hshape in Hcmp.
  split; intros Hlt; rewrite Hlt in Hcmp.
  - rewrite (consider_ami_too_new cloud cfg ec2 _ ami w v rest st Hv Hst Hcmp).
    repeat split.
  - rewrite (consider_ami_live cloud cfg ec2 _ ami w v rest st Hv Hst Hcmp Hdry).
    cbv zeta.
    destruct (after_deregister cloud ec2 ami (deregister_image cloud ec2 (ImageId ami) w).2)
      as (Hres & Hcalls & _).
    cbv zeta in Hres, Hcalls.
    rewrite result_of_run, trace_of_run. split; [| exact Hres].
    unfold api_calls in *. simpl. rewrite omap_app, Hcalls.
    destruct (deregister_image cloud ec2 (ImageId ami) w).1; reflexivity.
Qed.

End ReaperRule.

(* ===================================================================== *)
(** * Tags *)
(* ===================================================================== *)

(** After the renaming no key is reserved. *)
Lemma sanitize_tag_not_reserved item :
  Py.startswith (Key (sanitize_tag item)) "aws:" = false.
Proof.
  unfold sanitize_tag. destruct (Py.startswith (Key item) "aws:") eqn:Hres; [| exact Hres].
  reflexivity.
Qed.

Lemma sanitize_tag_plain item :
  Py.startswith (Key item) "aws:" = false -> sanitize_tag item = item.
Proof. unfold sanitize_tag. intros ->. reflexivity. Qed.

(** [dict_tags] holds, for a key, the value of its last tag. *)
Lemma dict_tags_last tags item :
  dict_tags (tags ++ [item]) !! Key item = Some (Value item).
Proof. unfold dict_tags. rewrite foldl_app. simpl. apply lookup_insert_eq. Qed.

Lemma dict_tags_other tags item key :
  Key item <> key -> dict_tags (tags ++ [item]) !! key = dict_tags tags !! key.
Proof.
  intros Hne. unfold dict_tags. rewrite foldl_app. simpl. apply lookup_insert_ne. exact Hne.
Qed.

Lemma dict_tags_absent tags key :
  (forall item, In item tags -> Key item <> key) -> dict_tags tags !! key = None.
Proof.
  induction tags as [| item tags IH] using rev_ind; intros Habs.
  - apply lookup_empty.
  - rewrite dict_tags_other.
    + apply IH. intros i Hi. apply Habs. apply in_app_iff. left. exact Hi.
    + apply Habs. apply in_app_iff. right. left. reflexivity.
Qed.

(* ===================================================================== *)
(** * Properties of the handler *)
(* ===================================================================== *)

(** C6. When the listing of a pass (instances for the backup pass, images
    for the reaper pass) fails with an error that mentions OptInRequired,
    the pass returns normally and its only call is the listing; any other
    failure of the listing leaves the pass as the exception it is. *)
Theorem C6_region_not_opted_in {W} (cloud : Cloud W) (cfg : Config) ec2 w :
  (forall e w1,
     describe_instances cloud ec2 tags_to_find w = (Raise e, w1) ->
     let run := backup_tagged_instances_in_region cloud cfg ec2 w in
     if Py.contains "OptInRequired" (exc_info e)
     then result run = Ok tt /\ world_after run = w1
          /\ api_calls (trace run) = [DescribeInstances tags_to_find]
     else result run = Raise e)
  /\ (forall e w1,
        describe_images cloud ec2 [global_key_to_tag_on cfg] ["self"] w = (Raise e, w1) ->
        let run := delete_expired_amis cloud cfg ec2 w in
        if Py.contains "OptInRequired" (exc_info e)
        then result run = Ok tt /\ world_after run = w1
             /\ api_calls (trace run) = [DescribeImages [global_key_to_tag_on cfg] ["self"]]
        else result run = Raise e).
Proof.
  split; intros e w1 Hlist; cbv zeta.
  - rewrite (backup_pass_unlisted cloud cfg ec2 w e w1 Hlist). cbv zeta.
    destruct (Py.contains _ _); repeat split.
  - rewrite (reaper_pass_unlisted cloud cfg ec2 w e w1 Hlist). cbv zeta.
    destruct (Py.contains _ _); repeat split.
Qed.

(** A region that is not enabled, and a region that throttles. *)
Lemma C6_region_not_opted_in_witness :
  let off := {| Account.clock := Account.new_year_2024; Account.reservations := [];
                Account.images := []; Account.counter := 0;
                Account.faults := fun _ _ => Some Account.opt_in_required |} in
  let busy := {| Account.clock := Account.new_year_2024; Account.reservations := [];
                 Account.images := []; Account.counter := 0;
                 Account.faults := fun _ _ => Some Account.request_limit_exceeded |} in
  (result (backup_tagged_instances_in_region Account.cloud default_config "ap-east-1" off)
   = Ok tt
   /\ result (delete_expired_amis Account.cloud default_config "ap-east-1" off) = Ok tt)
  /\ (result (backup_tagged_instances_in_region Account.cloud default_config "us-east-1" busy)
      = Raise Account.request_limit_exceeded
      /\ result (delete_expired_amis Account.cloud default_config "us-east-1" busy)
         = Raise Account.request_limit_exceeded).
Proof.
  intros off busy. split; split.
  - exact (proj1 (proj1 (C6_region_not_opted_in Account.cloud default_config "ap-east-1" off)
                    Account.opt_in_required off eq_refl)).
  - exact (proj1 (proj2 (C6_region_not_opted_in Account.cloud default_config "ap-east-1" off)
                    Account.opt_in_required off eq_refl)).
  - exact (proj1 (C6_region_not_opted_in Account.cloud default_config "us-east-1" busy)
             Account.request_limit_exceeded busy eq_refl).
  - exact (proj2 (C6_region_not_opted_in Account.cloud default_config "us-east-1" busy)
             Account.request_limit_exceeded busy eq_refl).
Defined.

(** C5. With [dry_run] set no mutating call is issued: neither by a whole
    run, nor by either pass from any state of the account.  What would be
    done is only printed: for an instance the lines "DRY_RUN", its id and
    the name the image would get; for an image that is due the line naming
    it and one line per snapshot (no such line, and the [KeyError], when
    the list of its snapshots cannot be built). *)
Theorem C5_dry_run_only_announces {W} (cloud : Cloud W) (cfg : Config) :
  dry_run cfg = true ->
  (forall w, Forall read_only (trace (lambda_handler cloud cfg w)))
  /\ (forall ec2 w,
        Forall read_only (trace (backup_tagged_instances_in_region cloud cfg ec2 w)))
  /\ (forall ec2 w, Forall read_only (trace (delete_expired_amis cloud cfg ec2 w)))
  /\ (forall ec2 instance w,
        backup_instance cloud cfg ec2 instance w
        = (Ok tt, w,
           backup_header cfg instance
           ++ [ Print "DRY_RUN";
                Print ("InstanceId : " +:+ InstanceId instance);
                Print ("Name       : " +:+ image_name instance (now cloud w)) ]))
  /\ (forall ec2 today ami w expiry,
        expiry_of ami = Some expiry ->
        Py.date_ltb today expiry = false ->
        let run := consider_ami cloud cfg ec2 (Py.struct_time_of_date today) ami w in
        result run = match snapshots ami with Ok _ => Ok tt | Raise e => Raise e end
        /\ world_after run = w
        /\ skipn 2 (trace run)
           = Print ("DRY_RUN, would have deleted ami : " +:+ ImageId ami)
             :: map (fun snapshot =>
                       Print ("DRY_RUN, would have deleted volume snapshot " +:+ snapshot))
                  (snapshots_found ami)).
Proof.
  intros Hdry. repeat apply conj.
  - apply always_lambda_handler; try (intros; exact I).
    + intros region c failure Hc. exact Hc.
    + congruence.
  - intros ec2. apply always_backup_pass; try (intros; exact I).
    + intros failure. reflexivity.
    + congruence.
  - intros ec2. apply always_reaper_pass; try (intros; exact I).
    + intros failure. reflexivity.
    + congruence.
  - intros ec2 instance w. apply backup_instance_dry. exact Hdry.
  - intros ec2 today ami w expiry Hexp Hdue. cbv zeta.
    unfold expiry_of in Hexp.
    destruct (delete_after_values ami) as [| v rest] eqn:Hv; [discriminate Hexp |].
    destruct (Py.strptime_mdY v) as [st | e] eqn:Hst; [| discriminate Hexp].
    injection Hexp as <-.
    destruct (PyFacts.strptime_mdY_inv v st Hst) as [_ Hshape].
    pose proof (PyFacts.struct_time_ltb_dates today (Py.date_of_struct_time st)) as Hcmp.
    rewrite <- Hshape, Hdue in Hcmp.
    rewrite (consider_ami_dry cloud cfg ec2 _ ami w v rest st Hv Hst Hcmp Hdry).
    repeat split.
Qed.

(** A dry run over an account with an instance to back up and an image
    that is due. *)
Lemma C5_dry_run_only_announces_witness :
  let cfg := Account.one_region 7 true in
  let due := Account.managed "ami-x" [ {| Key := "DeleteAfter"; Value := "01-01-2024" |} ]
               ["snap-1"; "snap-2"] in
  let a := Account.account [Account.plain] [due] in
  Forall read_only (trace (lambda_handler Account.cloud cfg a))
  /\ api_calls (trace (lambda_handler Account.cloud cfg a))
     = [ DescribeInstances ["backup"; "Backup"];
         DescribeImages ["AWSAutomatedDailySnapshots"] ["self"] ].
Proof.
  intros cfg due a. split.
  - exact (proj1 (C5_dry_run_only_announces Account.cloud cfg eq_refl) a).
  - vm_compute. reflexivity.
Defined.

(** C3 on a listing of two images: the first carries a [DeleteAfter]
    value that is no date, the second expires on 1 January 2024, the day
    of the run.  The pass ends on the first image with the [ValueError] of
    [strptime]: its only call is the listing, and the second image, whose
    expiry date decodes and is not after today, is still registered.  On
    a listing whose first image has a volume without snapshot id yet, the
    pass deregisters that image and ends with the [KeyError]: no snapshot
    is deleted and the second image is not reached either. *)
Theorem C3_due_image_is_kept_when_the_pass_ends_early :
  let cfg := Account.one_region 7 false in
  let today := Py.dt_date Account.new_year_2024 in
  let bad := Account.managed "ami-bad" [ {| Key := "DeleteAfter"; Value := "soon" |} ]
               ["snap-0"] in
  let half := Account.pending "ami-half" [ {| Key := "DeleteAfter"; Value := "12-31-2023" |} ] in
  let due := Account.managed "ami-due" [ {| Key := "DeleteAfter"; Value := "01-01-2024" |} ]
               ["snap-1"; "snap-2"] in
  let run := delete_expired_amis Account.cloud cfg "us-east-1"
               (Account.account [] [bad; due]) in
  let run' := delete_expired_amis Account.cloud cfg "us-east-1"
                (Account.account [] [half; due]) in
  (expiry_of due = Some today /\ Py.date_ltb today today = false)
  /\ (result run = Raise (Py.ValueError "time data 'soon' does not match format '%m-%d-%Y'")
      /\ api_calls (trace run) = [ DescribeImages ["AWSAutomatedDailySnapshots"] ["self"] ]
      /\ Account.images (world_after run) = [("us-east-1", bad); ("us-east-1", due)])
  /\ (result run' = Raise (Py.KeyError "SnapshotId")
      /\ api_calls (trace run')
         = [ DescribeImages ["AWSAutomatedDailySnapshots"] ["self"];
             DeregisterImage "ami-half" ]
      /\ Account.images (world_after run') = [("us-east-1", due)]).
Proof. vm_compute. repeat split. Qed.

(** C7. With [dry_run] off, whatever calls fail: the backup pass, once
    its listing succeeded, never raises, calls [create_image] for every
    instance kept, in order, and prints the traceback of every failed
    [create_image] or [create_tags]; the reaper pass, once its listing
    succeeded and when the data of no image listed raises (see
    [readable]), never raises, makes the same calls whatever their
    outcomes (so the snapshots of an image are deleted also when
    deregistering it failed) and prints a line for every failed
    [deregister_image] or [delete_snapshot].  For any image that is due,
    readable or not, the calls made and the way the iteration ends are
    fixed by the data of the image alone, not by the outcome of a call:
    [deregister_image], then [delete_snapshot] for each snapshot found,
    every failure printed. *)
Theorem C7_failed_mutations_do_not_stop_a_pass {W} (cloud : Cloud W) (cfg : Config) ec2 w :
  dry_run cfg = false ->
  (forall rs w1,
     describe_instances cloud ec2 tags_to_find w = (Ok rs, w1) ->
     let run := backup_tagged_instances_in_region cloud cfg ec2 w in
     result run = Ok tt
     /\ created_from (trace run) = map InstanceId (instances_of rs)
     /\ reported (trace run))
  /\ (forall amis w1,
        describe_images cloud ec2 [global_key_to_tag_on cfg] ["self"] w = (Ok amis, w1) ->
        clock_readable (now cloud w1) = true ->
        Forall readable amis ->
        let run := delete_expired_amis cloud cfg ec2 w in
        result run = Ok tt
        /\ api_calls (trace run)
           = DescribeImages [global_key_to_tag_on cfg] ["self"]
             :: flat_map (reap_calls (Py.dt_date (now cloud w1))) amis
        /\ reported (trace run))
  /\ (forall today ami w' expiry,
        expiry_of ami = Some expiry ->
        Py.date_ltb today expiry = false ->
        let run := consider_ami cloud cfg ec2 (Py.struct_time_of_date today) ami w' in
        api_calls (trace run)
        = DeregisterImage (ImageId ami) :: map DeleteSnapshot (snapshots_found ami)
        /\ result run = match snapshots ami with Ok _ => Ok tt | Raise e => Raise e end
        /\ reported (trace run)).
Proof.
  intros Hdry. repeat apply conj.
  - intros rs w1 Hlist. apply (backup_pass_attempts_all cloud cfg ec2 w rs w1 Hdry Hlist).
  - intros amis w1 Hlist Hclock Hdec.
    apply (reaper_pass_calls cloud cfg ec2 w amis w1 Hdry Hlist Hclock Hdec).
  - intros today ami w' expiry Hexp Hdue. cbv zeta.
    assert (Hdec : decidable_expiry ami) by (right; rewrite Hexp; eexists; reflexivity).
    destruct (consider_ami_decided cloud cfg ec2 today ami w' Hdry Hdec) as (_ & Hrep & _).
    destruct (consider_ami_dated cloud cfg ec2 today ami w' expiry Hdry Hexp) as [_ Hlive].
    destruct (Hlive Hdue) as [Hcalls Hres].
    repeat split; assumption.
Qed.

(** An account where every mutating call fails: both instances are still
    tried, and the snapshots of the image that is due are still deleted
    after [deregister_image] failed. *)
Lemma C7_failed_mutations_do_not_stop_a_pass_witness :
  let cfg := Account.one_region 7 false in
  let due := Account.managed "ami-due" [ {| Key := "DeleteAfter"; Value := "12-31-2023" |} ]
               ["snap-1"; "snap-2"] in
  let a := {| Account.clock := Account.new_year_2024;
              Account.reservations :=
                [("us-east-1", {| Instances := [Account.plain; Account.scaled] |})];
              Account.images := [("us-east-1", due)];
              Account.counter := 0;
              Account.faults := fun _ c =>
                if mutating c then Some Account.request_limit_exceeded else None |} in
  (result (backup_tagged_instances_in_region Account.cloud cfg "us-east-1" a) = Ok tt
   /\ created_from (trace (backup_tagged_instances_in_region Account.cloud cfg "us-east-1" a))
      = ["i-def"; "i-123"])
  /\ (result (delete_expired_amis Account.cloud cfg "us-east-1" a) = Ok tt
      /\ api_calls (trace (delete_expired_amis Account.cloud cfg "us-east-1" a))
         = [ DescribeImages ["AWSAutomatedDailySnapshots"] ["self"];
             DeregisterImage "ami-due"; DeleteSnapshot "snap-1"; DeleteSnapshot "snap-2" ]).
Proof.
  intros cfg due a.
  pose proof (C7_failed_mutations_do_not_stop_a_pass Account.cloud cfg "us-east-1" a eq_refl)
    as (Hbackup & Hreaper & _).
  split.
  - destruct (Hbackup [ {| Instances := [Account.plain; Account.scaled] |} ] a eq_refl)
      as (Hok & Hcreated & _).
    split; [exact Hok | exact Hcreated].
  - assert (Hdec : Forall readable [due]).
    { constructor; [| constructor]. split; [| reflexivity].
      right; eexists; vm_compute; reflexivity. }
    destruct (Hreaper [due] a eq_refl eq_refl Hdec) as (Hok & Hcalls & _).
    split; [exact Hok | exact Hcalls].
Defined.

(** C2 on an image whose [DeleteAfter] value is a date written year
    first: [strptime] refuses it, and its [ValueError], raised outside the
    [try] that guards the lookup of the tag, leaves the loop, the pass and
    the handler.  No call is made for the image, but the image listed
    after it is never looked at, and the run ends with the exception. *)
Theorem C2_undecodable_expiry_raises :
  let cfg := Account.one_region 7 false in
  let ami := Account.managed "ami-x" [ {| Key := "DeleteAfter"; Value := "2024-01-04" |} ]
               ["snap-1"] in
  let next := Account.managed "ami-y" [] ["snap-2"] in
  let a := Account.account [] [ami; next] in
  let refused :=
    Py.ValueError "time data '2024-01-04' does not match format '%m-%d-%Y'" in
  expiry_of ami = None
  /\ result (delete_expired_amis Account.cloud cfg "us-east-1" a) = Raise refused
  /\ trace (delete_expired_amis Account.cloud cfg "us-east-1" a)
     = [ Print "Scanning for AMIs with tags (AWSAutomatedDailySnapshots)";
         Api "us-east-1" (DescribeImages ["AWSAutomatedDailySnapshots"] ["self"]) None;
         Print "Found 2 amis to consider...";
         Print "  Found AMI to consider: ami-x";
         Print "Delete After: 2024-01-04" ]
  /\ result (lambda_handler Account.cloud cfg a) = Raise refused.
Proof. vm_compute. repeat split. Qed.

(** C1 on the instance of the specification's scenario, tagged
    Retention=3: the image is created, [timedelta] refuses the string "3",
    and [create_tags] is never called, so the image carries no expiry tag. *)
Theorem C1_retention_tag_leaves_image_untagged :
  let run := backup_tagged_instances_in_region Account.cloud (Account.one_region 7 false)
               "us-east-1" (Account.account [Account.web1] []) in
  result run = Ok tt
  /\ api_calls (trace run)
     = [ DescribeInstances ["backup"; "Backup"];
         CreateImage "i-abc" "web1-backup-2024-01-01-00-00-00.000000"
           "Automatic Backup of web1 from i-abc" true false ]
  /\ In (PrintException
           (Py.TypeError "unsupported type for timedelta days component: str"))
        (trace run)
  /\ Account.images (world_after run)
     = [("us-east-1",
         {| ImageId := "ami-0"; ImageTags := [];
            BlockDeviceMappings := [ {| Ebs := Some {| SnapshotId := Some "snap-0" |} |} ] |})].
Proof. vm_compute. repeat split. repeat (first [left; reflexivity | right]). Qed.

(** C4. In the tag list of every [create_tags] call made for an instance,
    each tag of the instance whose key starts with "aws:" appears with its
    key prefixed by "internal-" and its value unchanged, no tag has the
    reserved key (indeed no key of the list starts with "aws:"), and each
    other tag of the instance appears unchanged. *)
Theorem C4_reserved_tags_are_renamed {W} (cloud : Cloud W) (cfg : Config)
    ec2 instance w region resources tags failure :
  In (Api region (CreateTags resources tags) failure)
     (trace (backup_instance cloud cfg ec2 instance w)) ->
  forall item, In item (Tags instance) ->
    (Py.startswith (Key item) "aws:" = true ->
     In {| Key := "internal-" +:+ Key item; Value := Value item |} tags
     /\ (forall applied, In applied tags -> Key applied <> Key item)
     /\ (forall applied, In applied tags -> Py.startswith (Key applied) "aws:" = false))
    /\ (Py.startswith (Key item) "aws:" = false -> In item tags).
Proof.
  intros Hcall item Hitem.
  destruct (backup_instance_create_tags cloud cfg ec2 instance w _ _ _ _ Hcall)
    as (image & w1 & days & expiry & _ & _ & _ & _ & ->).
  unfold image_tags.
  assert (Hclean : forall applied,
             In applied
               (map sanitize_tag
                  (Tags instance
                   ++ appended_tags (global_key_to_tag_on cfg) instance
                        (Py.strftime_mdY expiry))) ->
             Py.startswith (Key applied) "aws:" = false).
  { intros applied Happ. apply in_map_iff in Happ. destruct Happ as (src & <- & _).
    apply sanitize_tag_not_reserved. }
  assert (Hcopied : In (sanitize_tag item)
                      (map sanitize_tag
                         (Tags instance
                          ++ appended_tags (global_key_to_tag_on cfg) instance
                               (Py.strftime_mdY expiry)))).
  { apply in_map. apply in_app_iff. left. exact Hitem. }
  split.
  - intros Hres. repeat apply conj.
    + unfold sanitize_tag in Hcopied. rewrite Hres in Hcopied. exact Hcopied.
    + intros applied Happ Hkey. apply Hclean in Happ. congruence.
    + exact Hclean.
  - intros Hplain. rewrite (sanitize_tag_plain item Hplain) in Hcopied. exact Hcopied.
Qed.

(** The instance of the autoscaling group, backed up on 1 January 2024. *)
Lemma C4_reserved_tags_are_renamed_witness :
  let cfg := Account.one_region 7 false in
  let a := Account.account [Account.scaled] [] in
  exists tags,
    In (Api "us-east-1" (CreateTags ["ami-0"] tags) None)
       (trace (backup_instance Account.cloud cfg "us-east-1" Account.scaled a))
    /\ In {| Key := "internal-aws:autoscaling:groupName"; Value := "web-asg" |} tags
    /\ In {| Key := "backup"; Value := "" |} tags.
Proof.
  intros cfg a.
  eexists.
  assert (Hcall :
            In (Api "us-east-1"
                  (CreateTags ["ami-0"]
                     (image_tags cfg Account.scaled
                        {| Py.year := 2024; Py.month := 1; Py.day := 8 |})) None)
               (trace (backup_instance Account.cloud cfg "us-east-1" Account.scaled a))).
  { vm_compute. repeat (first [left; reflexivity | right]). }
  split; [exact Hcall |].
  split.
  - exact (proj1 (proj1 (C4_reserved_tags_are_renamed Account.cloud cfg "us-east-1"
                           Account.scaled a _ _ _ _ Hcall
                           {| Key := "aws:autoscaling:groupName"; Value := "web-asg" |}
                           (or_intror (or_introl eq_refl)))
                    eq_refl)).
  - exact (proj2 (C4_reserved_tags_are_renamed Account.cloud cfg "us-east-1"
                    Account.scaled a _ _ _ _ Hcall
                    {| Key := "backup"; Value := "" |} (or_introl eq_refl))
             eq_refl).
Defined.

(** C10, as stated, fails for the marker key: when the key configured as
    marker starts with "aws:" (here the key that CloudFormation sets on
    the instances of a stack) and the instance carries a tag of that key,
    the list applied to the image holds neither the copied entry nor the
    appended one, but both under the key renamed with "internal-". *)
Lemma C10_reserved_marker_key_is_renamed :
  let cfg := {| aws_regions := ["us-east-1"]; default_retention_time := 7;
                global_key_to_tag_on := "aws:cloudformation:stack-name";
                dry_run := false |} in
  let instance := {| InstanceId := "i-9"; StateName := "running";
                     Tags := [ {| Key := "backup"; Value := "" |};
                               {| Key := "aws:cloudformation:stack-name";
                                  Value := "web" |} ] |} in
  let applied := [ {| Key := "backup"; Value := "" |};
                   {| Key := "internal-aws:cloudformation:stack-name"; Value := "web" |};
                   {| Key := "DeleteAfter"; Value := "01-08-2024" |};
                   {| Key := "OriginalInstanceID"; Value := "i-9" |};
                   {| Key := "internal-aws:cloudformation:stack-name";
                      Value := "true" |} ] in
  api_calls (trace (backup_instance Account.cloud cfg "us-east-1" instance
                      (Account.account [instance] [])))
  = [ CreateImage "i-9" "i-9-backup-2024-01-01-00-00-00.000000"
        "Automatic Backup of i-9 from i-9" true false;
      CreateTags ["ami-0"] applied ]
  /\ ~ In {| Key := "aws:cloudformation:stack-name"; Value := "web" |} applied
  /\ ~ In {| Key := "aws:cloudformation:stack-name"; Value := "true" |} applied.
Proof.
  cbv zeta. repeat apply conj.
  - vm_compute. reflexivity.
  - intros Hin. cbn [In] in Hin. repeat (destruct Hin as [Hin | Hin]; [discriminate Hin |]).
    exact Hin.
  - intros Hin. cbn [In] in Hin. repeat (destruct Hin as [Hin | Hin]; [discriminate Hin |]).
    exact Hin.
Qed.

(** C10, amended.  The tag list of every [create_tags] call made for an
    instance is the tags of the instance, in order, followed by the three
    appended entries, each renamed only if its key is reserved; nothing is
    merged, so the list has three entries more than the instance has tags.
    A tag of the instance keyed "DeleteAfter" or "OriginalInstanceID" stays
    at its position, unchanged, and the appended entry of the same key
    stands after all copied tags.  A tag keyed by the marker key stays at
    its position and the appended marker entry is the last of the list:
    both unchanged when the marker key is not reserved, both with the key
    prefixed by "internal-" and the value unchanged when it is. *)
Theorem C10_appended_tags_follow_copied_tags {W} (cloud : Cloud W) (cfg : Config)
    ec2 instance w region resources tags failure :
  In (Api region (CreateTags resources tags) failure)
     (trace (backup_instance cloud cfg ec2 instance w)) ->
  exists delete_fmt,
    let n := length (Tags instance) in
    let marker := {| Key := global_key_to_tag_on cfg; Value := "true" |} in
    tags = map sanitize_tag (Tags instance)
           ++ [ {| Key := "DeleteAfter"; Value := delete_fmt |};
                {| Key := "OriginalInstanceID"; Value := InstanceId instance |};
                sanitize_tag marker ]
    /\ length tags = (n + 3)%nat
    /\ (forall i item,
          nth_error (Tags instance) i = Some item ->
          (Key item = "DeleteAfter" ->
           nth_error tags i = Some item
           /\ nth_error tags n = Some {| Key := "DeleteAfter"; Value := delete_fmt |})
          /\ (Key item = "OriginalInstanceID" ->
              nth_error tags i = Some item
              /\ nth_error tags (n + 1)
                 = Some {| Key := "OriginalInstanceID"; Value := InstanceId instance |})
          /\ (Key item = global_key_to_tag_on cfg ->
              nth_error tags i = Some (sanitize_tag item)
              /\ nth_error tags (n + 2) = Some (sanitize_tag marker)
              /\ (Py.startswith (global_key_to_tag_on cfg) "aws:" = false ->
                  sanitize_tag item = item /\ sanitize_tag marker = marker)
              /\ (Py.startswith (global_key_to_tag_on cfg) "aws:" = true ->
                  sanitize_tag item
                  = {| Key := "internal-" +:+ global_key_to_tag_on cfg; Value := Value item |}
                  /\ sanitize_tag marker
                     = {| Key := "internal-" +:+ global_key_to_tag_on cfg;
                          Value := "true" |}))).
Proof.
  intros Hcall.
  destruct (backup_instance_create_tags cloud cfg ec2 instance w _ _ _ _ Hcall)
    as (image & w1 & days & expiry & _ & _ & _ & _ & ->).
  exists (Py.strftime_mdY expiry). cbv zeta.
  assert (Hshape :
            image_tags cfg instance expiry
            = map sanitize_tag (Tags instance)
              ++ [ {| Key := "DeleteAfter"; Value := Py.strftime_mdY expiry |};
                   {| Key := "OriginalInstanceID"; Value := InstanceId instance |};
                   sanitize_tag {| Key := global_key_to_tag_on cfg; Value := "true" |} ]).
  { unfold image_tags, appended_tags. rewrite map_app. reflexivity. }
  rewrite Hshape. clear Hshape Hcall.
  assert (Hlen : length (map sanitize_tag (Tags instance)) = length (Tags instance))
    by apply length_map.
  repeat apply conj.
  - reflexivity.
  - rewrite length_app, Hlen. reflexivity.
  - intros i item Hi.
    assert (Hlt : (i < length (map sanitize_tag (Tags instance)))%nat)
      by (rewrite Hlen; apply nth_error_Some; congruence).
    assert (Hcopy : nth_error
                      (map sanitize_tag (Tags instance)
                       ++ [ {| Key := "DeleteAfter"; Value := Py.strftime_mdY expiry |};
                            {| Key := "OriginalInstanceID"; Value := InstanceId instance |};
                            sanitize_tag
                              {| Key := global_key_to_tag_on cfg; Value := "true" |} ]) i
                    = Some (sanitize_tag item)).
    { rewrite nth_error_app1 by exact Hlt. rewrite nth_error_map, Hi. reflexivity. }
    assert (Happ : forall k,
               nth_error
                 (map sanitize_tag (Tags instance)
                  ++ [ {| Key := "DeleteAfter"; Value := Py.strftime_mdY expiry |};
                       {| Key := "OriginalInstanceID"; Value := InstanceId instance |};
                       sanitize_tag
                         {| Key := global_key_to_tag_on cfg; Value := "true" |} ])
                 (length (Tags instance) + k)
               = nth_error
                   [ {| Key := "DeleteAfter"; Value := Py.strftime_mdY expiry |};
                     {| Key := "OriginalInstanceID"; Value := InstanceId instance |};
                     sanitize_tag {| Key := global_key_to_tag_on cfg; Value := "true" |} ] k).
    { intros k. rewrite nth_error_app2 by (rewrite Hlen; lia). f_equal. rewrite Hlen. lia. }
    repeat apply conj.
    + intros Hkey. split.
      * rewrite Hcopy. f_equal. apply sanitize_tag_plain. rewrite Hkey. reflexivity.
      * rewrite <- (Nat.add_0_r (length (Tags instance))). apply Happ.
    + intros Hkey. split.
      * rewrite Hcopy. f_equal. apply sanitize_tag_plain. rewrite Hkey. reflexivity.
      * apply Happ.
    + intros Hkey. repeat apply conj.
      * exact Hcopy.
      * apply Happ.
      * intros Hplain. split; apply sanitize_tag_plain; [rewrite Hkey |]; exact Hplain.
      * intros Hres. unfold sanitize_tag. cbn [Key Value]. rewrite Hkey, Hres.
        split; reflexivity.
Qed.

(** The instance that already carries a [DeleteAfter] tag: its image gets
    the old entry and the new one. *)
Lemma C10_appended_tags_follow_copied_tags_witness :
  let cfg := Account.one_region 7 false in
  let a := Account.account [Account.scaled] [] in
  exists tags,
    In (Api "us-east-1" (CreateTags ["ami-0"] tags) None)
       (trace (backup_instance Account.cloud cfg "us-east-1" Account.scaled a))
    /\ nth_error tags 4 = Some {| Key := "DeleteAfter"; Value := "12-31-2023" |}
    /\ nth_error tags 5 = Some {| Key := "DeleteAfter"; Value := "01-08-2024" |}
    /\ length tags = 8%nat.
Proof.
  intros cfg a.
  exists (image_tags cfg Account.scaled {| Py.year := 2024; Py.month := 1; Py.day := 8 |}).
  assert (Hcall :
            In (Api "us-east-1"
                  (CreateTags ["ami-0"]
                     (image_tags cfg Account.scaled
                        {| Py.year := 2024; Py.month := 1; Py.day := 8 |})) None)
               (trace (backup_instance Account.cloud cfg "us-east-1" Account.scaled a))).
  { vm_compute. repeat (first [left; reflexivity | right]). }
  split; [exact Hcall |].
  destruct (C10_appended_tags_follow_copied_tags Account.cloud cfg "us-east-1"
              Account.scaled a _ _ _ _ Hcall) as (delete_fmt & _ & Hlen & _).
  repeat apply conj; [reflexivity | reflexivity | exact Hlen].
Defined.

(** C9. When the [Name] tag of an instance is the empty string, the image
    name starts with the instance id: it is the id, "-backup-" and the
    time stamp, both in the name passed to [create_image] and in the name
    a dry run prints.  When the [Retention] tag is the empty string the
    default retention is used: every [create_tags] call carries a
    [DeleteAfter] entry for the day of the call plus the default. *)
Theorem C9_empty_name_and_retention_fall_back {W} (cloud : Cloud W) (cfg : Config)
    ec2 instance w :
  (dict_tags (Tags instance) !! "Name" = Some "" ->
   image_name instance (now cloud w)
   = InstanceId instance +:+ "-backup-" +:+ Py.strftime_stamp (now cloud w)
   /\ (dry_run cfg = false ->
       exists failure,
         In (Api ec2
               (CreateImage (InstanceId instance)
                  (InstanceId instance +:+ "-backup-" +:+ Py.strftime_stamp (now cloud w))
                  (image_description instance) true false) failure)
            (trace (backup_instance cloud cfg ec2 instance w)))
   /\ (dry_run cfg = true ->
       In (Print ("Name       : " +:+ InstanceId instance +:+ "-backup-"
                  +:+ Py.strftime_stamp (now cloud w)))
          (trace (backup_instance cloud cfg ec2 instance w))))
  /\ (dict_tags (Tags instance) !! "Retention" = Some "" ->
      retention_days cfg instance = Py.DaysInt (default_retention_time cfg)
      /\ forall region resources tags failure,
           In (Api region (CreateTags resources tags) failure)
              (trace (backup_instance cloud cfg ec2 instance w)) ->
           exists w1 expiry,
             Py.date_add (Py.dt_date (now cloud w1)) (default_retention_time cfg) = Ok expiry
             /\ In {| Key := "DeleteAfter"; Value := Py.strftime_mdY expiry |} tags).
Proof.
  split.
  - intros Hname.
    assert (Hfallback : image_name instance (now cloud w)
                        = InstanceId instance +:+ "-backup-"
                          +:+ Py.strftime_stamp (now cloud w)).
    { unfold image_name, instance_name. rewrite Hname. reflexivity. }
    repeat apply conj.
    + exact Hfallback.
    + intros Hdry. rewrite <- Hfallback.
      destruct (backup_instance_live cloud cfg ec2 instance w Hdry);
        eexists; unfold trace; cbn [snd]; apply in_app_iff; right; left; reflexivity.
    + intros Hdry. rewrite <- Hfallback.
      rewrite (backup_instance_dry cloud cfg ec2 instance w Hdry).
      unfold trace. cbn [snd]. apply in_app_iff. right. right. right. left. reflexivity.
  - intros Hretention.
    assert (Hdefault : retention_days cfg instance = Py.DaysInt (default_retention_time cfg)).
    { unfold retention_days. rewrite Hretention. reflexivity. }
    split; [exact Hdefault |].
    intros region resources tags failure Hcall.
    destruct (backup_instance_create_tags cloud cfg ec2 instance w _ _ _ _ Hcall)
      as (image & w1 & days & expiry & _ & Hdays & Hexpiry & _ & ->).
    rewrite Hdefault in Hdays. unfold Py.timedelta in Hdays.
    destruct (_ && _); [| discriminate Hdays]. injection Hdays as <-.
    exists w1, expiry. split; [exact Hexpiry |].
    unfold image_tags. apply in_map_iff.
    exists {| Key := "DeleteAfter"; Value := Py.strftime_mdY expiry |}.
    split; [reflexivity |]. apply in_app_iff. right. left. reflexivity.
Qed.

(** The instance whose [Name] and [Retention] tags are empty, backed up
    on 1 January 2024 with a default retention of 7 days, and in a dry
    run. *)
Lemma C9_empty_name_and_retention_fall_back_witness :
  let cfg := Account.one_region 7 false in
  let dry := Account.one_region 7 true in
  let a := Account.account [Account.scaled] [] in
  (image_name Account.scaled (now Account.cloud a) = "i-123-backup-2024-01-01-00-00-00.000000"
   /\ (exists failure,
         In (Api "us-east-1"
               (CreateImage "i-123" "i-123-backup-2024-01-01-00-00-00.000000"
                  "Automatic Backup of i-123 from i-123" true false) failure)
            (trace (backup_instance Account.cloud cfg "us-east-1" Account.scaled a)))
   /\ In (Print "Name       : i-123-backup-2024-01-01-00-00-00.000000")
         (trace (backup_instance Account.cloud dry "us-east-1" Account.scaled a)))
  /\ (retention_days cfg Account.scaled = Py.DaysInt 7
      /\ exists w1 expiry,
           Py.date_add (Py.dt_date (now Account.cloud w1)) 7 = Ok expiry
           /\ In {| Key := "DeleteAfter"; Value := Py.strftime_mdY expiry |}
                 (image_tags cfg Account.scaled
                    {| Py.year := 2024; Py.month := 1; Py.day := 8 |})).
Proof.
  intros cfg dry a.
  pose proof (C9_empty_name_and_retention_fall_back Account.cloud cfg "us-east-1"
                Account.scaled a) as [Hname Hretention].
  pose proof (C9_empty_name_and_retention_fall_back Account.cloud dry "us-east-1"
                Account.scaled a) as [Hdry _].
  split.
  - repeat apply conj.
    + exact (proj1 (Hname eq_refl)).
    + exact (proj1 (proj2 (Hname eq_refl)) eq_refl).
    + exact (proj2 (proj2 (Hdry eq_refl)) eq_refl).
  - split.
    + exact (proj1 (Hretention eq_refl)).
    + apply (proj2 (Hretention eq_refl) "us-east-1" ["ami-0"] _ None).
      vm_compute. repeat (first [left; reflexivity | right]).
Defined.

(** C8, as stated, fails.  With a default retention of 0 days, in an
    account that holds no image, the image created by the backup pass is
    listed and deleted by the reaper pass of the same run; with the
    default of 7 days it is still listed and looked at.  And not every
    configured region is gone through: when the listing of the first
    region fails for another reason than OptInRequired, the run ends
    there and the second region is never scanned. *)
Lemma C8_fresh_image_is_considered :
  let a := Account.account [Account.plain] [] in
  let busy := {| Account.clock := Account.new_year_2024; Account.reservations := [];
                 Account.images := []; Account.counter := 0;
                 Account.faults := fun _ _ => Some Account.request_limit_exceeded |} in
  let two_regions := {| aws_regions := ["us-east-1"; "us-east-2"];
                        default_retention_time := 7;
                        global_key_to_tag_on := "AWSAutomatedDailySnapshots";
                        dry_run := false |} in
  Account.images a = []
  /\ api_calls (trace (lambda_handler Account.cloud (Account.one_region 0 false) a))
     = [ DescribeInstances ["backup"; "Backup"];
         CreateImage "i-def" "i-def-backup-2024-01-01-00-00-00.000000"
           "Automatic Backup of i-def from i-def" true false;
         CreateTags ["ami-0"]
           [ {| Key := "Backup"; Value := "yes" |};
             {| Key := "DeleteAfter"; Value := "01-01-2024" |};
             {| Key := "OriginalInstanceID"; Value := "i-def" |};
             {| Key := "AWSAutomatedDailySnapshots"; Value := "true" |} ];
         DescribeImages ["AWSAutomatedDailySnapshots"] ["self"];
         DeregisterImage "ami-0";
         DeleteSnapshot "snap-0" ]
  /\ In "  Found AMI to consider: ami-0"
        (printed (trace (lambda_handler Account.cloud (Account.one_region 7 false) a)))
  /\ trace (lambda_handler Account.cloud two_regions busy)
     = [ Print "Scanning region: us-east-1";
         Print "Scanning for instances with tags (backup,Backup)";
         Api "us-east-1" (DescribeInstances ["backup"; "Backup"])
           (Some Account.request_limit_exceeded) ].
Proof.
  vm_compute. repeat split. repeat (first [left; reflexivity | right]).
Qed.

(** C8, amended.  A run goes through the configured regions in order:
    for each it prints the line announcing it, runs the backup pass, and,
    only when that pass has returned, runs the reaper pass from the world
    the backup pass left, then goes on to the next region from the world
    the reaper pass left; the first pass that raises ends the run with its
    exception, after its own effects.  Every call of a backup pass is
    [describe_instances], [create_image] or [create_tags] on the client of
    its region, every call of a reaper pass is [describe_images],
    [deregister_image] or [delete_snapshot] on that client.  A backup pass
    whose listing succeeded returns normally and has gone through every
    instance kept, in order.  The reaper pass keeps no image out: with
    [dry_run] off, when the data of no image listed raises, its calls are
    those of the reaper's rule for every image that the listing returns,
    so an image created by the backup pass just before is deregistered as
    soon as its expiry date is not after today. *)
Theorem C8_passes_run_in_order {W} (cloud : Cloud W) (cfg : Config) :
  (forall w, region_by_region cloud cfg (aws_regions cfg) w (lambda_handler cloud cfg w))
  /\ (forall ec2 w,
        Forall (of_pass backup_call ec2)
          (trace (backup_tagged_instances_in_region cloud cfg ec2 w))
        /\ Forall (of_pass reaper_call ec2) (trace (delete_expired_amis cloud cfg ec2 w)))
  /\ (forall ec2 w rs w1,
        describe_instances cloud ec2 tags_to_find w = (Ok rs, w1) ->
        let run := backup_tagged_instances_in_region cloud cfg ec2 w in
        result run = Ok tt
        /\ instance_names_printed (trace run) = map instance_name (instances_of rs))
  /\ (forall ec2 w amis w1,
        dry_run cfg = false ->
        describe_images cloud ec2 [global_key_to_tag_on cfg] ["self"] w = (Ok amis, w1) ->
        clock_readable (now cloud w1) = true ->
        Forall readable amis ->
        api_calls (trace (delete_expired_amis cloud cfg ec2 w))
        = DescribeImages [global_key_to_tag_on cfg] ["self"]
          :: flat_map (reap_calls (Py.dt_date (now cloud w1))) amis).
Proof.
  repeat apply conj.
  - intros w. unfold lambda_handler. apply region_by_region_for_each.
  - intros ec2 w. split; [apply backup_pass_of_pass | apply reaper_pass_of_pass].
  - intros ec2 w rs w1 Hlist. apply (backup_pass_names cloud cfg ec2 w rs w1 Hlist).
  - intros ec2 w amis w1 Hdry Hlist Hclock Hread.
    apply (reaper_pass_calls cloud cfg ec2 w amis w1 Hdry Hlist Hclock Hread).
Qed.

(** A run over one region with a default retention of 0 days: the backup
    pass goes through the one instance, and the reaper pass, started from
    the account the backup pass left, deletes the image just created. *)
Lemma C8_passes_run_in_order_witness :
  let cfg := Account.one_region 0 false in
  let a := Account.account [Account.plain] [] in
  let backup := backup_tagged_instances_in_region Account.cloud cfg "us-east-1" a in
  let fresh :=
    {| ImageId := "ami-0";
       ImageTags := [ {| Key := "Backup"; Value := "yes" |};
                      {| Key := "DeleteAfter"; Value := "01-01-2024" |};
                      {| Key := "OriginalInstanceID"; Value := "i-def" |};
                      {| Key := "AWSAutomatedDailySnapshots"; Value := "true" |} ];
       BlockDeviceMappings := [ {| Ebs := Some {| SnapshotId := Some "snap-0" |} |} ] |} in
  (result backup = Ok tt /\ instance_names_printed (trace backup) = ["i-def"])
  /\ Account.images (world_after backup) = [("us-east-1", fresh)]
  /\ api_calls (trace (delete_expired_amis Account.cloud cfg "us-east-1" (world_after backup)))
     = [ DescribeImages ["AWSAutomatedDailySnapshots"] ["self"];
         DeregisterImage "ami-0"; DeleteSnapshot "snap-0" ].
Proof.
  intros cfg a backup fresh.
  destruct (C8_passes_run_in_order Account.cloud cfg) as (_ & _ & Hbackup & Hreaper).
  repeat apply conj.
  - exact (proj1 (Hbackup "us-east-1" a [ {| Instances := [Account.plain] |} ] a eq_refl)).
  - exact (proj2 (Hbackup "us-east-1" a [ {| Instances := [Account.plain] |} ] a eq_refl)).
  - vm_compute. reflexivity.
  - assert (Hlist : describe_images Account.cloud "us-east-1"
                      [global_key_to_tag_on cfg] ["self"] (world_after backup)
                    = (Ok [fresh], world_after backup)) by (vm_compute; reflexivity).
    assert (Hread : Forall readable [fresh]).
    { constructor; [| constructor]. split; [| reflexivity].
      right; eexists; vm_compute; reflexivity. }
    refine (eq_trans (Hreaper "us-east-1" (world_after backup) [fresh] (world_after backup)
                        eq_refl Hlist _ Hread) _).
    + vm_compute. reflexivity.
    + vm_compute. reflexivity.
Defined.

(* ===================================================================== *)
(** * The calendar: ordinals and dates *)
(* ===================================================================== *)

Module CalFacts.
Import Py.

Lemma month_day_checked (leap : bool) (n : Z) :
  0 <= n < 365 + (if leap then 1 else 0) ->
  Cal.month_day_ok leap (Z.to_nat n) = true.
Proof.
  intros Hn.
  assert (Hall : forallb (fun k => Cal.month_day_ok true k && Cal.month_day_ok false k
                                   || (364 <? Z.of_nat k) && Cal.month_day_ok true k)
                   (seq 0 366) = true) by (vm_compute; reflexivity).
  rewrite List.forallb_forall in Hall.
  specialize (Hall (Z.to_nat n)).
  assert (Hin : In (Z.to_nat n) (seq 0 366)) by (apply List.in_seq; destruct leap; lia).
  apply Hall in Hin. clear Hall.
  apply orb_true_iff in Hin. destruct Hin as [Hin | Hin];
    apply andb_true_iff in Hin; destruct Hin as [H1 H2].
  - destruct leap; assumption.
  - destruct leap; [assumption |]. apply Z.ltb_lt in H1. lia.
Qed.

Lemma month_step_checked (leap : bool) (m : Z) :
  1 <= m <= 12 -> Cal.month_step_ok leap (Z.to_nat (m - 1)) = true.
Proof.
  intros Hm.
  assert (Hall : forallb (fun k => Cal.month_step_ok true k && Cal.month_step_ok false k)
                   (seq 0 12) = true) by (vm_compute; reflexivity).
  rewrite List.forallb_forall in Hall.
  specialize (Hall (Z.to_nat (m - 1))).
  assert (Hin : In (Z.to_nat (m - 1)) (seq 0 12)) by (apply List.in_seq; lia).
  apply Hall in Hin. apply andb_true_iff in Hin. destruct leap; tauto.
Qed.


Lemma is_leap_spec y :
  is_leap y = true <-> y mod 4 = 0 /\ (y mod 100 <> 0 \/ y mod 400 = 0).
Proof.
  unfold is_leap. rewrite andb_true_iff, orb_true_iff, negb_true_iff.
  rewrite !Z.eqb_eq, Z.eqb_neq. tauto.
Qed.

(** A year has 365 days, or 366 if it is a leap year. *)
Lemma days_before_year_step y :
  days_before_year (y + 1) = days_before_year y + 365 + (if is_leap y then 1 else 0).
Proof.
  unfold days_before_year. cbv zeta. replace (y + 1 - 1) with y by lia.
  destruct (is_leap y) eqn:Hleap.
  - apply is_leap_spec in Hleap. Z.div_mod_to_equations. lia.
  - assert (Hnot : ~ (y mod 4 = 0 /\ (y mod 100 <> 0 \/ y mod 400 = 0)))
      by (rewrite <- is_leap_spec; congruence).
    Z.div_mod_to_equations. lia.
Qed.

Lemma days_before_year_mono y1 y2 :
  y1 <= y2 -> days_before_year y1 <= days_before_year y2.
Proof. unfold days_before_year. cbv zeta. intros Hle. Z.div_mod_to_equations. lia. Qed.

Lemma days_in_month_leap y m : days_in_month y m = Cal.days_in (is_leap y) m.
Proof. reflexivity. Qed.

Lemma days_before_month_leap y m : days_before_month y m = Cal.days_before (is_leap y) m.
Proof. reflexivity. Qed.

Lemma month_step (leap : bool) (m : Z) :
  1 <= m <= 12 ->
  1 <= Cal.days_in leap m
  /\ (m < 12 -> Cal.days_before leap m + Cal.days_in leap m = Cal.days_before leap (m + 1))
  /\ (m = 12 ->
      Cal.days_before leap m + Cal.days_in leap m = 365 + (if leap then 1 else 0)).
Proof.
  intros Hm. pose proof (month_step_checked leap m Hm) as Hok.
  unfold Cal.month_step_ok in Hok. cbv zeta in Hok.
  replace (Z.of_nat (Z.to_nat (m - 1)) + 1) with m in Hok by lia.
  apply andb_true_iff in Hok. destruct Hok as [H1 H2]. apply Z.leb_le in H1.
  split; [exact H1 |].
  destruct (Z.eqb_spec m 12) as [-> | Hne].
  - apply Z.eqb_eq in H2. split; [lia | intros _; exact H2].
  - apply Z.eqb_eq in H2. split; [intros _; exact H2 | lia].
Qed.

(** The months of a year follow one another. *)
Lemma days_before_later_month (leap : bool) (m1 m2 : Z) :
  1 <= m1 -> m1 < m2 -> m2 <= 12 ->
  Cal.days_before leap m1 + Cal.days_in leap m1 <= Cal.days_before leap m2.
Proof.
  intros H1 Hlt H2.
  remember (Z.to_nat (m2 - m1 - 1)) as k eqn:Hk.
  assert (Hm2 : m2 = m1 + 1 + Z.of_nat k) by lia.
  clear Hk Hlt. subst m2. revert H2.
  induction k as [| k IH]; intros H2.
  - replace (m1 + 1 + Z.of_nat 0) with (m1 + 1) by lia.
    destruct (month_step leap m1) as (_ & Hstep & _); lia.
  - assert (IH' := IH ltac:(lia)).
    destruct (month_step leap (m1 + 1 + Z.of_nat k)) as (Hpos & Hstep & _); [lia |].
    replace (m1 + 1 + Z.of_nat (S k)) with (m1 + 1 + Z.of_nat k + 1) by lia.
    lia.
Qed.

Lemma days_before_first_month (leap : bool) : Cal.days_before leap 1 = 0.
Proof. destruct leap; reflexivity. Qed.

(** Within a year: a day of a month is between 1 and the length of the year. *)
Lemma day_of_year_bounds (leap : bool) (m d : Z) :
  1 <= m <= 12 -> 1 <= d <= Cal.days_in leap m ->
  1 <= Cal.days_before leap m + d <= 365 + (if leap then 1 else 0).
Proof.
  intros Hm Hd. split.
  - destruct (Z.eq_dec m 1) as [-> | Hne].
    + rewrite days_before_first_month. lia.
    + pose proof (days_before_later_month leap 1 m) as Hlater.
      rewrite days_before_first_month in Hlater.
      destruct (month_step leap 1) as (Hpos & _); lia.
  - destruct (Z.eq_dec m 12) as [-> | Hne].
    + destruct (month_step leap 12) as (_ & _ & Hend); lia.
    + pose proof (days_before_later_month leap m 12) as Hlater.
      destruct (month_step leap 12) as (Hpos & _ & Hend); lia.
Qed.

(** The ordinal of a valid date is between 1 and [MAXORDINAL]. *)
Lemma ymd2ord_bounds d :
  valid_date d = true -> 1 <= ymd2ord d <= MAXORDINAL.
Proof.
  intros Hvalid. destruct (PyFacts.valid_date_bounds d Hvalid) as (Hy & Hm & Hd).
  unfold ymd2ord. rewrite days_before_month_leap. rewrite days_in_month_leap in Hd.
  pose proof (day_of_year_bounds (is_leap (year d)) (month d) (day d) Hm Hd) as Hday.
  pose proof (days_before_year_mono 1 (year d) ltac:(lia)) as Hlow.
  pose proof (days_before_year_mono (year d + 1) 10000 ltac:(lia)) as Hhigh.
  rewrite days_before_year_step in Hhigh.
  change (days_before_year 1) with 0 in Hlow.
  change (days_before_year 10000) with 3652059 in Hhigh.
  unfold MAXORDINAL. destruct (is_leap (year d)); lia.
Qed.

(** Calendar order is the order of the ordinals. *)
Lemma date_ltb_ymd2ord a b :
  valid_date a = true -> valid_date b = true ->
  date_ltb a b = (ymd2ord a <? ymd2ord b).
Proof.
  intros Ha Hb.
  destruct (PyFacts.valid_date_bounds a Ha) as (Hya & Hma & Hda).
  destruct (PyFacts.valid_date_bounds b Hb) as (Hyb & Hmb & Hdb).
  rewrite days_in_month_leap in Hda, Hdb.
  pose proof (day_of_year_bounds _ _ _ Hma Hda) as Hdaya.
  pose proof (day_of_year_bounds _ _ _ Hmb Hdb) as Hdayb.
  unfold date_ltb, ymd2ord. rewrite !days_before_month_leap.
  destruct (Z.ltb_spec (year a) (year b)) as [Hy | Hy].
  - cbn [orb]. symmetry. apply Z.ltb_lt.
    pose proof (days_before_year_mono (year a + 1) (year b) ltac:(lia)) as Hmono.
    rewrite days_before_year_step in Hmono.
    destruct (is_leap (year a)); lia.
  - cbn [orb]. destruct (Z.eqb_spec (year a) (year b)) as [Heq | Hne].
    + cbn [andb]. rewrite Heq in *.
      destruct (Z.ltb_spec (month a) (month b)) as [Hm | Hm].
      * cbn [orb]. symmetry. apply Z.ltb_lt.
        pose proof (days_before_later_month (is_leap (year b)) (month a) (month b)
                      ltac:(lia) Hm ltac:(lia)).
        lia.
      * cbn [orb]. destruct (Z.eqb_spec (month a) (month b)) as [Hmeq | Hmne].
        -- cbn [andb]. rewrite Hmeq.
           destruct (Z.ltb_spec (day a) (day b)); symmetry;
             [apply Z.ltb_lt | apply Z.ltb_ge]; lia.
        -- cbn [andb]. symmetry. apply Z.ltb_ge.
           pose proof (days_before_later_month (is_leap (year b)) (month b) (month a)
                         ltac:(lia) ltac:(lia) ltac:(lia)).
           lia.
    + cbn [andb]. symmetry. apply Z.ltb_ge.
      pose proof (days_before_year_mono (year b + 1) (year a) ltac:(lia)) as Hmono.
      rewrite days_before_year_step in Hmono.
      destruct (is_leap (year b)); lia.
Qed.



(** [ord2ymd], with its end written with [Cal.month_day]. *)
Lemma ord2ymd_unfold ordinal :
  ord2ymd ordinal
  = let n := ordinal - 1 in
    let n400 := n / DI400Y in
    let n := n mod DI400Y in
    let n100 := n / DI100Y in
    let n := n mod DI100Y in
    let n4 := n / DI4Y in
    let n := n mod DI4Y in
    let n1 := n / 365 in
    let n := n mod 365 in
    let y := n400 * 400 + 1 + n100 * 100 + n4 * 4 + n1 in
    if (n1 =? 4) || (n100 =? 4) then {| year := y - 1; month := 12; day := 31 |}
    else
      let md := Cal.month_day ((n1 =? 3) && (negb (n4 =? 24) || (n100 =? 3))) n in
      {| year := y; month := md.1; day := md.2 |}.
Proof.
  unfold ord2ymd, Cal.month_day. cbv zeta.
  destruct (_ || _); [reflexivity |].
  destruct (_ >? _); reflexivity.
Qed.

(** The pieces an ordinal is cut into: 400-year cycles, centuries,
    4-year cycles, years, and the day of the year. *)
Lemma ordinal_pieces n :
  0 <= n <= 3652058 ->
  exists a b c d r,
    n / DI400Y = a /\ (n mod DI400Y) / DI100Y = b
    /\ ((n mod DI400Y) mod DI100Y) / DI4Y = c
    /\ (((n mod DI400Y) mod DI100Y) mod DI4Y) / 365 = d
    /\ (((n mod DI400Y) mod DI100Y) mod DI4Y) mod 365 = r
    /\ n = 146097 * a + 36524 * b + 1461 * c + 365 * d + r
    /\ 0 <= a <= 24 /\ 0 <= b <= 4 /\ 0 <= c <= 24 /\ 0 <= d <= 4 /\ 0 <= r <= 364
    /\ (b = 4 -> c = 0 /\ d = 0 /\ r = 0)
    /\ (d = 4 -> r = 0 /\ c <= 23)
    /\ 400 * a + 100 * b + 4 * c + d <= 9999.
Proof.
  intros Hn. unfold DI400Y, DI100Y, DI4Y.
  do 5 eexists. repeat (split; [reflexivity |]).
  Z.div_mod_to_equations. lia.
Qed.


Lemma days_before_year_pieces a b c d :
  0 <= a -> 0 <= b <= 3 -> 0 <= c <= 24 -> 0 <= d <= 3 ->
  days_before_year (400 * a + 100 * b + 4 * c + d + 1)
  = 146097 * a + 36524 * b + 1461 * c + 365 * d.
Proof.
  intros Ha Hb Hc Hd. unfold days_before_year. cbv zeta.
  Z.div_mod_to_equations. lia.
Qed.

Lemma is_leap_pieces a b c d :
  0 <= a -> 0 <= b <= 3 -> 0 <= c <= 24 -> 0 <= d <= 3 ->
  is_leap (400 * a + 100 * b + 4 * c + d + 1)
  = (d =? 3) && (negb (c =? 24) || (b =? 3)).
Proof.
  intros Ha Hb Hc Hd. apply eq_true_iff_eq.
  rewrite is_leap_spec, andb_true_iff, orb_true_iff, negb_true_iff.
  rewrite !Z.eqb_eq, Z.eqb_neq.
  Z.div_mod_to_equations. lia.
Qed.

(** The date of an ordinal is a valid date, and its ordinal is the
    ordinal. *)
Lemma ord2ymd_spec o :
  1 <= o <= MAXORDINAL ->
  valid_date (ord2ymd o) = true /\ ymd2ord (ord2ymd o) = o.
Proof.
  unfold MAXORDINAL. intros Ho.
  destruct (ordinal_pieces (o - 1) ltac:(lia))
    as (a & b & c & d & r & Ha & Hb & Hc & Hd & Hr & Hn & Ba & Bb & Bc & Bd & Br
        & Hb4 & Hd4 & Hmax).
  rewrite ord2ymd_unfold. cbv zeta. rewrite Ha, Hb, Hc, Hd, Hr. clear Ha Hb Hc Hd Hr.
  replace (a * 400 + 1 + b * 100 + c * 4 + d) with (400 * a + 100 * b + 4 * c + d + 1)
    by lia.
  destruct ((d =? 4) || (b =? 4)) eqn:Hlast.
  - (* the last day of a leap year *)
    apply orb_true_iff in Hlast. rewrite !Z.eqb_eq in Hlast.
    assert (Hleap : is_leap (400 * a + 100 * b + 4 * c + d + 1 - 1) = true).
    { apply is_leap_spec. Z.div_mod_to_equations. lia. }
    split.
    + unfold valid_date, MINYEAR, MAXYEAR, days_in_month. cbn [year month day].
      change (12 =? 2) with false. cbn [andb nth Z.to_nat Pos.to_nat Pos.iter_op Nat.add
                                        DAYS_IN_MONTH].
      rewrite !andb_true_iff, !Z.leb_le.
      repeat split; try lia; reflexivity.
    + unfold ymd2ord, days_before_month. cbn [year month day]. rewrite Hleap.
      change (12 >? 2) with true. cbn [andb].
      change (nth (Z.to_nat 12) DAYS_BEFORE_MONTH 0) with 334.
      unfold days_before_year. cbv zeta. Z.div_mod_to_equations. lia.
  - apply orb_false_iff in Hlast. rewrite !Z.eqb_neq in Hlast.
    assert (Bb' : 0 <= b <= 3) by lia. assert (Bd' : 0 <= d <= 3) by lia.
    rewrite <- (is_leap_pieces a b c d) by lia.
    set (y := 400 * a + 100 * b + 4 * c + d + 1).
    pose proof (month_day_checked (is_leap y) r
                  ltac:(destruct (is_leap y); lia)) as Hok.
    unfold Cal.month_day_ok in Hok. rewrite Z2Nat.id in Hok by lia.
    destruct (Cal.month_day (is_leap y) r) as [m dd].
    rewrite !andb_true_iff, !Z.leb_le, Z.eqb_eq in Hok.
    destruct Hok as ((((Hm1 & Hm2) & Hd1) & Hd2) & Hsum).
    cbn [fst snd]. split.
    + unfold valid_date, MINYEAR, MAXYEAR. cbn [year month day].
      rewrite days_in_month_leap.
      rewrite !andb_true_iff, !Z.leb_le. subst y. repeat split; lia.
    + unfold ymd2ord. cbn [year month day]. rewrite days_before_month_leap.
      subst y. rewrite days_before_year_pieces by lia. lia.
Qed.

(** Valid dates with the same ordinal are the same date. *)
Lemma ymd2ord_inj a b :
  valid_date a = true -> valid_date b = true -> ymd2ord a = ymd2ord b -> a = b.
Proof.
  intros Ha Hb Hord.
  pose proof (date_ltb_ymd2ord a b Ha Hb) as H1.
  pose proof (date_ltb_ymd2ord b a Hb Ha) as H2.
  rewrite Hord, Z.ltb_irrefl in H1, H2. clear Ha Hb Hord.
  unfold date_ltb in H1, H2.
  destruct a as [y m d], b as [y' m' d']. cbn [year month day] in *.
  destruct (Z.ltb_spec y y'); [discriminate H1 |].
  destruct (Z.ltb_spec y' y); [discriminate H2 |].
  assert (y' = y) by lia. subst y'. rewrite Z.eqb_refl in H1, H2. cbn [orb andb] in H1, H2.
  destruct (Z.ltb_spec m m'); [discriminate H1 |].
  destruct (Z.ltb_spec m' m); [discriminate H2 |].
  assert (m' = m) by lia. subst m'. rewrite Z.eqb_refl in H1, H2. cbn [orb andb] in H1, H2.
  apply Z.ltb_ge in H1, H2. f_equal. lia.
Qed.

(** A valid date is the date of its ordinal. *)
Lemma ord2ymd_ymd2ord d : valid_date d = true -> ord2ymd (ymd2ord d) = d.
Proof.
  intros Hvalid. pose proof (ymd2ord_bounds d Hvalid) as Hbounds.
  destruct (ord2ymd_spec (ymd2ord d) Hbounds) as [Hvalid' Hord].
  apply ymd2ord_inj; assumption.
Qed.

(** Adding days to a valid date: the result, when there is one, is the
    valid date whose ordinal is that many days later. *)
Lemma date_add_spec d n d' :
  valid_date d = true ->
  date_add d n = Ok d' ->
  valid_date d' = true /\ ymd2ord d' = ymd2ord d + n.
Proof.
  intros Hvalid. unfold date_add. cbv zeta.
  destruct (_ && _) eqn:Hrange; [| discriminate].
  intros [= <-]. apply andb_true_iff in Hrange. destruct Hrange as [Hlo Hhi].
  apply Z.ltb_lt in Hlo. apply Z.leb_le in Hhi.
  apply ord2ymd_spec. lia.
Qed.

Lemma date_add_zero d : valid_date d = true -> date_add d 0 = Ok d.
Proof.
  intros Hvalid. pose proof (ymd2ord_bounds d Hvalid) as Hb.
  unfold date_add. cbv zeta. rewrite Z.add_0_r.
  destruct (Z.ltb_spec 0 (ymd2ord d)); [| lia].
  destruct (Z.leb_spec (ymd2ord d) MAXORDINAL); [| lia].
  cbn [andb]. rewrite ord2ymd_ymd2ord by exact Hvalid. reflexivity.
Qed.

End CalFacts.

(* ===================================================================== *)
(** * From the tags written to the expiry read *)
(* ===================================================================== *)

Section TagsWrittenAndRead.

Context {W : Type} (cloud : Cloud W) (cfg : Config).

(** The renaming leaves the value of a tag alone, and never makes or
    unmakes a [DeleteAfter] key. *)
Lemma sanitize_tag_value item : Value (sanitize_tag item) = Value item.
Proof. unfold sanitize_tag. destruct (Py.startswith _ _); reflexivity. Qed.

Lemma sanitize_tag_delete_after item :
  Key (sanitize_tag item) = "DeleteAfter" <-> Key item = "DeleteAfter".
Proof.
  unfold sanitize_tag. destruct (Py.startswith (Key item) "aws:") eqn:Hres; [| tauto].
  cbn [Key]. split; intros Hkey.
  - discriminate Hkey.
  - rewrite Hkey in Hres. discriminate Hres.
Qed.

Lemma delete_after_values_sanitized tags :
  map Value (filter (fun t => Key t = "DeleteAfter") (map sanitize_tag tags))
  = map Value (filter (fun t => Key t = "DeleteAfter") tags).
Proof.
  induction tags as [| item tags IH]; [reflexivity |].
  cbn [map]. rewrite !filter_cons.
  destruct (decide (Key (sanitize_tag item) = "DeleteAfter")) as [Hs | Hs];
    destruct (decide (Key item = "DeleteAfter")) as [Hi | Hi].
  - cbn [map]. rewrite sanitize_tag_value, IH. reflexivity.
  - exfalso. apply Hi. apply sanitize_tag_delete_after. exact Hs.
  - exfalso. apply Hs. apply sanitize_tag_delete_after. exact Hi.
  - exact IH.
Qed.

(** The [DeleteAfter] values of an image that carries the tags written
    for an instance: those of the instance, in order, then the expiry
    written, then "true" if the marker key is itself "DeleteAfter". *)
Lemma delete_after_values_image_tags instance expiry ami :
  ImageTags ami = image_tags cfg instance expiry ->
  delete_after_values ami
  = map Value (filter (fun t => Key t = "DeleteAfter") (Tags instance))
    ++ Py.strftime_mdY expiry
       :: (if decide (global_key_to_tag_on cfg = "DeleteAfter") then ["true"] else []).
Proof.
  intros Htags. unfold delete_after_values. rewrite Htags. unfold image_tags.
  rewrite delete_after_values_sanitized. rewrite filter_app, map_app. f_equal.
  unfold appended_tags. rewrite !filter_cons, filter_nil. cbn [Key].
  destruct (decide ("DeleteAfter" = "DeleteAfter")) as [_ | Hne]; [| contradiction].
  destruct (decide ("OriginalInstanceID" = "DeleteAfter")) as [Heq | _]; [discriminate |].
  destruct (decide (global_key_to_tag_on cfg = "DeleteAfter")); reflexivity.
Qed.

End TagsWrittenAndRead.

Section ExpiryRoundTrip.

Context {W : Type} (cloud : Cloud W) (cfg : Config).

(** [timedelta] accepts the retention only when it is the default. *)
Lemma timedelta_retention_days instance days :
  Py.timedelta (retention_days cfg instance) = Ok days ->
  retention_days cfg instance = Py.DaysInt (default_retention_time cfg)
  /\ days = default_retention_time cfg.
Proof.
  unfold retention_days.
  destruct (dict_tags (Tags instance) !! "Retention") as [r |];
    [destruct (Py.truthy r) |]; cbn [Py.timedelta];
    try discriminate;
    (destruct (_ && _); [| discriminate]); intros [= <-]; split; reflexivity.
Qed.

(** A [create_tags] call is only made with [dry_run] off. *)
Lemma create_tags_only_live ec2 instance w region resources tags failure :
  In (Api region (CreateTags resources tags) failure)
     (trace (backup_instance cloud cfg ec2 instance w)) ->
  dry_run cfg = false.
Proof.
  intros Hcall. destruct (dry_run cfg) eqn:Hdry; [| reflexivity].
  rewrite (backup_instance_dry cloud cfg ec2 instance w Hdry) in Hcall.
  unfold trace in Hcall. cbn [snd] in Hcall. in_cases Hcall; discriminate Hcall.
Qed.

Lemma date_of_struct_time_of_date d :
  Py.date_of_struct_time (Py.struct_time_of_date d) = d.
Proof. destruct d. reflexivity. Qed.

Lemma no_delete_after_values (tags : list Tag) :
  (forall item, In item tags -> Key item <> "DeleteAfter") ->
  filter (fun t => Key t = "DeleteAfter") tags = [].
Proof.
  intros Hnone. induction tags as [| item tags IH]; [reflexivity |].
  rewrite filter_cons. destruct (decide (Key item = "DeleteAfter")) as [Hkey | _].
  - exfalso. apply (Hnone item); [left; reflexivity | exact Hkey].
  - apply IH. intros i Hi. apply Hnone. right. exact Hi.
Qed.

End ExpiryRoundTrip.

(** What an image carrying the tags of a [create_tags] call decodes to,
    for an instance without [DeleteAfter] tag. *)
Lemma written_expiry_decodes {W} (cloud : Cloud W) (cfg : Config)
    ec2 instance w region resources tags failure ami :
  (forall image w1,
     create_image cloud ec2 (InstanceId instance) (image_name instance (now cloud w))
       (image_description instance) w = (Ok image, w1) ->
     Py.valid_date (Py.dt_date (now cloud w1)) = true) ->
  In (Api region (CreateTags resources tags) failure)
     (trace (backup_instance cloud cfg ec2 instance w)) ->
  (forall item, In item (Tags instance) -> Key item <> "DeleteAfter") ->
  ImageTags ami = tags ->
  exists image w1 expiry,
    create_image cloud ec2 (InstanceId instance) (image_name instance (now cloud w))
      (image_description instance) w = (Ok image, w1)
    /\ resources = [image]
    /\ Py.valid_date expiry = true
    /\ Py.ymd2ord expiry
       = Py.ymd2ord (Py.dt_date (now cloud w1)) + default_retention_time cfg
    /\ (exists others, delete_after_values ami = Py.strftime_mdY expiry :: others)
    /\ (1000 <= Py.year expiry -> expiry_of ami = Some expiry)
    /\ (Py.year expiry < 1000 -> expiry_of ami = None).
Proof.
  intros Hclock Hcall Hnone Htags.
  destruct (backup_instance_create_tags cloud cfg ec2 instance w _ _ _ _ Hcall)
    as (image & w1 & days & expiry & Hcreate & Hdays & Hexpiry & Hres & Hshape).
  destruct (timedelta_retention_days cfg instance days Hdays) as [_ ->].
  destruct (CalFacts.date_add_spec _ _ _ (Hclock image w1 Hcreate) Hexpiry)
    as [Hvalid Hord].
  assert (Hvalues :
            delete_after_values ami
            = Py.strftime_mdY expiry
              :: (if decide (global_key_to_tag_on cfg = "DeleteAfter")
                  then ["true"] else [])).
  { rewrite (delete_after_values_image_tags cfg instance expiry ami)
      by (rewrite Htags; exact Hshape).
    rewrite (no_delete_after_values (Tags instance) Hnone). reflexivity. }
  exists image, w1, expiry. repeat apply conj; try assumption.
  - eexists. exact Hvalues.
  - intros Hlate. unfold expiry_of.
    rewrite Hvalues, (PyFacts.strptime_strftime_mdY expiry Hvalid Hlate).
    rewrite date_of_struct_time_of_date. reflexivity.
  - intros Hearly. unfold expiry_of.
    rewrite Hvalues, (PyFacts.strptime_strftime_mdY_short expiry Hvalid Hearly).
    reflexivity.
Qed.


(** X1. The expiry date written is the expiry date read, from the year
    1000 on.  When the backup pass tags the image of an instance that has
    no [DeleteAfter] tag of its own, and the clock shows a valid date when
    the image has been created, the value written is that of the day of
    tagging plus the default retention, counted in days.  An image
    carrying the tags of that call decodes, with the reaper's own
    decoding, to that date when it lies in the year 1000 or later; before
    the year 1000 the year is written with fewer than four digits, which
    the reaper's [strptime] refuses, and no expiry date is read. *)
Theorem X1_expiry_written_is_expiry_read {W} (cloud : Cloud W) (cfg : Config)
    ec2 instance w region resources tags failure ami :
  (forall image w1,
     create_image cloud ec2 (InstanceId instance) (image_name instance (now cloud w))
       (image_description instance) w = (Ok image, w1) ->
     Py.valid_date (Py.dt_date (now cloud w1)) = true) ->
  In (Api region (CreateTags resources tags) failure)
     (trace (backup_instance cloud cfg ec2 instance w)) ->
  (forall item, In item (Tags instance) -> Key item <> "DeleteAfter") ->
  ImageTags ami = tags ->
  exists image w1 expiry,
    create_image cloud ec2 (InstanceId instance) (image_name instance (now cloud w))
      (image_description instance) w = (Ok image, w1)
    /\ resources = [image]
    /\ Py.valid_date expiry = true
    /\ Py.ymd2ord expiry
       = Py.ymd2ord (Py.dt_date (now cloud w1)) + default_retention_time cfg
    /\ (exists others, delete_after_values ami = Py.strftime_mdY expiry :: others)
    /\ (1000 <= Py.year expiry -> expiry_of ami = Some expiry)
    /\ (Py.year expiry < 1000 -> expiry_of ami = None).
Proof.
  apply written_expiry_decodes.
Qed.

(** The instance with a marker tag only, backed up on 1 January 2024 with
    a retention of 7 days: its image reads 8 January 2024. *)
Lemma X1_expiry_written_is_expiry_read_witness :
  let cfg := Account.one_region 7 false in
  let a := Account.account [Account.plain] [] in
  let tags := image_tags cfg Account.plain {| Py.year := 2024; Py.month := 1; Py.day := 8 |} in
  let ami := {| ImageId := "ami-0"; ImageTags := tags;
                BlockDeviceMappings := [ {| Ebs := Some {| SnapshotId := Some "snap-0" |} |} ] |} in
  exists image w1 expiry,
    create_image Account.cloud "us-east-1" "i-def"
      (image_name Account.plain (now Account.cloud a))
      (image_description Account.plain) a = (Ok image, w1)
    /\ ["ami-0"] = [image]
    /\ Py.valid_date expiry = true
    /\ Py.ymd2ord expiry = Py.ymd2ord (Py.dt_date (now Account.cloud w1)) + 7
    /\ (exists others, delete_after_values ami = Py.strftime_mdY expiry :: others)
    /\ (1000 <= Py.year expiry -> expiry_of ami = Some expiry)
    /\ (Py.year expiry < 1000 -> expiry_of ami = None).
Proof.
  intros cfg a tags ami.
  apply (X1_expiry_written_is_expiry_read Account.cloud cfg "us-east-1" Account.plain a
           "us-east-1" ["ami-0"] tags None ami).
  - intros image w1 Hcreate. vm_compute in Hcreate. injection Hcreate as _ <-. reflexivity.
  - vm_compute. repeat (first [left; reflexivity | right]).
  - intros item [<- | []]. discriminate.
  - reflexivity.
Defined.

(** X2. A [DeleteAfter] tag of the instance takes precedence.  When the
    instance already carries tags keyed [DeleteAfter], an image carrying
    the tags of a [create_tags] call made for it has the value of the
    first of them as its first [DeleteAfter] value, before the expiry just
    computed; the reaper, which reads the first value only, decides on the
    instance's own value (and raises if that value does not parse). *)
Theorem X2_copied_expiry_takes_precedence {W} (cloud : Cloud W) (cfg : Config)
    ec2 instance w region resources tags failure ami item rest :
  In (Api region (CreateTags resources tags) failure)
     (trace (backup_instance cloud cfg ec2 instance w)) ->
  ImageTags ami = tags ->
  filter (fun t => Key t = "DeleteAfter") (Tags instance) = item :: rest ->
  (exists expiry others,
     delete_after_values ami
     = Value item :: map Value rest ++ Py.strftime_mdY expiry :: others)
  /\ expiry_of ami
     = match Py.strptime_mdY (Value item) with
       | Ok st => Some (Py.date_of_struct_time st)
       | Raise _ => None
       end
  /\ (forall today_date w' e,
        Py.strptime_mdY (Value item) = Raise e ->
        result (consider_ami cloud cfg ec2 today_date ami w') = Raise e).
Proof.
  intros Hcall Htags Hown.
  destruct (backup_instance_create_tags cloud cfg ec2 instance w _ _ _ _ Hcall)
    as (image & w1 & days & expiry & _ & _ & _ & _ & Hshape).
  assert (Hvalues :
            delete_after_values ami
            = Value item
              :: map Value rest
                 ++ Py.strftime_mdY expiry
                    :: (if decide (global_key_to_tag_on cfg = "DeleteAfter")
                        then ["true"] else [])).
  { rewrite (delete_after_values_image_tags cfg instance expiry ami)
      by (rewrite Htags; exact Hshape).
    rewrite Hown. reflexivity. }
  repeat apply conj.
  - eexists _, _. exact Hvalues.
  - unfold expiry_of. rewrite Hvalues. reflexivity.
  - intros today_date w' e He.
    rewrite (consider_ami_undecodable cloud cfg ec2 today_date ami w' _ _ e Hvalues He).
    reflexivity.
Qed.

(** The instance of the autoscaling group carries DeleteAfter=12-31-2023:
    its image, tagged on 1 January 2024, reads 31 December 2023. *)
Lemma X2_copied_expiry_takes_precedence_witness :
  let cfg := Account.one_region 7 false in
  let a := Account.account [Account.scaled] [] in
  let tags := image_tags cfg Account.scaled {| Py.year := 2024; Py.month := 1; Py.day := 8 |} in
  let ami := {| ImageId := "ami-0"; ImageTags := tags;
                BlockDeviceMappings := [ {| Ebs := Some {| SnapshotId := Some "snap-0" |} |} ] |} in
  expiry_of ami = Some {| Py.year := 2023; Py.month := 12; Py.day := 31 |}.
Proof.
  intros cfg a tags ami.
  assert (Hcall : In (Api "us-east-1" (CreateTags ["ami-0"] tags) None)
                     (trace (backup_instance Account.cloud cfg "us-east-1"
                               Account.scaled a)))
    by (vm_compute; repeat (first [left; reflexivity | right])).
  pose proof (X2_copied_expiry_takes_precedence Account.cloud cfg "us-east-1"
                Account.scaled a _ _ _ _ ami
                {| Key := "DeleteAfter"; Value := "12-31-2023" |} [] Hcall eq_refl eq_refl)
    as (_ & Hexpiry & _).
  rewrite Hexpiry. reflexivity.
Defined.

(** X3. How long a tagged image lives.  In the situation of X1, when the
    expiry date written lies in the year 1000 or later, on any valid day
    [today] the reaper makes no call for the image while [today] is fewer
    than the default retention days after the day of tagging, and from
    that day on deregisters it and then deletes the snapshots it finds;
    in particular a retention of 0 days or less has the image deleted by a
    reaper that runs on the day of tagging.  When the expiry date written
    lies before the year 1000 the reaper makes no call for the image and
    raises the [ValueError] of [strptime]. *)
Theorem X3_tagged_image_lives_for_the_retention {W} (cloud : Cloud W) (cfg : Config)
    ec2 instance w region resources tags failure ami today w' :
  (forall image w1,
     create_image cloud ec2 (InstanceId instance) (image_name instance (now cloud w))
       (image_description instance) w = (Ok image, w1) ->
     Py.valid_date (Py.dt_date (now cloud w1)) = true) ->
  In (Api region (CreateTags resources tags) failure)
     (trace (backup_instance cloud cfg ec2 instance w)) ->
  (forall item, In item (Tags instance) -> Key item <> "DeleteAfter") ->
  ImageTags ami = tags ->
  Py.valid_date today = true ->
  exists image w1 expiry,
    let run := consider_ami cloud cfg ec2 (Py.struct_time_of_date today) ami w' in
    create_image cloud ec2 (InstanceId instance) (image_name instance (now cloud w))
      (image_description instance) w = (Ok image, w1)
    /\ Py.date_add (Py.dt_date (now cloud w1)) (default_retention_time cfg) = Ok expiry
    /\ (1000 <= Py.year expiry ->
        api_calls (trace run)
        = (if Py.ymd2ord today
              <? Py.ymd2ord (Py.dt_date (now cloud w1)) + default_retention_time cfg
           then []
           else DeregisterImage (ImageId ami) :: map DeleteSnapshot (snapshots_found ami))
        /\ (is_ok (snapshots ami) = true -> result run = Ok tt))
    /\ (Py.year expiry < 1000 ->
        api_calls (trace run) = []
        /\ result run
           = Raise (Py.ValueError ("time data '" +:+ Py.strftime_mdY expiry
                                   +:+ "' does not match format '%m-%d-%Y'"))).
Proof.
  intros Hclock Hcall Hnone Htags Htoday.
  destruct (backup_instance_create_tags cloud cfg ec2 instance w _ _ _ _ Hcall)
    as (image0 & w0 & days & expiry0 & Hcreate0 & Hdays & Hadd & _ & _).
  destruct (timedelta_retention_days cfg instance days Hdays) as [_ ->].
  destruct (written_expiry_decodes cloud cfg ec2 instance w region resources tags failure ami
              Hclock Hcall Hnone Htags)
    as (image & w1 & expiry & Hcreate & _ & Hvalid & Hord & [others Hvalues] & Hlate & Hearly).
  rewrite Hcreate in Hcreate0. injection Hcreate0 as <- <-.
  assert (Hsame : expiry0 = expiry).
  { destruct (CalFacts.date_add_spec _ _ _ (Hclock image w1 Hcreate) Hadd) as [Hvalid0 Hord0].
    apply CalFacts.ymd2ord_inj; [assumption | assumption | lia]. }
  subst expiry0.
  exists image, w1, expiry. cbv zeta. repeat apply conj.
  - exact Hcreate.
  - exact Hadd.
  - intros Hyear. specialize (Hlate Hyear).
    assert (Hdec : decidable_expiry ami) by (right; rewrite Hlate; eexists; reflexivity).
    destruct (consider_ami_decided cloud cfg ec2 today ami w'
                (create_tags_only_live cloud cfg ec2 instance w _ _ _ _ Hcall) Hdec)
      as (Hcalls & _ & Hok & _).
    cbv zeta in Hcalls, Hok. split; [| exact Hok].
    rewrite Hcalls. unfold reap_calls. rewrite Hlate.
    rewrite (CalFacts.date_ltb_ymd2ord today expiry Htoday Hvalid), Hord. reflexivity.
  - intros Hyear.
    rewrite (consider_ami_undecodable cloud cfg ec2 _ ami w' _ _ _ Hvalues
               (PyFacts.strptime_strftime_mdY_short expiry Hvalid Hyear)).
    split; reflexivity.
Qed.

(** The image of the instance with a marker tag only, tagged on 1 January
    2024 with a retention of 7 days, is kept on 7 January and deleted on
    8 January. *)
Lemma X3_tagged_image_lives_for_the_retention_witness :
  let cfg := Account.one_region 7 false in
  let a := Account.account [Account.plain] [] in
  let tags := image_tags cfg Account.plain {| Py.year := 2024; Py.month := 1; Py.day := 8 |} in
  let ami := {| ImageId := "ami-0"; ImageTags := tags;
                BlockDeviceMappings := [ {| Ebs := Some {| SnapshotId := Some "snap-0" |} |} ] |} in
  api_calls (trace (consider_ami Account.cloud cfg "us-east-1"
                      (Py.struct_time_of_date {| Py.year := 2024; Py.month := 1; Py.day := 7 |})
                      ami a)) = []
  /\ api_calls (trace (consider_ami Account.cloud cfg "us-east-1"
                         (Py.struct_time_of_date
                            {| Py.year := 2024; Py.month := 1; Py.day := 8 |})
                         ami a))
     = [DeregisterImage "ami-0"; DeleteSnapshot "snap-0"].
Proof.
  intros cfg a tags ami.
  assert (Hclock : forall image w1,
             create_image Account.cloud "us-east-1" (InstanceId Account.plain)
               (image_name Account.plain (now Account.cloud a))
               (image_description Account.plain) a = (Ok image, w1) ->
             Py.valid_date (Py.dt_date (now Account.cloud w1)) = true).
  { intros image w1 Hcreate. vm_compute in Hcreate. injection Hcreate as _ <-.
    reflexivity. }
  assert (Hcall : In (Api "us-east-1" (CreateTags ["ami-0"] tags) None)
                     (trace (backup_instance Account.cloud cfg "us-east-1"
                               Account.plain a)))
    by (vm_compute; repeat (first [left; reflexivity | right])).
  assert (Hnone : forall item, In item (Tags Account.plain) -> Key item <> "DeleteAfter")
    by (intros item [<- | []]; discriminate).
  split.
  - destruct (X3_tagged_image_lives_for_the_retention Account.cloud cfg "us-east-1"
                Account.plain a _ _ _ _ ami
                {| Py.year := 2024; Py.month := 1; Py.day := 7 |} a
                Hclock Hcall Hnone eq_refl eq_refl)
      as (image & w1 & expiry & Hcreate & Hadd & Hlate & _).
    vm_compute in Hcreate. injection Hcreate as _ <-.
    vm_compute in Hadd. injection Hadd as <-.
    apply Hlate. vm_compute. discriminate.
  - destruct (X3_tagged_image_lives_for_the_retention Account.cloud cfg "us-east-1"
                Account.plain a _ _ _ _ ami
                {| Py.year := 2024; Py.month := 1; Py.day := 8 |} a
                Hclock Hcall Hnone eq_refl eq_refl)
      as (image & w1 & expiry & Hcreate & Hadd & Hlate & _).
    vm_compute in Hcreate. injection Hcreate as _ <-.
    vm_compute in Hadd. injection Hadd as <-.
    apply Hlate. vm_compute. discriminate.
Defined.

(* ===================================================================== *)
(** * Which instances are backed up *)
(* ===================================================================== *)

Lemma instances_of_spec (rs : list Reservation) (i : Instance) :
  In i (instances_of rs)
  <-> exists reservation,
        In reservation rs /\ In i (Instances reservation)
        /\ StateName i <> "terminated".
Proof.
  unfold instances_of. rewrite in_flat_map. split.
  - intros (reservation & Hr & Hi). exists reservation. split; [exact Hr |].
    apply list_elem_of_In in Hi. apply list_elem_of_filter in Hi. destruct Hi as [Hstate Hi].
    split; [apply list_elem_of_In; exact Hi | exact Hstate].
  - intros (reservation & Hr & Hi & Hstate). exists reservation. split; [exact Hr |].
    apply list_elem_of_In. apply list_elem_of_filter. split; [exact Hstate |].
    apply list_elem_of_In. exact Hi.
Qed.

(** X4. Terminated instances are left out, every other listed instance is
    backed up.  With [dry_run] off, once the listing succeeded, the pass
    calls [create_image] for an instance id exactly when the listing holds
    an instance of that id whose state is not "terminated" (stopped or
    pending instances included); and when every listed instance is
    terminated the pass makes no call after the listing and prints nothing
    more. *)
Theorem X4_terminated_instances_are_left_out {W} (cloud : Cloud W) (cfg : Config)
    ec2 w rs w1 :
  dry_run cfg = false ->
  describe_instances cloud ec2 tags_to_find w = (Ok rs, w1) ->
  let run := backup_tagged_instances_in_region cloud cfg ec2 w in
  (forall id,
     In id (created_from (trace run))
     <-> exists reservation instance,
           In reservation rs /\ In instance (Instances reservation)
           /\ StateName instance <> "terminated" /\ InstanceId instance = id)
  /\ ((forall reservation instance,
         In reservation rs -> In instance (Instances reservation) ->
         StateName instance = "terminated") ->
      run = (Ok tt, w1,
             [ Print ("Scanning for instances with tags ("
                      +:+ Py.join "," tags_to_find +:+ ")");
               Api ec2 (DescribeInstances tags_to_find) None ])).
Proof.
  intros Hdry Hlist. cbv zeta. split.
  - intros id.
    destruct (backup_pass_attempts_all cloud cfg ec2 w rs w1 Hdry Hlist) as (_ & Hcreated & _).
    cbv zeta in Hcreated. rewrite Hcreated, in_map_iff. split.
    + intros (instance & Hid & Hin). apply instances_of_spec in Hin.
      destruct Hin as (reservation & Hr & Hi & Hstate).
      exists reservation, instance. repeat split; assumption.
    + intros (reservation & instance & Hr & Hi & Hstate & Hid).
      exists instance. split; [exact Hid |]. apply instances_of_spec.
      exists reservation. repeat split; assumption.
  - intros Hall. rewrite (backup_pass_listed cloud cfg ec2 w rs w1 Hlist). cbv zeta.
    assert (Hnone : instances_of rs = []).
    { destruct (instances_of rs) as [| i l] eqn:Hrs; [reflexivity |].
      assert (Hin : In i (instances_of rs)) by (rewrite Hrs; left; reflexivity).
      apply instances_of_spec in Hin. destruct Hin as (reservation & Hr & Hi & Hstate).
      exfalso. apply Hstate. apply (Hall reservation i Hr Hi). }
    rewrite Hnone. reflexivity.
Qed.

(** A listing with a running, a stopped and a terminated instance. *)
Lemma X4_terminated_instances_are_left_out_witness :
  let cfg := Account.one_region 7 false in
  let stopped := {| InstanceId := "i-stopped"; StateName := "stopped";
                    Tags := [ {| Key := "backup"; Value := "" |} ] |} in
  let gone := {| InstanceId := "i-gone"; StateName := "terminated";
                 Tags := [ {| Key := "backup"; Value := "" |} ] |} in
  let a := Account.account [Account.plain; gone; stopped] [] in
  let run := backup_tagged_instances_in_region Account.cloud cfg "us-east-1" a in
  In "i-stopped" (created_from (trace run)) /\ ~ In "i-gone" (created_from (trace run)).
Proof.
  intros cfg stopped gone a run.
  pose proof (X4_terminated_instances_are_left_out Account.cloud cfg "us-east-1" a
                [ {| Instances := [Account.plain; gone; stopped] |} ] a eq_refl eq_refl)
    as [Hiff _].
  split.
  - apply Hiff. exists {| Instances := [Account.plain; gone; stopped] |}, stopped.
    repeat split; [left; reflexivity | right; right; left; reflexivity | discriminate].
  - intros Hin. apply Hiff in Hin.
    destruct Hin as (reservation & instance & Hr & Hi & Hstate & Hid).
    destruct Hr as [<- | []].
    destruct Hi as [<- | [<- | [<- | []]]];
      [discriminate Hid | apply Hstate; reflexivity | discriminate Hid].
Defined.

(* ===================================================================== *)
(** * One instance, [dry_run] off: the calls *)
(* ===================================================================== *)

Section LiveIteration.

Context {W : Type} (cloud : Cloud W) (cfg : Config).

(** The calls of an iteration: [create_image], then at most one
    [create_tags], made only when the image was created, the retention
    accepted and the expiry date in range. *)
Lemma backup_instance_calls ec2 instance w :
  dry_run cfg = false ->
  let run := backup_instance cloud cfg ec2 instance w in
  api_calls (trace run) = [create_image_call cloud instance w]
  \/ exists image w1 days expiry,
       create_image cloud ec2 (InstanceId instance) (image_name instance (now cloud w))
         (image_description instance) w = (Ok image, w1)
       /\ Py.timedelta (retention_days cfg instance) = Ok days
       /\ Py.date_add (Py.dt_date (now cloud w1)) days = Ok expiry
       /\ api_calls (trace run)
          = [ create_image_call cloud instance w;
              CreateTags [image] (image_tags cfg instance expiry) ].
Proof.
  intros Hdry. cbv zeta.
  destruct (backup_instance_live cloud cfg ec2 instance w Hdry) as
    [e w1 Hc | image w1 e Hc Hd | image w1 days e Hc Hd He
     | image w1 days expiry w2 Hc Hd He Ht | image w1 days expiry e w2 Hc Hd He Ht];
    unfold trace, api_calls; cbn [snd];
    rewrite ?omap_app, ?omap_finaltags_trace by reflexivity;
    try (left; reflexivity);
    right; exists image, w1, days, expiry; repeat split; try assumption;
    cbn [omap list_omap app backup_header api_call]; 
    rewrite ?omap_app, ?omap_finaltags_trace by reflexivity; reflexivity.
Qed.

End LiveIteration.

(** X5. The calls made for one instance.  With [dry_run] off an iteration
    never raises and calls [create_image] once, with the id of the
    instance, its image name and description, [NoReboot] on and [DryRun]
    off; it then calls [create_tags] at most once, and only on the image
    id that this [create_image] returned. *)
Theorem X5_tags_go_to_the_image_just_created {W} (cloud : Cloud W) (cfg : Config)
    ec2 instance w :
  dry_run cfg = false ->
  let run := backup_instance cloud cfg ec2 instance w in
  let create :=
    CreateImage (InstanceId instance) (image_name instance (now cloud w))
      (image_description instance) true false in
  result run = Ok tt
  /\ (api_calls (trace run) = [create]
      \/ exists image w1 tags,
           create_image cloud ec2 (InstanceId instance) (image_name instance (now cloud w))
             (image_description instance) w = (Ok image, w1)
           /\ api_calls (trace run) = [create; CreateTags [image] tags]).
Proof.
  intros Hdry. cbv zeta. split; [apply backup_instance_ok |].
  destruct (backup_instance_calls cloud cfg ec2 instance w Hdry)
    as [Hone | (image & w1 & days & expiry & Hc & _ & _ & Htwo)].
  - left. exact Hone.
  - right. exists image, w1, (image_tags cfg instance expiry). split; assumption.
Qed.

(** The instance with a marker tag only: image ami-0 is created, and tagged. *)
Lemma X5_tags_go_to_the_image_just_created_witness :
  let cfg := Account.one_region 7 false in
  let a := Account.account [Account.plain] [] in
  exists tags,
    api_calls (trace (backup_instance Account.cloud cfg "us-east-1" Account.plain a))
    = [ CreateImage "i-def" "i-def-backup-2024-01-01-00-00-00.000000"
          "Automatic Backup of i-def from i-def" true false;
        CreateTags ["ami-0"] tags ].
Proof.
  intros cfg a.
  destruct (X5_tags_go_to_the_image_just_created Account.cloud cfg "us-east-1"
              Account.plain a eq_refl) as [_ [Hone | (image & w1 & tags & Hc & Htwo)]].
  - vm_compute in Hone. discriminate Hone.
  - exists tags. vm_compute in Hc. injection Hc as <- _. exact Htwo.
Defined.

(** X6. A non-empty [Retention] tag leaves the image untagged.  With
    [dry_run] off, for every instance whose [Retention] tag (the last one,
    as [dict_tags] keeps it) has a non-empty value, numeric or not, the
    iteration calls [create_image] and nothing else: [create_tags] is not
    called, and when the image was created the traceback of the
    [TypeError] of [timedelta] is printed. *)
Theorem X6_retention_tag_is_never_applied {W} (cloud : Cloud W) (cfg : Config)
    ec2 instance w r :
  dry_run cfg = false ->
  dict_tags (Tags instance) !! "Retention" = Some r ->
  r <> "" ->
  let run := backup_instance cloud cfg ec2 instance w in
  result run = Ok tt
  /\ api_calls (trace run) = [create_image_call cloud instance w]
  /\ (forall image w1,
        create_image cloud ec2 (InstanceId instance) (image_name instance (now cloud w))
          (image_description instance) w = (Ok image, w1) ->
        In (PrintException
              (Py.TypeError "unsupported type for timedelta days component: str"))
           (trace run)).
Proof.
  intros Hdry Hr Hne. cbv zeta.
  assert (Hstr : retention_days cfg instance = Py.DaysStr r).
  { unfold retention_days. rewrite Hr. unfold Py.truthy.
    destruct (String.eqb_spec r ""); [contradiction | reflexivity]. }
  repeat apply conj.
  - apply backup_instance_ok.
  - destruct (backup_instance_calls cloud cfg ec2 instance w Hdry)
      as [Hone | (image & w1 & days & expiry & _ & Hdays & _)]; [exact Hone |].
    rewrite Hstr in Hdays. discriminate Hdays.
  - intros image w1 Hcreate.
    destruct (backup_instance_live cloud cfg ec2 instance w Hdry) as
      [e w1' Hc | image' w1' e Hc Hd | image' w1' days e Hc Hd He
       | image' w1' days expiry w2 Hc Hd He Ht | image' w1' days expiry e w2 Hc Hd He Ht];
      try (rewrite Hstr in Hd; cbn [Py.timedelta] in Hd; try discriminate Hd).
    + rewrite Hcreate in Hc. discriminate Hc.
    + injection Hd as <-. unfold trace. cbn [snd]. apply in_app_iff. right.
      do 3 right. left. reflexivity.
Qed.

(** The instance of the scenario, tagged Retention=3. *)
Lemma X6_retention_tag_is_never_applied_witness :
  let cfg := Account.one_region 7 false in
  let a := Account.account [Account.web1] [] in
  api_calls (trace (backup_instance Account.cloud cfg "us-east-1" Account.web1 a))
  = [ CreateImage "i-abc" "web1-backup-2024-01-01-00-00-00.000000"
        "Automatic Backup of web1 from i-abc" true false ].
Proof.
  intros cfg a.
  assert (Hne : "3" <> "") by discriminate.
  exact (proj1 (proj2 (X6_retention_tag_is_never_applied Account.cloud cfg "us-east-1"
                         Account.web1 a "3" eq_refl eq_refl Hne))).
Defined.

(** X7. An expiry date out of range leaves the image untagged.  With
    [dry_run] off, for an instance that uses the default retention, when
    the day of tagging plus the default falls before 0001-01-01 or after
    9999-12-31 the iteration calls [create_image] only and returns
    normally: the overflow is caught with the other failures. *)
Theorem X7_expiry_out_of_range_is_not_applied {W} (cloud : Cloud W) (cfg : Config)
    ec2 instance w :
  dry_run cfg = false ->
  (forall image w1,
     create_image cloud ec2 (InstanceId instance) (image_name instance (now cloud w))
       (image_description instance) w = (Ok image, w1) ->
     Py.ymd2ord (Py.dt_date (now cloud w1)) + default_retention_time cfg <= 0
     \/ Py.MAXORDINAL
        < Py.ymd2ord (Py.dt_date (now cloud w1)) + default_retention_time cfg) ->
  let run := backup_instance cloud cfg ec2 instance w in
  result run = Ok tt /\ api_calls (trace run) = [create_image_call cloud instance w].
Proof.
  intros Hdry Hrange. cbv zeta. split; [apply backup_instance_ok |].
  destruct (backup_instance_calls cloud cfg ec2 instance w Hdry)
    as [Hone | (image & w1 & days & expiry & Hc & Hdays & Hexpiry & _)]; [exact Hone |].
  destruct (timedelta_retention_days cfg instance days Hdays) as [_ ->].
  specialize (Hrange image w1 Hc). unfold Py.date_add in Hexpiry. cbv zeta in Hexpiry.
  destruct (Z.ltb_spec 0 (Py.ymd2ord (Py.dt_date (now cloud w1))
                          + default_retention_time cfg));
    destruct (Z.leb_spec (Py.ymd2ord (Py.dt_date (now cloud w1))
                          + default_retention_time cfg) Py.MAXORDINAL);
    cbn [andb] in Hexpiry; try discriminate Hexpiry.
  lia.
Qed.

(** A default retention of three million days, from 1 January 2024. *)
Lemma X7_expiry_out_of_range_is_not_applied_witness :
  let cfg := Account.one_region 3000000 false in
  let a := Account.account [Account.plain] [] in
  api_calls (trace (backup_instance Account.cloud cfg "us-east-1" Account.plain a))
  = [ CreateImage "i-def" "i-def-backup-2024-01-01-00-00-00.000000"
        "Automatic Backup of i-def from i-def" true false ].
Proof.
  intros cfg a.
  apply (X7_expiry_out_of_range_is_not_applied Account.cloud cfg "us-east-1"
           Account.plain a eq_refl).
  intros image w1 Hcreate. vm_compute in Hcreate. injection Hcreate as _ <-.
  right. reflexivity.
Defined.


(** X8. The reaper's rule, with [dry_run] off.  For an image whose expiry
    date decodes: while today is before the expiry date no call is made
    for it and the account is left as it is; from the expiry date on the
    image is deregistered and then each snapshot found is deleted, in
    order, and nothing is raised but the exception of a snapshot list that
    cannot be built.  Over a whole pass whose listing succeeded, on a day
    the clock can tell and when the data of no image listed raises, the
    pass returns normally and its calls after the listing are exactly
    these, image after image. *)
Theorem X8_images_are_deleted_from_the_expiry_date_on {W} (cloud : Cloud W) (cfg : Config)
    ec2 :
  dry_run cfg = false ->
  (forall today ami w expiry,
     expiry_of ami = Some expiry ->
     let run := consider_ami cloud cfg ec2 (Py.struct_time_of_date today) ami w in
     (Py.date_ltb today expiry = true ->
      api_calls (trace run) = [] /\ result run = Ok tt /\ world_after run = w)
     /\ (Py.date_ltb today expiry = false ->
         api_calls (trace run)
         = DeregisterImage (ImageId ami) :: map DeleteSnapshot (snapshots_found ami)
         /\ result run = match snapshots ami with Ok _ => Ok tt | Raise e => Raise e end))
  /\ (forall w amis w1,
        describe_images cloud ec2 [global_key_to_tag_on cfg] ["self"] w = (Ok amis, w1) ->
        clock_readable (now cloud w1) = true ->
        Forall readable amis ->
        let run := delete_expired_amis cloud cfg ec2 w in
        result run = Ok tt
        /\ api_calls (trace run)
           = DescribeImages [global_key_to_tag_on cfg] ["self"]
             :: flat_map (reap_calls (Py.dt_date (now cloud w1))) amis).
Proof.
  intros Hdry. split.
  - intros today ami w expiry Hexp.
    apply (consider_ami_dated cloud cfg ec2 today ami w expiry Hdry Hexp).
  - intros w amis w1 Hlist Hclock Hread. cbv zeta.
    destruct (reaper_pass_calls cloud cfg ec2 w amis w1 Hdry Hlist Hclock Hread)
      as (Hok & Hcalls & _).
    split; [exact Hok | exact Hcalls].
Qed.

(** The scenario of the specification: on 1 January 2024 an image that
    expires that day is deleted with its snapshots, an image that expires
    the next day is kept. *)
Lemma X8_images_are_deleted_from_the_expiry_date_on_witness :
  let cfg := Account.one_region 7 false in
  let due := Account.managed "ami-due" [ {| Key := "DeleteAfter"; Value := "01-01-2024" |} ]
               ["snap-1"; "snap-2"] in
  let young := Account.managed "ami-new" [ {| Key := "DeleteAfter"; Value := "01-02-2024" |} ]
                 ["snap-3"] in
  let a := Account.account [] [young; due] in
  api_calls (trace (delete_expired_amis Account.cloud cfg "us-east-1" a))
  = [ DescribeImages ["AWSAutomatedDailySnapshots"] ["self"];
      DeregisterImage "ami-due"; DeleteSnapshot "snap-1"; DeleteSnapshot "snap-2" ].
Proof.
  intros cfg due young a.
  assert (Hread : Forall readable [young; due]).
  { constructor; [| constructor; [| constructor]];
      (split; [right; eexists; vm_compute; reflexivity | reflexivity]). }
  refine (eq_trans
            (proj2 (proj2 (X8_images_are_deleted_from_the_expiry_date_on Account.cloud cfg
                             "us-east-1" eq_refl) a [young; due] a eq_refl eq_refl Hread)) _).
  vm_compute. reflexivity.
Defined.

(** X9. Images without a date the reaper can read.  An image without
    [DeleteAfter] tag is passed over: no call, no exception, the account
    untouched.  An image whose first [DeleteAfter] value [strptime]
    refuses gets no call either, but the exception of [strptime] ends the
    iteration; with [dry_run] off, a pass that meets such an image after
    images whose data raises nothing ends with that exception, having
    made the calls for the images before it and none for it or for the
    images after it. *)
Theorem X9_undecodable_expiry_ends_the_pass {W} (cloud : Cloud W) (cfg : Config) ec2 :
  (forall today_date ami w,
     delete_after_values ami = [] ->
     let run := consider_ami cloud cfg ec2 today_date ami w in
     result run = Ok tt /\ world_after run = w /\ api_calls (trace run) = [])
  /\ (forall today_date ami w v rest e,
        delete_after_values ami = v :: rest ->
        Py.strptime_mdY v = Raise e ->
        let run := consider_ami cloud cfg ec2 today_date ami w in
        result run = Raise e /\ world_after run = w /\ api_calls (trace run) = [])
  /\ (forall w pre ami post w1 v rest e,
        dry_run cfg = false ->
        describe_images cloud ec2 [global_key_to_tag_on cfg] ["self"] w
        = (Ok (pre ++ ami :: post), w1) ->
        clock_readable (now cloud w1) = true ->
        Forall readable pre ->
        delete_after_values ami = v :: rest ->
        Py.strptime_mdY v = Raise e ->
        let run := delete_expired_amis cloud cfg ec2 w in
        result run = Raise e
        /\ api_calls (trace run)
           = DescribeImages [global_key_to_tag_on cfg] ["self"]
             :: flat_map (reap_calls (Py.dt_date (now cloud w1))) pre).
Proof.
  repeat apply conj.
  - intros today_date ami w Hnone. cbv zeta.
    rewrite (consider_ami_no_tag cloud cfg ec2 today_date ami w Hnone). repeat split.
  - intros today_date ami w v rest e Hv He. cbv zeta.
    rewrite (consider_ami_undecodable cloud cfg ec2 today_date ami w v rest e Hv He).
    repeat split.
  - intros w pre ami post w1 v rest e Hdry Hlist Hclock Hpre Hv He. cbv zeta.
    destruct (reaper_pass_stops cloud cfg ec2 w pre ami post w1 e [] Hdry Hlist Hclock Hpre)
      as [Hr Hcalls].
    + intros w'. cbv zeta.
      rewrite (consider_ami_undecodable cloud cfg ec2 _ ami w' v rest e Hv He).
      split; reflexivity.
    + split; [exact Hr |]. rewrite Hcalls, app_nil_r. reflexivity.
Qed.

(** An image with the marker tag only, and an image with a misspelt date
    listed after an image that is due and before another. *)
Lemma X9_undecodable_expiry_ends_the_pass_witness :
  let cfg := Account.one_region 7 false in
  let today := Py.struct_time_of_date (Py.dt_date Account.new_year_2024) in
  let due := Account.managed "ami-due" [ {| Key := "DeleteAfter"; Value := "01-01-2024" |} ]
               ["snap-3"] in
  let bad := Account.managed "ami-x" [ {| Key := "DeleteAfter"; Value := "soon" |} ]
               ["snap-1"] in
  let refused := Py.ValueError "time data 'soon' does not match format '%m-%d-%Y'" in
  result (consider_ami Account.cloud cfg "us-east-1" today
            (Account.managed "ami-bare" [] ["snap-1"]) (Account.account [] [])) = Ok tt
  /\ result (consider_ami Account.cloud cfg "us-east-1" today bad (Account.account [] []))
     = Raise refused
  /\ (result (delete_expired_amis Account.cloud cfg "us-east-1"
                (Account.account [] [due; bad; due])) = Raise refused
      /\ api_calls (trace (delete_expired_amis Account.cloud cfg "us-east-1"
                             (Account.account [] [due; bad; due])))
         = [ DescribeImages ["AWSAutomatedDailySnapshots"] ["self"];
             DeregisterImage "ami-due"; DeleteSnapshot "snap-3" ]).
Proof.
  intros cfg today due bad refused.
  pose proof (X9_undecodable_expiry_ends_the_pass Account.cloud cfg "us-east-1")
    as (Hnone & Hbad & Hpass).
  repeat apply conj.
  - exact (proj1 (Hnone today (Account.managed "ami-bare" [] ["snap-1"])
                    (Account.account [] []) eq_refl)).
  - exact (proj1 (Hbad today bad (Account.account [] []) "soon" [] refused
                    eq_refl eq_refl)).
  - assert (Hread : Forall readable [due]).
    { constructor; [| constructor].
      split; [right; eexists; vm_compute; reflexivity | reflexivity]. }
    exact (proj1 (Hpass (Account.account [] [due; bad; due]) [due] bad [due]
                    (Account.account [] [due; bad; due])
                    "soon" [] refused eq_refl eq_refl eq_refl Hread eq_refl eq_refl)).
  - assert (Hread : Forall readable [due]).
    { constructor; [| constructor].
      split; [right; eexists; vm_compute; reflexivity | reflexivity]. }
    refine (eq_trans
              (proj2 (Hpass (Account.account [] [due; bad; due]) [due] bad [due]
                        (Account.account [] [due; bad; due])
                        "soon" [] refused eq_refl eq_refl eq_refl Hread eq_refl eq_refl)) _).
    vm_compute. reflexivity.
Defined.

(** X10. A volume without snapshot id.  For an image that is due and has
    an [Ebs] entry without [SnapshotId], the list of snapshots raises
    [KeyError] outside every [try]: in a dry run nothing is called, and
    with [dry_run] off the image is deregistered and no snapshot is
    deleted, neither those listed before the entry nor those after; the
    exception ends the iteration, and a pass that meets such an image
    after images whose data raises nothing ends with it, the images after
    it left alone. *)
Theorem X10_snapshot_without_id_ends_the_pass {W} (cloud : Cloud W) (cfg : Config) ec2 :
  (forall today ami w expiry,
     expiry_of ami = Some expiry ->
     Py.date_ltb today expiry = false ->
     In {| Ebs := Some {| SnapshotId := None |} |} (BlockDeviceMappings ami) ->
     let run := consider_ami cloud cfg ec2 (Py.struct_time_of_date today) ami w in
     result run = Raise (Py.KeyError "SnapshotId")
     /\ api_calls (trace run)
        = if dry_run cfg then [] else [DeregisterImage (ImageId ami)])
  /\ (forall w pre ami post w1 expiry,
        dry_run cfg = false ->
        describe_images cloud ec2 [global_key_to_tag_on cfg] ["self"] w
        = (Ok (pre ++ ami :: post), w1) ->
        clock_readable (now cloud w1) = true ->
        Forall readable pre ->
        expiry_of ami = Some expiry ->
        Py.date_ltb (Py.dt_date (now cloud w1)) expiry = false ->
        In {| Ebs := Some {| SnapshotId := None |} |} (BlockDeviceMappings ami) ->
        let run := delete_expired_amis cloud cfg ec2 w in
        result run = Raise (Py.KeyError "SnapshotId")
        /\ api_calls (trace run)
           = DescribeImages [global_key_to_tag_on cfg] ["self"]
             :: flat_map (reap_calls (Py.dt_date (now cloud w1))) pre
                ++ [DeregisterImage (ImageId ami)]).
Proof.
  assert (Hone : forall today ami w expiry,
             expiry_of ami = Some expiry ->
             Py.date_ltb today expiry = false ->
             In {| Ebs := Some {| SnapshotId := None |} |} (BlockDeviceMappings ami) ->
             let run := consider_ami cloud cfg ec2 (Py.struct_time_of_date today) ami w in
             result run = Raise (Py.KeyError "SnapshotId")
             /\ api_calls (trace run)
                = if dry_run cfg then [] else [DeregisterImage (ImageId ami)]).
  { intros today ami w expiry Hexp Hdue Hin. cbv zeta.
    assert (Hsnap : snapshots ami = Raise (Py.KeyError "SnapshotId"))
      by (apply snapshot_ids_missing; exact Hin).
    destruct (dry_run cfg) eqn:Hdry.
    - unfold expiry_of in Hexp.
      destruct (delete_after_values ami) as [| v rest] eqn:Hv; [discriminate Hexp |].
      destruct (Py.strptime_mdY v) as [st | e] eqn:Hst; [| discriminate Hexp].
      injection Hexp as <-.
      destruct (PyFacts.strptime_mdY_inv v st Hst) as [_ Hshape].
      pose proof (PyFacts.struct_time_ltb_dates today (Py.date_of_struct_time st)) as Hcmp.
      rewrite <- Hshape, Hdue in Hcmp.
      rewrite (consider_ami_dry cloud cfg ec2 _ ami w v rest st Hv Hst Hcmp Hdry).
      unfold snapshots_found. rewrite Hsnap. split; reflexivity.
    - destruct (consider_ami_dated cloud cfg ec2 today ami w expiry Hdry Hexp) as [_ Hlive].
      destruct (Hlive Hdue) as [Hcalls Hres]. unfold snapshots_found in Hcalls.
      rewrite Hsnap in Hcalls, Hres. split; [exact Hres | exact Hcalls]. }
  split; [exact Hone |].
  intros w pre ami post w1 expiry Hdry Hlist Hclock Hpre Hexp Hdue Hin. cbv zeta.
  apply (reaper_pass_stops cloud cfg ec2 w pre ami post w1 (Py.KeyError "SnapshotId")
           [DeregisterImage (ImageId ami)] Hdry Hlist Hclock Hpre).
  intros w'. cbv zeta.
  destruct (Hone (Py.dt_date (now cloud w1)) ami w' expiry Hexp Hdue Hin) as [Hr Hc].
  rewrite Hdry in Hc. split; [exact Hr | exact Hc].
Qed.

(** An image with two volumes, the second still without snapshot id. *)
Lemma X10_snapshot_without_id_ends_the_pass_witness :
  let cfg := Account.one_region 7 false in
  let half := Account.pending "ami-half" [ {| Key := "DeleteAfter"; Value := "12-31-2023" |} ] in
  let run := consider_ami Account.cloud cfg "us-east-1"
               (Py.struct_time_of_date (Py.dt_date Account.new_year_2024)) half
               (Account.account [] [half]) in
  result run = Raise (Py.KeyError "SnapshotId")
  /\ api_calls (trace run) = [DeregisterImage "ami-half"].
Proof.
  intros cfg half.
  apply (proj1 (X10_snapshot_without_id_ends_the_pass Account.cloud cfg "us-east-1")
           (Py.dt_date Account.new_year_2024) half (Account.account [] [half])
           {| Py.year := 2023; Py.month := 12; Py.day := 31 |}).
  - vm_compute. reflexivity.
  - vm_compute. reflexivity.
  - right. left. reflexivity.
Defined.


(* ===================================================================== *)
(** * [dict_tags] and the names *)
(* ===================================================================== *)

(** [dict_tags] maps a key to the value of the last tag of that key. *)
Lemma dict_tags_lookup (tags : list Tag) (key : string) :
  dict_tags tags !! key = Value <$> last (filter (fun t => Key t = key) tags).
Proof.
  induction tags as [| item tags IH] using rev_ind.
  - reflexivity.
  - rewrite filter_app, filter_cons, filter_nil.
    destruct (decide (Key item = key)) as [<- | Hne].
    + rewrite dict_tags_last, last_snoc. reflexivity.
    + rewrite dict_tags_other by exact Hne. rewrite app_nil_r. exact IH.
Qed.

(** X11. Which name an image gets.  The display name of an instance is the
    value of its last [Name] tag when that value is not empty, and its
    instance id when it has no [Name] tag or the last one is empty (an
    earlier non-empty [Name] tag does not count); the image name is that
    name, "-backup-" and the time stamp, and the description names both
    the display name and the instance id. *)
Theorem X11_image_is_named_after_last_name_tag (instance : Instance) (t : Py.datetime_t) :
  let display :=
    match last (filter (fun tag => Key tag = "Name") (Tags instance)) with
    | Some tag => if String.eqb (Value tag) "" then InstanceId instance else Value tag
    | None => InstanceId instance
    end in
  instance_name instance = display
  /\ image_name instance t = display +:+ "-backup-" +:+ Py.strftime_stamp t
  /\ image_description instance
     = "Automatic Backup of " +:+ display +:+ " from " +:+ InstanceId instance.
Proof.
  cbv zeta.
  assert (Hname : instance_name instance
                  = match last (filter (fun tag => Key tag = "Name") (Tags instance)) with
                    | Some tag =>
                        if String.eqb (Value tag) "" then InstanceId instance else Value tag
                    | None => InstanceId instance
                    end).
  { unfold instance_name. rewrite dict_tags_lookup.
    destruct (last _) as [tag |]; [| reflexivity].
    cbn [fmap option_fmap option_map]. unfold Py.truthy.
    destruct (String.eqb (Value tag) ""); reflexivity. }
  unfold image_name, image_description. rewrite Hname. repeat split.
Qed.


(* ===================================================================== *)
(** * Time stamps in image names *)
(* ===================================================================== *)

Module StampFacts.
Import Py.

Lemma append_inj_l (s x y : string) : s +:+ x = s +:+ y -> x = y.
Proof.
  induction s as [| c s IH]; [intros H; exact H |].
  rewrite !PyFacts.append_cons. intros [= H]. apply IH. exact H.
Qed.

Lemma digits2_append_inj a b s s' :
  digits2 a +:+ s = digits2 b +:+ s' -> digits2 a = digits2 b /\ s = s'.
Proof.
  unfold digits2. rewrite !PyFacts.append_cons, !PyFacts.append_empty.
  intros [= -> -> ->]. split; reflexivity.
Qed.

Lemma digits4_append_inj a b s s' :
  digits4 a +:+ s = digits4 b +:+ s' -> digits4 a = digits4 b /\ s = s'.
Proof.
  unfold digits4, digits2. rewrite !PyFacts.append_cons, !PyFacts.append_empty.
  intros [= -> -> -> -> ->]. split; reflexivity.
Qed.

Lemma dash_append_inj s s' : "-" +:+ s = "-" +:+ s' -> s = s'.
Proof. rewrite !PyFacts.append_cons, !PyFacts.append_empty. intros [= ->]. reflexivity. Qed.

Lemma dot_append_inj s s' : "." +:+ s = "." +:+ s' -> s = s'.
Proof. rewrite !PyFacts.append_cons, !PyFacts.append_empty. intros [= ->]. reflexivity. Qed.

Lemma digits2_inj a b : 0 <= a <= 99 -> 0 <= b <= 99 -> digits2 a = digits2 b -> a = b.
Proof.
  intros Ha Hb H. rewrite <- (PyFacts.int_group_digits2 a Ha), H.
  apply PyFacts.int_group_digits2. exact Hb.
Qed.

Lemma digits4_inj a b : 0 <= a <= 9999 -> 0 <= b <= 9999 -> digits4 a = digits4 b -> a = b.
Proof.
  intros Ha Hb H. rewrite <- (PyFacts.int_group_digits4 a Ha), H.
  apply PyFacts.int_group_digits4. exact Hb.
Qed.

Lemma digits6_inj a b :
  0 <= a <= 999999 -> 0 <= b <= 999999 -> digits6 a = digits6 b -> a = b.
Proof.
  intros Ha Hb H. unfold digits6 in H. apply digits2_append_inj in H. destruct H as [H2 H4].
  apply digits2_inj in H2; [| Z.div_mod_to_equations; lia | Z.div_mod_to_equations; lia].
  apply digits4_inj in H4; [| Z.div_mod_to_equations; lia | Z.div_mod_to_equations; lia].
  pose proof (Z.div_mod a 10000 ltac:(lia)). pose proof (Z.div_mod b 10000 ltac:(lia)).
  lia.
Qed.

(** The time stamp tells the moment, to the microsecond. *)
Lemma strftime_stamp_inj t1 t2 :
  timestamp_in_range t1 -> timestamp_in_range t2 ->
  strftime_stamp t1 = strftime_stamp t2 -> t1 = t2.
Proof.
  intros (Hv1 & Hl1 & Hh1 & Hm1 & Hs1 & Hu1) (Hv2 & Hl2 & Hh2 & Hm2 & Hs2 & Hu2) H.
  destruct (PyFacts.valid_date_bounds _ Hv1) as (Hy1 & Hmo1 & Hd1).
  destruct (PyFacts.valid_date_bounds _ Hv2) as (Hy2 & Hmo2 & Hd2).
  pose proof (PyFacts.days_in_month_bound (year (dt_date t1)) (month (dt_date t1))).
  pose proof (PyFacts.days_in_month_bound (year (dt_date t2)) (month (dt_date t2))).
  unfold strftime_stamp in H. rewrite !PyFacts.str_int_digits4 in H by lia.
  apply digits4_append_inj in H. destruct H as [Hy H]. apply dash_append_inj in H.
  apply digits2_append_inj in H. destruct H as [Hmo H]. apply dash_append_inj in H.
  apply digits2_append_inj in H. destruct H as [Hd H]. apply dash_append_inj in H.
  apply digits2_append_inj in H. destruct H as [Hh H]. apply dash_append_inj in H.
  apply digits2_append_inj in H. destruct H as [Hm H]. apply dash_append_inj in H.
  apply digits2_append_inj in H. destruct H as [Hs H]. apply dot_append_inj in H.
  apply digits4_inj in Hy; [| lia | lia].
  apply digits2_inj in Hmo; [| lia | lia].
  apply digits2_inj in Hd; [| lia | lia].
  apply digits2_inj in Hh; [| lia | lia].
  apply digits2_inj in Hm; [| lia | lia].
  apply digits2_inj in Hs; [| lia | lia].
  apply digits6_inj in H; [| lia | lia].
  destruct t1 as [[y1 mo1 d1] h1 m1 s1 u1], t2 as [[y2 mo2 d2] h2 m2 s2 u2].
  cbn [dt_date year month day hour minute second microsecond] in *. congruence.
Qed.

End StampFacts.

(** X12. Two backups of an instance at different moments get different
    image names: for time stamps the clock can return from the year 1000
    on (a valid date, a time of day to the microsecond), the image names
    of the same instance differ as soon as the time stamps differ, be it
    by one microsecond. *)
Theorem X12_image_names_differ_with_the_timestamp (instance : Instance)
    (t1 t2 : Py.datetime_t) :
  timestamp_in_range t1 -> timestamp_in_range t2 ->
  t1 <> t2 ->
  image_name instance t1 <> image_name instance t2.
Proof.
  intros H1 H2 Hne Hname. apply Hne. unfold image_name in Hname.
  apply StampFacts.append_inj_l in Hname. apply StampFacts.append_inj_l in Hname.
  apply StampFacts.strftime_stamp_inj; assumption.
Qed.

(** Midnight of 1 January 2024, and one microsecond later. *)
Lemma X12_image_names_differ_with_the_timestamp_witness :
  let later :=
    {| Py.dt_date := {| Py.year := 2024; Py.month := 1; Py.day := 1 |};
       Py.hour := 0; Py.minute := 0; Py.second := 0; Py.microsecond := 1 |} in
  image_name Account.web1 Account.new_year_2024 <> image_name Account.web1 later.
Proof.
  intros later.
  apply X12_image_names_differ_with_the_timestamp.
  - unfold timestamp_in_range. cbn. repeat split; lia.
  - unfold timestamp_in_range. cbn. repeat split; lia.
  - discriminate.
Defined.


(* ===================================================================== *)
(** * A listing that fails *)
(* ===================================================================== *)

Section FailedListing.

Context {W : Type} (cloud : Cloud W) (cfg : Config).

(** A loop over two lists in a row. *)
Lemma for_each_app {A} (xs ys : list A) (body : A -> M W unit) w :
  for_each (xs ++ ys) body w
  = let first := for_each xs body w in
    match result first with
    | Ok _ =>
        let second := for_each ys body (world_after first) in
        (result second, world_after second, trace first ++ trace second)
    | Raise e => (Raise e, world_after first, trace first)
    end.
Proof.
  revert w. induction xs as [| x xs IH]; intros w; cbn [app for_each].
  - cbv zeta. unfold mret, ret. cbn [result world_after trace fst snd app].
    destruct (for_each ys body w) as [[r w1] t1]. reflexivity.
  - unfold bind. cbv zeta.
    destruct (body x w) as [[[[] | e] w1] t1]; cbn [result world_after trace fst snd];
      [| reflexivity].
    rewrite IH. cbv zeta.
    destruct (for_each xs body w1) as [[[[] | e] w2] t2];
      cbn [result world_after trace fst snd]; [| reflexivity].
    destruct (for_each ys body w2) as [[r w3] t3]. cbn [fst snd].
    rewrite app_assoc. reflexivity.
Qed.

(** The run over the regions listed before a region is the run over all
    regions, cut there. *)
Lemma lambda_handler_with_regions regions :
  lambda_handler cloud (with_regions cfg regions)
  = for_each regions (fun aws_region =>
      print ("Scanning region: " +:+ aws_region);;
      backup_tagged_instances_in_region cloud cfg aws_region;;
      delete_expired_amis cloud cfg aws_region).
Proof. reflexivity. Qed.

(** The run when the listing of instances fails in a region, after the
    regions before it went through. *)
Lemma run_ends_at_failed_instance_listing pre region rest w e w1 :
  aws_regions cfg = pre ++ region :: rest ->
  let before := lambda_handler cloud (with_regions cfg pre) w in
  result before = Ok tt ->
  describe_instances cloud region tags_to_find (world_after before) = (Raise e, w1) ->
  Py.contains "OptInRequired" (exc_info e) = false ->
  lambda_handler cloud cfg w
  = (Raise e, w1,
     trace before
     ++ [ Print ("Scanning region: " +:+ region);
          Print ("Scanning for instances with tags (" +:+ Py.join "," tags_to_find +:+ ")");
          Api region (DescribeInstances tags_to_find) (Some e) ]).
Proof.
  intros Hregions before Hok Hlist Hother. subst before.
  rewrite lambda_handler_with_regions in *.
  unfold lambda_handler. rewrite Hregions, for_each_app. cbv zeta. rewrite Hok.
  rewrite for_each_region_cons. cbv zeta.
  rewrite (backup_pass_unlisted cloud cfg region _ e w1 Hlist). cbv zeta.
  rewrite Hother. reflexivity.
Qed.

(** The run when the listing of images fails in a region, after the
    regions before it and the backup pass of the region went through. *)
Lemma run_ends_at_failed_image_listing pre region rest w e w1 :
  aws_regions cfg = pre ++ region :: rest ->
  let before := lambda_handler cloud (with_regions cfg pre) w in
  let backup := backup_tagged_instances_in_region cloud cfg region (world_after before) in
  result before = Ok tt ->
  result backup = Ok tt ->
  describe_images cloud region [global_key_to_tag_on cfg] ["self"] (world_after backup)
  = (Raise e, w1) ->
  Py.contains "OptInRequired" (exc_info e) = false ->
  lambda_handler cloud cfg w
  = (Raise e, w1,
     trace before
     ++ Print ("Scanning region: " +:+ region)
        :: trace backup
        ++ [ Print ("Scanning for AMIs with tags (" +:+ global_key_to_tag_on cfg +:+ ")");
             Api region (DescribeImages [global_key_to_tag_on cfg] ["self"]) (Some e) ]).
Proof.
  intros Hregions before backup Hok Hbackup Hlist Hother. subst before backup.
  rewrite lambda_handler_with_regions in *.
  unfold lambda_handler. rewrite Hregions, for_each_app. cbv zeta. rewrite Hok.
  rewrite for_each_region_cons. cbv zeta. rewrite Hbackup.
  rewrite (reaper_pass_unlisted cloud cfg region _ e w1 Hlist). cbv zeta.
  rewrite Hother. reflexivity.
Qed.

End FailedListing.

(** X13. A listing failure ends the whole run.  When, after the regions
    before it went through, the listing of instances of a region fails
    for another reason than OptInRequired, the run ends with that
    exception right after the failed call: the reaper pass of the region
    does not start and the regions after it are never scanned.  The same
    holds when the listing of images fails after the backup pass of the
    region. *)
Theorem X13_listing_failure_ends_the_run {W} (cloud : Cloud W) (cfg : Config)
    pre region rest w :
  aws_regions cfg = pre ++ region :: rest ->
  let before := lambda_handler cloud (with_regions cfg pre) w in
  let backup := backup_tagged_instances_in_region cloud cfg region (world_after before) in
  result before = Ok tt ->
  (forall e w1,
     describe_instances cloud region tags_to_find (world_after before) = (Raise e, w1) ->
     Py.contains "OptInRequired" (exc_info e) = false ->
     lambda_handler cloud cfg w
     = (Raise e, w1,
        trace before
        ++ [ Print ("Scanning region: " +:+ region);
             Print ("Scanning for instances with tags ("
                    +:+ Py.join "," tags_to_find +:+ ")");
             Api region (DescribeInstances tags_to_find) (Some e) ]))
  /\ (forall e w1,
        result backup = Ok tt ->
        describe_images cloud region [global_key_to_tag_on cfg] ["self"]
          (world_after backup) = (Raise e, w1) ->
        Py.contains "OptInRequired" (exc_info e) = false ->
        lambda_handler cloud cfg w
        = (Raise e, w1,
           trace before
           ++ Print ("Scanning region: " +:+ region)
              :: trace backup
              ++ [ Print ("Scanning for AMIs with tags ("
                          +:+ global_key_to_tag_on cfg +:+ ")");
                   Api region (DescribeImages [global_key_to_tag_on cfg] ["self"])
                     (Some e) ])).
Proof.
  intros Hregions before backup Hok. split.
  - intros e w1 Hlist Hother.
    apply (run_ends_at_failed_instance_listing cloud cfg pre region rest w e w1
             Hregions Hok Hlist Hother).
  - intros e w1 Hbackup Hlist Hother.
    apply (run_ends_at_failed_image_listing cloud cfg pre region rest w e w1
             Hregions Hok Hbackup Hlist Hother).
Qed.

(** Three regions, the second of which throttles every call: the third
    is never scanned. *)
Lemma X13_listing_failure_ends_the_run_witness :
  let cfg := {| aws_regions := ["us-east-1"; "us-east-2"; "us-west-1"];
                default_retention_time := 7;
                global_key_to_tag_on := "AWSAutomatedDailySnapshots";
                dry_run := false |} in
  let a := {| Account.clock := Account.new_year_2024;
              Account.reservations := [("us-west-1", {| Instances := [Account.plain] |})];
              Account.images := [];
              Account.counter := 0;
              Account.faults := fun region _ =>
                if String.eqb region "us-east-2"
                then Some Account.request_limit_exceeded else None |} in
  result (lambda_handler Account.cloud cfg a) = Raise Account.request_limit_exceeded
  /\ api_calls (trace (lambda_handler Account.cloud cfg a))
     = [ DescribeInstances ["backup"; "Backup"];
         DescribeImages ["AWSAutomatedDailySnapshots"] ["self"];
         DescribeInstances ["backup"; "Backup"] ].
Proof.
  intros cfg a.
  pose proof (proj1 (X13_listing_failure_ends_the_run Account.cloud cfg
                       ["us-east-1"] "us-east-2" ["us-west-1"] a eq_refl eq_refl)
                Account.request_limit_exceeded a eq_refl eq_refl) as Hrun.
  rewrite Hrun. split; reflexivity.
Defined.


(* ===================================================================== *)
(** * The settings *)
(* ===================================================================== *)

Module SettingsFacts.
Import Settings.

Lemma split_not_nil sep s : split sep s <> [].
Proof.
  destruct s as [| c r]; cbn [split]; [discriminate |].
  destruct (Ascii.eqb c sep); [discriminate |].
  destruct (split sep r); discriminate.
Qed.

(** Joining what [split] gives, with the separator, gives the string back. *)
Lemma join_split sep s : String.concat (String sep "") (split sep s) = s.
Proof.
  induction s as [| c r IH]; [reflexivity |].
  cbn [split]. destruct (Ascii.eqb_spec c sep) as [-> | Hne].
  - destruct (split sep r) as [| first others] eqn:Hr.
    + exfalso. apply (split_not_nil sep r). exact Hr.
    + cbn [String.concat]. cbn [String.concat] in IH. rewrite IH. reflexivity.
  - destruct (split sep r) as [| first others] eqn:Hr.
    + exfalso. apply (split_not_nil sep r). exact Hr.
    + cbn [String.concat] in IH |- *. destruct others as [| second others].
      * rewrite IH. reflexivity.
      * rewrite PyFacts.append_cons, IH. reflexivity.
Qed.

(** No piece holds the separator. *)
Lemma split_pieces sep s piece :
  In piece (split sep s) -> ~ In sep (list_ascii_of_string piece).
Proof.
  revert piece. induction s as [| c r IH]; intros piece Hin.
  - destruct Hin as [<- | []]. intros [].
  - cbn [split] in Hin. destruct (Ascii.eqb_spec c sep) as [-> | Hne].
    + destruct Hin as [<- | Hin]; [intros [] | apply IH; exact Hin].
    + destruct (split sep r) as [| first others] eqn:Hr.
      * exfalso. apply (split_not_nil sep r). exact Hr.
      * destruct Hin as [<- | Hin].
        -- cbn [list_ascii_of_string]. intros [Heq | Hin]; [congruence |].
           apply (IH first); [left; reflexivity | exact Hin].
        -- apply IH. right. exact Hin.
Qed.

Lemma given_unset environ name :
  environ !! name = None \/ environ !! name = Some "" -> given environ name = None.
Proof. unfold given. intros [-> | ->]; reflexivity. Qed.

Lemma given_set environ name value :
  environ !! name = Some value -> value <> "" -> given environ name = Some value.
Proof.
  unfold given. intros -> Hne. destruct value as [| c r]; [contradiction |].
  cbn [String.length]. destruct (Z.eqb_spec (Z.of_nat (S (String.length r))) 0); [lia |].
  reflexivity.
Qed.

End SettingsFacts.


(** X14. A variable that is absent or empty leaves the built-in setting.
    When each of LIMIT_TO_REGIONS, DEFAULT_RETENTION_TIME and
    KEY_TO_TAG_ON is absent from the environment or set to the empty
    string, and DRY_RUN is neither "true" nor "True", loading the module
    gives the built-in settings (the sixteen regions, 7 days, the marker
    key "AWSAutomatedDailySnapshots", dry-run off) and [int] is not
    consulted. *)
Theorem X14_unset_or_empty_variables_keep_defaults (int : string -> Result Z)
    (environ : gmap string string) :
  (forall name,
     In name ["LIMIT_TO_REGIONS"; "DEFAULT_RETENTION_TIME"; "KEY_TO_TAG_ON"] ->
     environ !! name = None \/ environ !! name = Some "") ->
  environ !! "DRY_RUN" <> Some "true" ->
  environ !! "DRY_RUN" <> Some "True" ->
  Settings.load int environ = Ok default_config.
Proof.
  intros Hunset Hdry1 Hdry2. unfold Settings.load.
  rewrite !SettingsFacts.given_unset
    by (apply Hunset; cbn [In]; tauto).
  cbv zeta.
  destruct (environ !! "DRY_RUN") as [value |] eqn:Hvalue; [| reflexivity].
  destruct (String.eqb_spec value "true") as [-> | _]; [contradiction |].
  destruct (String.eqb_spec value "True") as [-> | _]; [contradiction |].
  reflexivity.
Qed.

(** An environment that sets KEY_TO_TAG_ON to the empty string and
    DRY_RUN to "TRUE". *)
Lemma X14_unset_or_empty_variables_keep_defaults_witness :
  Settings.load Settings.int_refusing
    (<["KEY_TO_TAG_ON" := ""]> (<["DRY_RUN" := "TRUE"]> ∅))
  = Ok default_config.
Proof.
  apply X14_unset_or_empty_variables_keep_defaults.
  - intros name [<- | [<- | [<- | []]]]; vm_compute; tauto.
  - vm_compute. discriminate.
  - vm_compute. discriminate.
Defined.

(** X15. Dry-run is switched on by "true" and "True" only.  Whenever the
    module loads, the dry-run flag is set exactly when DRY_RUN is the
    string "true" or the string "True"; any other value ("TRUE", "1",
    "yes", the empty string) and an absent variable leave it off. *)
Theorem X15_dry_run_needs_true (int : string -> Result Z)
    (environ : gmap string string) (cfg : Config) :
  Settings.load int environ = Ok cfg ->
  dry_run cfg = true
  <-> environ !! "DRY_RUN" = Some "true" \/ environ !! "DRY_RUN" = Some "True".
Proof.
  unfold Settings.load. cbv zeta.
  destruct (match Settings.given environ "DEFAULT_RETENTION_TIME" with
            | Some value => int value
            | None => Ok (default_retention_time default_config)
            end) as [retention | e]; [| discriminate].
  intros [= <-]. cbn [dry_run].
  destruct (environ !! "DRY_RUN") as [value |].
  - rewrite orb_true_iff. split.
    + intros [H | H]; apply String.eqb_eq in H; subst value; tauto.
    + intros [[= ->] | [= ->]]; [left | right]; reflexivity.
  - split; [discriminate | intros [H | H]; discriminate H].
Qed.

(** DRY_RUN=True switches it on, DRY_RUN=1 does not. *)
Lemma X15_dry_run_needs_true_witness :
  (exists cfg, Settings.load Settings.int_refusing (<["DRY_RUN" := "True"]> ∅) = Ok cfg
               /\ dry_run cfg = true)
  /\ (exists cfg, Settings.load Settings.int_refusing (<["DRY_RUN" := "1"]> ∅) = Ok cfg
                  /\ dry_run cfg <> true).
Proof.
  split.
  - pose (cfg := {| aws_regions := aws_regions default_config;
                    default_retention_time := 7;
                    global_key_to_tag_on := "AWSAutomatedDailySnapshots";
                    dry_run := true |}).
    assert (Hload : Settings.load Settings.int_refusing (<["DRY_RUN" := "True"]> ∅)
                    = Ok cfg) by (vm_compute; reflexivity).
    exists cfg. split; [exact Hload |].
    apply (X15_dry_run_needs_true _ _ _ Hload).
    right. vm_compute. reflexivity.
  - assert (Hload : Settings.load Settings.int_refusing (<["DRY_RUN" := "1"]> ∅)
                    = Ok default_config) by (vm_compute; reflexivity).
    exists default_config. split; [exact Hload |].
    intros Hon.
    apply (X15_dry_run_needs_true _ _ _ Hload) in Hon.
    destruct Hon as [Hon | Hon]; vm_compute in Hon; discriminate Hon.
Defined.

(** X16. LIMIT_TO_REGIONS is cut at the commas and at nothing else.  When
    the variable is set and not empty and the module loads, the regions
    joined with commas give the variable back, no region holds a comma,
    and there is at least one region; blanks are kept and two commas in a
    row give an empty region name. *)
Theorem X16_regions_are_the_comma_separated_pieces (int : string -> Result Z)
    (environ : gmap string string) (cfg : Config) (value : string) :
  environ !! "LIMIT_TO_REGIONS" = Some value ->
  value <> "" ->
  Settings.load int environ = Ok cfg ->
  Py.join "," (aws_regions cfg) = value
  /\ aws_regions cfg <> []
  /\ (forall region, In region (aws_regions cfg) ->
        ~ In ","%char (list_ascii_of_string region)).
Proof.
  intros Hvalue Hne. unfold Settings.load. cbv zeta.
  rewrite (SettingsFacts.given_set environ "LIMIT_TO_REGIONS" value Hvalue Hne).
  destruct (match Settings.given environ "DEFAULT_RETENTION_TIME" with
            | Some value => int value
            | None => Ok (default_retention_time default_config)
            end) as [retention | e]; [| discriminate].
  intros [= <-]. cbn [aws_regions]. repeat apply conj.
  - apply SettingsFacts.join_split.
  - apply SettingsFacts.split_not_nil.
  - intros region. apply SettingsFacts.split_pieces.
Qed.

(** Two regions, a blank after the comma. *)
Lemma X16_regions_are_the_comma_separated_pieces_witness :
  exists cfg,
    Settings.load Settings.int_refusing (<["LIMIT_TO_REGIONS" := "us-east-1, eu-west-1"]> ∅)
    = Ok cfg
    /\ aws_regions cfg = ["us-east-1"; " eu-west-1"]
    /\ Py.join "," (aws_regions cfg) = "us-east-1, eu-west-1".
Proof.
  pose (cfg := {| aws_regions := ["us-east-1"; " eu-west-1"];
                  default_retention_time := 7;
                  global_key_to_tag_on := "AWSAutomatedDailySnapshots";
                  dry_run := false |}).
  assert (Hload : Settings.load Settings.int_refusing
                    (<["LIMIT_TO_REGIONS" := "us-east-1, eu-west-1"]> ∅)
                  = Ok cfg) by (vm_compute; reflexivity).
  assert (Hvalue : (<["LIMIT_TO_REGIONS" := "us-east-1, eu-west-1"]> ∅ : gmap string string)
                   !! "LIMIT_TO_REGIONS" = Some "us-east-1, eu-west-1")
    by (vm_compute; reflexivity).
  assert (Hne : "us-east-1, eu-west-1" <> "") by discriminate.
  exists cfg. split; [exact Hload |]. split; [reflexivity |].
  exact (proj1 (X16_regions_are_the_comma_separated_pieces _ _ _ _ Hvalue Hne Hload)).
Defined.
